(** * gocql: retry dispatcher, paging iterator, event debouncer and
      node-event reconciler (session.go, events.go)

    A shallow embedding of the Go code.  Go's [int], 64 bits wide on the
    platforms the driver runs on, is modelled as a [Z] in the two's-complement
    range with its wrap-around written out;
    a nil pointer, a nil interface and a nil error are [None]; a run-time
    panic (index out of range, nil dereference) is an explicit outcome.
    Calls to collaborators that live outside these files (the node pool,
    connections, the policy, the ring, the logger, the value codec) are
    either taken as parameters of a [Section] or recorded in a trace of
    effects. *)

From Stdlib Require Import ZArith String List Lia.
From stdpp Require Import base list gmap strings fin_maps pretty.

Local Open Scope string_scope.
Local Open Scope list_scope.
Local Open Scope Z_scope.

(** ** Go integers *)

Module GoInt.

Definition int_bits : Z := 64.
Definition max_int : Z := 2 ^ (int_bits - 1) - 1.
Definition min_int : Z := - 2 ^ (int_bits - 1).

Definition in_range (z : Z) : Prop := min_int <= z <= max_int.

(** Two's-complement wrap-around of a mathematical integer. *)
Definition wrap (z : Z) : Z :=
  (z + 2 ^ (int_bits - 1)) mod 2 ^ int_bits - 2 ^ (int_bits - 1).

(** [count++] *)
Definition incr (z : Z) : Z := wrap (z + 1).

(** [len(s)] of a slice, as an [int]. *)
Definition len {A} (l : list A) : Z := Z.of_nat (length l).

(** [s[i]] on a slice: [None] stands for the index-out-of-range panic. *)
Definition index {A} (l : list A) (i : Z) : option A :=
  if (0 <=? i) && (i <? len l) then l !! Z.to_nat i else None.

End GoInt.

(** ** Errors (session.go, 450-465) *)

Inductive error : Type :=
| errors_New (msg : string)            (* errors.New(msg) *)
| Error (Code : Z) (Message : string). (* type Error struct *)

Definition Error_Error (e : error) : string :=
  match e with
  | errors_New m => m
  | Error _ m => m
  end.

Definition ErrNotFound : error := errors_New "not found".
Definition ErrUnavailable : error := errors_New "unavailable".
Definition ErrProtocol : error := errors_New "protocol error".
Definition ErrUnsupported : error := errors_New "feature not supported".
Definition ErrTooManyStmts : error := errors_New "too many statements".

(** ** Consistency levels (session.go, 356-387) *)

Module Consistency.

(** [type Consistency int] *)
Definition Consistency : Type := Z.

(** [const ( Any Consistency = 1 + iota; One; ... )] *)
Definition iota_const (i : Z) : Consistency := 1 + i.
Definition Any : Consistency := iota_const 0.
Definition One : Consistency := iota_const 1.
Definition Two : Consistency := iota_const 2.
Definition Three : Consistency := iota_const 3.
Definition Quorum : Consistency := iota_const 4.
Definition All : Consistency := iota_const 5.
Definition LocalQuorum : Consistency := iota_const 6.
Definition EachQuorum : Consistency := iota_const 7.
Definition Serial : Consistency := iota_const 8.
Definition LocalSerial : Consistency := iota_const 9.

(** A keyed slice literal [[]string{k0: v0, k1: v1, ...}]: the slice is as
    long as the largest key plus one, unset slots hold the zero value. *)
Definition keyed_literal (kvs : list (Z * string)) : list string :=
  let n := foldr (fun kv m => Z.max (fst kv + 1) m) 0 kvs in
  foldl (fun l kv => <[Z.to_nat (fst kv) := snd kv]> l)
        (replicate (Z.to_nat n) "") kvs.

Definition consinstencyNames : list string :=
  keyed_literal
    [ (0, "default");
      (Any, "any");
      (One, "one");
      (Two, "two");
      (Three, "three");
      (Quorum, "quorum");
      (All, "all");
      (LocalQuorum, "localquorum");
      (EachQuorum, "eachquorum");
      (Serial, "serial");
      (LocalSerial, "localserial") ].

(** [func (c Consistency) String() string]; [None] is the run-time panic
    of an index out of range. *)
Definition String (c : Consistency) : option string :=
  GoInt.index consinstencyNames c.

(** The levels the const block defines, in declaration order. *)
Definition defined_levels : list Consistency :=
  [Any; One; Two; Three; Quorum; All; LocalQuorum; EachQuorum; Serial;
   LocalSerial].

(** The names the specification lists for [Any] through [LocalSerial]. *)
Definition spec_names : list string :=
  ["any"; "one"; "two"; "three"; "quorum"; "all"; "local_quorum";
   "each_quorum"; "serial"; "local_serial"].

(** The names the code holds for the same levels. *)
Definition code_names : list string :=
  ["any"; "one"; "two"; "three"; "quorum"; "all"; "localquorum";
   "eachquorum"; "serial"; "localserial"].

End Consistency.

(** ** Outcomes of a call

    A Go call returns, panics, or (in the model only) is cut off after a
    bounded number of loop iterations; the state reached is kept in the last
    case so that what happened before the cut stays observable. *)

Inductive outcome (A S : Type) : Type :=
| Returned (a : A) (s : S)
| Panicked (s : S)
| OutOfFuel (s : S).
Arguments Returned {A S} a s.
Arguments Panicked {A S} s.
Arguments OutOfFuel {A S} s.

(** The state a call ends in, whichever way it ends. *)
Definition state_of {A S : Type} (o : outcome A S) : S :=
  match o with Returned _ s | Panicked s | OutOfFuel s => s end.

(** ** Queries, batches and iterators (session.go) *)

Module Session.
Import GoInt.

Definition bytes : Type := list Byte.byte.

(** [interface{}] argument values are opaque to this file: a handle. *)
Definition Value : Type := Z.

(** [*TypeInfo]: the struct is declared elsewhere, only its address is
    handed on to [Unmarshal]. *)
Definition TypeInfo : Type := Z.

(** Modelled from the spec: [RetryPolicy], declared outside session.go, is
    "a resolved retry policy (a non-negative retry count N)".  The comparison
    [count <= qry.rt.NumRetries] with [count] an [int] makes [NumRetries] an
    [int]. *)
Record RetryPolicy : Type := { NumRetries : Z }.

(** [type Query struct]; the tracer, the prefetch ratio and the session
    back-reference are not read by the functions below (the session is the
    ambient one). *)
Record Query : Type := {
  stmt : string;
  values : list Value;
  cons : Consistency.Consistency;
  pageSize : Z;
  pageState : bytes;
  rt : RetryPolicy
}.

Record ColumnInfo : Type := {
  Keyspace : string;
  Table : string;
  Name : string;
  ColTypeInfo : TypeInfo
}.

(** [type Iter struct] and [type nextIter struct]; [once] is the [done]
    flag of the [sync.Once]. *)
Inductive Iter : Type :=
| mkIter (err : option error) (pos : Z) (rows : list (list bytes))
         (columns : list ColumnInfo) (next : option nextIter)
with nextIter : Type :=
| mkNextIter (qry : Query) (pos : Z) (once : bool) (next : option Iter).

Definition Iter_err (it : Iter) : option error :=
  match it with mkIter e _ _ _ _ => e end.
Definition Iter_pos (it : Iter) : Z :=
  match it with mkIter _ p _ _ _ => p end.
Definition Iter_rows (it : Iter) : list (list bytes) :=
  match it with mkIter _ _ r _ _ => r end.
Definition Iter_columns (it : Iter) : list ColumnInfo :=
  match it with mkIter _ _ _ c _ => c end.
Definition Iter_next (it : Iter) : option nextIter :=
  match it with mkIter _ _ _ _ n => n end.

Definition nextIter_qry (n : nextIter) : Query :=
  match n with mkNextIter q _ _ _ => q end.
Definition nextIter_pos (n : nextIter) : Z :=
  match n with mkNextIter _ p _ _ => p end.
Definition nextIter_once (n : nextIter) : bool :=
  match n with mkNextIter _ _ o _ => o end.
Definition nextIter_next (n : nextIter) : option Iter :=
  match n with mkNextIter _ _ _ i => i end.

Definition set_err (it : Iter) (e : option error) : Iter :=
  match it with mkIter _ p r c n => mkIter e p r c n end.
Definition set_pos (it : Iter) (p : Z) : Iter :=
  match it with mkIter e _ r c n => mkIter e p r c n end.

(** [&Iter{err: e}] *)
Definition Iter_of_err (e : error) : Iter := mkIter (Some e) 0 [] [] None.

Definition BatchType : Type := Z.
Definition LoggedBatch : BatchType := 0.
Definition UnloggedBatch : BatchType := 1.
Definition CounterBatch : BatchType := 2.

Record BatchEntry : Type := { Stmt : string; Args : list Value }.

Record Batch : Type := {
  Type_ : BatchType;
  Entries : list BatchEntry;
  Cons : Consistency.Consistency;
  batch_rt : RetryPolicy
}.

(** *** The node pool and its connections

    [s.Node.Pick(nil)], [conn.executeQuery] and [conn.executeBatch] are
    the interface to the network.  They act on a state of their own, the
    [World]; every call is recorded, with what it returned. *)

Section Dispatcher.
Context {World Conn : Type}.

Inductive call : Type :=
| call_Pick (r : option Conn)
| call_executeQuery (c : Conn) (q : Query) (r : Iter)
| call_executeBatch (c : Conn) (b : Batch) (r : option error)
| go_fetch (n : nextIter).

Record Node : Type := {
  Pick : World -> option Conn * World;
  conn_executeQuery : Conn -> Query -> World -> Iter * World;
  conn_executeBatch : Conn -> Batch -> World -> option error * World
}.

Record Env : Type := { world : World; calls : list call }.

Variable node : Node.

Definition do_Pick (e : Env) : option Conn * Env :=
  let '(r, w) := Pick node (world e) in
  (r, {| world := w; calls := calls e ++ [call_Pick r] |}).

Definition do_executeQuery (c : Conn) (q : Query) (e : Env) : Iter * Env :=
  let '(r, w) := conn_executeQuery node c q (world e) in
  (r, {| world := w; calls := calls e ++ [call_executeQuery c q r] |}).

Definition do_executeBatch (c : Conn) (b : Batch) (e : Env)
  : option error * Env :=
  let '(r, w) := conn_executeBatch node c b (world e) in
  (r, {| world := w; calls := calls e ++ [call_executeBatch c b r] |}).

(** The [for count <= qry.rt.NumRetries] loop of [executeQuery], entered
    with the current [itr] and [count]. *)
Fixpoint executeQuery_loop (fuel : nat) (qry : Query) (itr : option Iter)
         (count : Z) (e : Env) : outcome (option Iter) Env :=
  if count <=? NumRetries (rt qry) then
    match fuel with
    | O => OutOfFuel e
    | S fuel' =>
        let '(conn, e1) := do_Pick e in
        match conn with
        | None => Returned (Some (Iter_of_err ErrUnavailable)) e1
        | Some c =>
            let '(itr', e2) := do_executeQuery c qry e1 in
            match Iter_err itr' with
            | None => Returned (Some itr') e2
            | Some _ =>
                executeQuery_loop fuel' qry (Some itr') (incr count) e2
            end
        end
    end
  else Returned itr e.

(** [func (s *Session) executeQuery(qry *Query) *Iter] *)
Definition executeQuery (fuel : nat) (qry : Query) (e : Env)
  : outcome (option Iter) Env :=
  executeQuery_loop fuel qry None 0 e.

Fixpoint ExecuteBatch_loop (fuel : nat) (batch : Batch)
         (err : option error) (count : Z) (e : Env)
  : outcome (option error) Env :=
  if count <=? NumRetries (batch_rt batch) then
    match fuel with
    | O => OutOfFuel e
    | S fuel' =>
        let '(conn, e1) := do_Pick e in
        match conn with
        | None => Returned (Some ErrUnavailable) e1
        | Some c =>
            let '(err', e2) := do_executeBatch c batch e1 in
            match err' with
            | None => Returned None e2
            | Some _ =>
                ExecuteBatch_loop fuel' batch err' (incr count) e2
            end
        end
    end
  else Returned err e.

(** [func (s *Session) ExecuteBatch(batch *Batch) error] *)
Definition ExecuteBatch (fuel : nat) (batch : Batch) (e : Env)
  : outcome (option error) Env :=
  if len (Entries batch) >? 65536 then Returned (Some ErrTooManyStmts) e
  else ExecuteBatch_loop fuel batch None 0 e.

(** [func (q *Query) Exec() error]: [iter.err] on a nil [iter] panics. *)
Definition Query_Exec (fuel : nat) (q : Query) (e : Env)
  : outcome (option error) Env :=
  match executeQuery fuel q e with
  | Returned (Some it) e1 => Returned (Iter_err it) e1
  | Returned None e1 => Panicked e1
  | Panicked e1 => Panicked e1
  | OutOfFuel e1 => OutOfFuel e1
  end.

(** Counting the calls of a trace. *)
Definition is_Pick (c : call) : bool :=
  match c with call_Pick _ => true | _ => false end.
Definition is_execute (c : call) : bool :=
  match c with
  | call_executeQuery _ _ _ | call_executeBatch _ _ _ => true
  | _ => false
  end.
Definition n_picks (l : list call) : nat := length (filter is_Pick l).
Definition n_executions (l : list call) : nat :=
  length (filter is_execute l).

(** *** Describing what the network does to a run

    One attempt as the network sees it: the [Pick] and, when a
    connection came back, its execution.  [world_after attempt i w] is the
    world [i] attempts after [w]; [attempt_kind] tells how the attempt made
    there ends. *)
Definition query_attempt (q : Query) (w : World) : option Iter * World :=
  let '(conn, w1) := Pick node w in
  match conn with
  | None => (None, w1)
  | Some c =>
      let '(it, w2) := conn_executeQuery node c q w1 in (Some it, w2)
  end.

Definition batch_attempt (b : Batch) (w : World)
  : option (option error) * World :=
  let '(conn, w1) := Pick node w in
  match conn with
  | None => (None, w1)
  | Some c =>
      let '(r, w2) := conn_executeBatch node c b w1 in (Some r, w2)
  end.

Fixpoint world_after {R} (attempt : World -> option R * World) (i : nat)
         (w : World) : World :=
  match i with
  | O => w
  | S i' => world_after attempt i' (snd (attempt w))
  end.

Inductive attempt_kind : Type := NoConnection | Fails | Succeeds.

Definition query_kind (q : Query) (w : World) (i : nat) : attempt_kind :=
  match fst (query_attempt q (world_after (query_attempt q) i w)) with
  | None => NoConnection
  | Some it =>
      match Iter_err it with None => Succeeds | Some _ => Fails end
  end.

Definition batch_kind (b : Batch) (w : World) (i : nat) : attempt_kind :=
  match fst (batch_attempt b (world_after (batch_attempt b) i w)) with
  | None => NoConnection
  | Some None => Succeeds
  | Some (Some _) => Fails
  end.

(** What attempt number [i + 1] returned. *)
Definition query_result (q : Query) (w : World) (i : nat) : option Iter :=
  fst (query_attempt q (world_after (query_attempt q) i w)).

Definition batch_result (b : Batch) (w : World) (i : nat)
  : option (option error) :=
  fst (batch_attempt b (world_after (batch_attempt b) i w)).

(** A run from [e] to [e'] adds [n] picks and [n] executions and leaves
    the network in the world [w]. *)
Definition made_attempts (e e' : Env) (n : nat) (w : World) : Prop :=
  world e' = w
  /\ n_picks (calls e') = (n_picks (calls e) + n)%nat
  /\ n_executions (calls e') = (n_executions (calls e) + n)%nat.

(** *** The paging iterator *)

(** [func (n *nextIter) fetch() *Iter]: [n.once.Do] runs the query
    unless the latch is already set; the updated [nextIter] is returned
    next to the result. *)
Definition fetch (fuel : nat) (n : nextIter) (e : Env)
  : outcome (option Iter * nextIter) Env :=
  if nextIter_once n then Returned (nextIter_next n, n) e
  else
    match executeQuery fuel (nextIter_qry n) e with
    | Returned r e1 =>
        Returned (r, mkNextIter (nextIter_qry n) (nextIter_pos n) true r) e1
    | Panicked e1 => Panicked e1
    | OutOfFuel e1 => OutOfFuel e1
    end.

(** A destination of [Scan]: a nil interface or the address it holds. *)
Definition Dest : Type := option Z.

Context {Heap : Type}.

(** [Unmarshal(info, data, value)] of the value codec: it writes through
    the destination and may fail. *)
Variable Unmarshal : TypeInfo -> bytes -> Z -> Heap -> option error * Heap.

(** The [for i := 0; i < len(iter.columns); i++] loop of [Scan], entered
    at [i]; it returns the first decode error, if any. *)
Fixpoint Scan_columns (fuel : nat) (i : Z) (iter : Iter)
         (dest : list Dest) (h : Heap) : outcome (option error) Heap :=
  if i <? len (Iter_columns iter) then
    match fuel with
    | O => OutOfFuel h
    | S fuel' =>
        match index dest i with
        | None => Panicked h
        | Some None => Scan_columns fuel' (incr i) iter dest h
        | Some (Some p) =>
            match index (Iter_columns iter) i,
                  index (Iter_rows iter) (Iter_pos iter) with
            | Some col, Some row =>
                match index row i with
                | Some cell =>
                    let '(err, h') := Unmarshal (ColTypeInfo col) cell p h in
                    match err with
                    | Some er => Returned (Some er) h'
                    | None => Scan_columns fuel' (incr i) iter dest h'
                    end
                | None => Panicked h
                end
            | _, _ => Panicked h
            end
        end
    end
  else Returned None h.

(** [go iter.next.fetch()]: the goroutine is recorded; its fetch is
    accounted for where the iterator first needs the result, so the
    statement never blocks [Scan]. *)
Definition spawn_fetch (n : nextIter) (e : Env) : Env :=
  {| world := world e; calls := calls e ++ [go_fetch n] |}.


(** The second half of [Scan], reached when a buffered row is left:
    the prefetch trigger, the count check, the column loop and the
    cursor. *)
Definition Scan_row (iter : Iter) (dest : list Dest) (e : Env) (h : Heap)
  : outcome bool (Iter * Env * Heap) :=
  let e1 :=
    match Iter_next iter with
    | Some n =>
        if Iter_pos iter =? nextIter_pos n then spawn_fetch n e else e
    | None => e
    end in
  if negb (len dest =? len (Iter_columns iter)) then
    Returned false
      (set_err iter (Some (errors_New "count mismatch")), e1, h)
  else
    match Scan_columns (length (Iter_columns iter)) 0 iter dest h with
    | Returned (Some er) h' =>
        Returned false (set_err iter (Some er), e1, h')
    | Returned None h' =>
        Returned true (set_pos iter (incr (Iter_pos iter)), e1, h')
    | Panicked h' => Panicked (iter, e1, h')
    | OutOfFuel h' => OutOfFuel (iter, e1, h')
    end.

(** [func (iter *Iter) Scan(dest ...interface{}) bool]; the iterator is
    updated in place, so it is part of the state. *)
Fixpoint Scan (fuel : nat) (iter : Iter) (dest : list Dest) (e : Env)
         (h : Heap) : outcome bool (Iter * Env * Heap) :=
  match Iter_err iter with
  | Some _ => Returned false (iter, e, h)
  | None =>
      if Iter_pos iter >=? len (Iter_rows iter) then
        match Iter_next iter with
        | Some n =>
            match fuel with
            | O => OutOfFuel (iter, e, h)
            | S fuel' =>
                match fetch fuel' n e with
                | Returned (Some it, _) e1 => Scan fuel' it dest e1 h
                | Returned (None, _) e1 => Panicked (iter, e1, h)
                | Panicked e1 => Panicked (iter, e1, h)
                | OutOfFuel e1 => OutOfFuel (iter, e1, h)
                end
            end
        | None => Returned false (iter, e, h)
        end
      else Scan_row iter dest e h
  end.

(** [func (iter *Iter) Close() error] *)
Definition Close (iter : Iter) : option error := Iter_err iter.

(** [func (iter *Iter) Columns() []ColumnInfo] *)
Definition Columns (iter : Iter) : list ColumnInfo := Iter_columns iter.

(** Consecutive [Scan] calls on one iterator, the [k]-th with the
    destinations [dests k]; the results are listed in call order.  A call
    that does not return ends the run. *)
Fixpoint Scan_calls (fuel : nat) (dests : list (list Dest)) (iter : Iter)
         (e : Env) (h : Heap) : list bool * option (Iter * Env * Heap) :=
  match dests with
  | [] => ([], Some (iter, e, h))
  | d :: ds =>
      match Scan fuel iter d e h with
      | Returned b (iter', e', h') =>
          let '(bs, st) := Scan_calls fuel ds iter' e' h' in (b :: bs, st)
      | _ => ([], None)
      end
  end.

(** *** Describing what the codec does to a row

    Column [c] of [row] decodes into [dest]: the destination is nil, or
    [Unmarshal] succeeds on the cell whatever the heap.  Column [c] fails
    with [er]: the destination is not nil and [Unmarshal] returns [er]. *)
Definition column_decodes (cols : list ColumnInfo) (row : list bytes)
           (dest : list Dest) (c : nat) : Prop :=
  match dest !! c with
  | Some None => True
  | Some (Some p) =>
      exists col cell,
        cols !! c = Some col /\ row !! c = Some cell
        /\ forall h, fst (Unmarshal (ColTypeInfo col) cell p h) = None
  | None => False
  end.

Definition column_fails (cols : list ColumnInfo) (row : list bytes)
           (dest : list Dest) (c : nat) (er : error) : Prop :=
  exists p col cell,
    dest !! c = (Some (Some p) : option Dest)
    /\ cols !! c = Some col /\ row !! c = Some cell
    /\ forall h, fst (Unmarshal (ColTypeInfo col) cell p h) = Some er.

Definition row_decodes (cols : list ColumnInfo) (row : list bytes)
           (dest : list Dest) : Prop :=
  length dest = length cols
  /\ forall c, (c < length cols)%nat -> column_decodes cols row dest c.

Definition row_fails (cols : list ColumnInfo) (row : list bytes)
           (dest : list Dest) (er : error) : Prop :=
  length dest = length cols
  /\ exists c0, (c0 < length cols)%nat
                /\ column_fails cols row dest c0 er
                /\ forall c, (c < c0)%nat -> column_decodes cols row dest c.





End Dispatcher.
Arguments call : clear implicits.
Arguments Node : clear implicits.
Arguments Env : clear implicits.

End Session.

(** ** Event debouncing and node-event reconciliation (events.go) *)

Module Events.
Import GoInt.

(** [net.IP], a byte slice. *)
Definition IP : Type := list Byte.byte.

(** Modelled from the spec: the frame types, declared outside events.go,
    are "schema-keyspace-changed, schema-table-changed,
    schema-function-changed, schema-aggregate-changed, schema-type-changed
    (each carrying keyspace + change kind), topology-changed, status-changed
    (host IP, port, UP/DOWN)".  Only the fields events.go reads are kept; any
    other frame is [otherFrame]. *)
Inductive frame : Type :=
| schemaChangeKeyspace (keyspace change : string)
| schemaChangeTable (keyspace : string)
| schemaChangeAggregate (keyspace : string)
| schemaChangeFunction (keyspace : string)
| schemaChangeType (keyspace : string)
| topologyChangeEventFrame (change : string) (host : IP) (port : Z)
| statusChangeEventFrame (change : string) (host : IP) (port : Z)
| otherFrame (tag : Z).

(** [*HostInfo]: a host object is shared by the ring, the pool and the
    policy, so it is named by its address. *)
Definition HostRef : Type := Z.

Inductive nodeState : Type := NodeUp | NodeDown.

(** Modelled from the spec: [HostInfo], declared outside events.go, is an
    "external entity with a state enum {Up, Down, ...} and identity (IP, port,
    host ID)".  Kept here: the state [setState] writes, the id [HostID]
    returns and the version [Version] returns. *)
Record HostInfo : Type := {
  state : nodeState;
  hostId : string;
  version : Z
}.

Definition set_state (st : nodeState) (h : HostInfo) : HostInfo :=
  {| state := st; hostId := hostId h; version := version h |}.

(** The node event [handleNodeEvent] keeps per host. *)
Record nodeEvent : Type := {
  ev_change : string;
  ev_host : IP;
  ev_port : Z
}.

Definition set_change (c : string) (ev : nodeEvent) : nodeEvent :=
  {| ev_change := c; ev_host := ev_host ev; ev_port := ev_port ev |}.

(** Arguments of a log line.  [ArgPoolSize] is the value the preceding
    [s.pool.Size()] call returned. *)
Inductive LogArg : Type :=
| ArgString (s : string)
| ArgInt (z : Z)
| ArgFrame (f : frame)
| ArgNodeEvent (ev : nodeEvent)
| ArgPoolSize.

(** What the code does to its collaborators, in program order.
    [call_handleNodeUp] and [call_handleNodeDown] mark the two call sites
    of [handleNodeEvent]. *)
Inductive effect : Type :=
| logger_Printf (format : string) (args : list LogArg)
| timer_Reset (d : Z)
| go_callback (frames : list frame)
| pool_Size
| pool_addHost (h : HostRef)
| pool_removeHost (hostID : string)
| policy_AddHost (h : HostRef)
| policy_HostUp (h : HostRef)
| policy_HostDown (h : HostRef)
| debounceRingRefresh
| time_Sleep (d : Z)
| call_handleNodeUp (ip : IP) (port : Z)
| call_handleNodeDown (ip : IP) (port : Z).

(** *** The debouncer *)

Definition eventBufferSize : Z := 1000.
(** [1 * time.Second], in nanoseconds. *)
Definition eventDebounceTime : Z := 1 * 1000000000.

Record eventDebouncer : Type := {
  name : string;
  timer_armed : bool;
  events : list frame
}.

(** [newEventDebouncer]: the timer is created and stopped at once, the
    buffer is the nil slice. *)
Definition newEventDebouncer (nm : string) : eventDebouncer :=
  {| name := nm; timer_armed := false; events := [] |}.

(** [func (e *eventDebouncer) flush()] *)
Definition flush (e : eventDebouncer) : eventDebouncer * list effect :=
  if len (events e) =? 0 then (e, [])
  else ({| name := name e; timer_armed := timer_armed e; events := [] |},
        [go_callback (events e)]).

(** [case <-e.timer.C] of [flusher]: the timer has fired. *)
Definition timer_fired (e : eventDebouncer) : eventDebouncer * list effect :=
  flush {| name := name e; timer_armed := false; events := events e |}.

(** [func (e *eventDebouncer) debounce(frame frame)] *)
Definition debounce (e : eventDebouncer) (f : frame)
  : eventDebouncer * list effect :=
  if len (events e) <? eventBufferSize then
    ({| name := name e; timer_armed := true; events := events e ++ [f] |},
     [timer_Reset eventDebounceTime])
  else
    ({| name := name e; timer_armed := true; events := events e |},
     [timer_Reset eventDebounceTime;
      logger_Printf "%s: buffer full, dropping event frame: %s"
                    [ArgString (name e); ArgFrame f]]).

(** Arrivals [fs] in one quiet window: [debounce] after [debounce], the
    timer never firing in between. *)
Fixpoint debounce_all (e : eventDebouncer) (fs : list frame)
  : eventDebouncer * list effect :=
  match fs with
  | [] => (e, [])
  | f :: fs' =>
      let '(e1, out1) := debounce e f in
      let '(e2, out2) := debounce_all e1 fs' in
      (e2, out1 ++ out2)
  end.

Definition is_drop_log (x : effect) : bool :=
  match x with logger_Printf _ _ => true | _ => false end.

Definition drop_log (nm : string) (f : frame) : effect :=
  logger_Printf "%s: buffer full, dropping event frame: %s"
                [ArgString nm; ArgFrame f].

(** The frames handed to the callback by a list of effects. *)
Definition delivered (out : list effect) : list (list frame) :=
  omap (fun x => match x with go_callback fs => Some fs | _ => None end) out.

(** *** The session as events.go sees it *)

(** Modelled from the spec: the cluster configuration, declared outside
    events.go, lets topology events be "administratively disabled" and hosts
    be "excluded by policy-level host filtering"; the switch for node status
    events is the one [handleNodeEvent] reads. *)
Record EventsConfig : Type := {
  DisableNodeStatusEvents : bool;
  DisableTopologyEvents : bool
}.

Record ClusterConfig : Type := {
  cfg_Events : EventsConfig;
  filterHost : HostInfo -> bool
}.

Record Session : Type := {
  cfg : ClusterConfig;
  ring : gmap string HostRef;   (* s.ring, by [ip.String()] *)
  hosts : HostRef -> HostInfo   (* the host objects *)
}.

Definition setState (r : HostRef) (st : nodeState) (s : Session) : Session :=
  {| cfg := cfg s; ring := ring s;
     hosts := fun r' =>
       if r' =? r then set_state st (hosts s r) else hosts s r' |}.

Section Handlers.
(** [net.IP.String], the debug switch, the start-up delay a host's
    version asks for, and the order in which the run time walks a map. *)
Variable IP_String : IP -> string.
Variable gocqlDebug : bool.
Variable nodeUpDelay : HostInfo -> Z.
Variable range_order :
  gmap string nodeEvent -> list (string * nodeEvent).

Definition debug_Printf (format : string) (args : list LogArg)
  : list effect :=
  if gocqlDebug then [logger_Printf format args] else [].

(** [func (s *Session) startPoolFill(host *HostInfo)] *)
Definition startPoolFill (host : HostRef) : list effect :=
  [pool_addHost host; policy_AddHost host].

(** [func (s *Session) handleNodeUp(eventIp net.IP, eventPort int)];
    the deferred log line closes the trace on every path. *)
Definition handleNodeUp (s : Session) (eventIp : IP) (eventPort : Z)
  : Session * list effect :=
  let pre :=
    [pool_Size;
     logger_Printf
       "dbg200a: gocql: Session.handleNodeUp: %s:%d, pre pool size:%d\n"
       [ArgString (IP_String eventIp); ArgInt eventPort; ArgPoolSize]]
    ++ debug_Printf "gocql: Session.handleNodeUp: %s:%d\n"
         [ArgString (IP_String eventIp); ArgInt eventPort] in
  let deferred :=
    [pool_Size;
     logger_Printf
       "dbg200a: gocql: Session.handleNodeUp: %s:%d, post pool size:%d\n"
       [ArgString (IP_String eventIp); ArgInt eventPort; ArgPoolSize]] in
  let body :=
    match ring s !! IP_String eventIp with
    | None => [debounceRingRefresh]
    | Some host =>
        if filterHost (cfg s) (hosts s host) then []
        else
          let d := nodeUpDelay (hosts s host) in
          (if d >? 0 then [time_Sleep d] else []) ++ startPoolFill host
    end in
  (s, pre ++ body ++ deferred).

(** [func (s *Session) handleNodeDown(ip net.IP, port int)] *)
Definition handleNodeDown (s : Session) (ip : IP) (port : Z)
  : Session * list effect :=
  let pre :=
    [pool_Size;
     logger_Printf
       "dbg250a: gocql: Session.handleNodeDown: %s:%d, pre pool size:%d\n"
       [ArgString (IP_String ip); ArgInt port; ArgPoolSize]]
    ++ debug_Printf "gocql: Session.handleNodeDown: %s:%d\n"
         [ArgString (IP_String ip); ArgInt port] in
  let deferred :=
    [pool_Size;
     logger_Printf
       "dbg250a: gocql: Session.handleNodeDown: %s:%d, post pool size:%d\n"
       [ArgString (IP_String ip); ArgInt port; ArgPoolSize]] in
  match ring s !! IP_String ip with
  | Some host =>
      let s1 := setState host NodeDown s in
      if filterHost (cfg s1) (hosts s1 host) then (s1, pre ++ deferred)
      else
        (s1,
         pre ++ [policy_HostDown host;
                 pool_removeHost (hostId (hosts s1 host))] ++ deferred)
  | None => (s, pre ++ deferred)
  end.

(** The first loop of [handleNodeEvent], one frame. *)
Definition collect_frame (acc : bool * gmap string nodeEvent) (f : frame)
  : bool * gmap string nodeEvent :=
  let '(topologyEventReceived, sEvents) := acc in
  match f with
  | topologyChangeEventFrame _ _ _ => (true, sEvents)
  | statusChangeEventFrame change host port =>
      let event :=
        match sEvents !! IP_String host with
        | Some event => event
        | None =>
            {| ev_change := change; ev_host := host; ev_port := port |}
        end in
      (topologyEventReceived,
       <[IP_String host := set_change change event]> sEvents)
  | _ => acc
  end.

Definition collect (frames : list frame) : bool * gmap string nodeEvent :=
  foldl collect_frame (false, ∅) frames.

(** The body of the second loop of [handleNodeEvent], one map entry. *)
Definition dispatch (s : Session) (f : nodeEvent) : Session * list effect :=
  let dbg :=
    debug_Printf "gocql: dispatching status change event: %+v\n"
      [ArgNodeEvent f] in
  if String.eqb (ev_change f) "UP" then
    if negb (DisableNodeStatusEvents (cfg_Events (cfg s))) then
      let '(s1, out) := handleNodeUp s (ev_host f) (ev_port f) in
      (s1, dbg ++ call_handleNodeUp (ev_host f) (ev_port f) :: out)
    else (s, dbg)
  else if String.eqb (ev_change f) "DOWN" then
    if negb (DisableNodeStatusEvents (cfg_Events (cfg s))) then
      let '(s1, out) := handleNodeDown s (ev_host f) (ev_port f) in
      (s1, dbg ++ call_handleNodeDown (ev_host f) (ev_port f) :: out)
    else (s, dbg)
  else (s, dbg).

Fixpoint dispatch_all (s : Session) (evs : list (string * nodeEvent))
  : Session * list effect :=
  match evs with
  | [] => (s, [])
  | kv :: evs' =>
      let '(s1, out1) := dispatch s (snd kv) in
      let '(s2, out2) := dispatch_all s1 evs' in
      (s2, out1 ++ out2)
  end.

(** [func (s *Session) handleNodeEvent(frames []frame)] *)
Definition handleNodeEvent (s : Session) (frames : list frame)
  : Session * list effect :=
  let '(topologyEventReceived, sEvents) := collect frames in
  let refresh :=
    if topologyEventReceived
       && negb (DisableTopologyEvents (cfg_Events (cfg s)))
    then [debounceRingRefresh] else [] in
  let '(s1, out) := dispatch_all s (range_order sEvents) in
  (s1, refresh ++ out).

(** *** Reading a batch and a trace

    The status frames of a batch that name the host [k], in arrival
    order, as events. *)
Definition status_for (k : string) (frames : list frame)
  : list nodeEvent :=
  omap (fun f =>
          match f with
          | statusChangeEventFrame change host port =>
              if String.eqb (IP_String host) k
              then Some {| ev_change := change; ev_host := host;
                           ev_port := port |}
              else None
          | _ => None
          end) frames.

(** The change of the last event of [l], or [c] if there is none. *)
Fixpoint last_change (c : string) (l : list nodeEvent) : string :=
  match l with
  | [] => c
  | x :: l' => last_change (ev_change x) l'
  end.

(** First frame's address and port, last frame's change. *)
Definition collapsed (k : string) (frames : list frame)
  : option nodeEvent :=
  match status_for k frames with
  | [] => None
  | x :: l =>
      Some {| ev_change := last_change (ev_change x) l;
              ev_host := ev_host x; ev_port := ev_port x |}
  end.

(** The handler calls [handleNodeEvent] makes for one collapsed event. *)
Definition expected_dispatch (c : ClusterConfig) (ev : nodeEvent)
  : list effect :=
  if DisableNodeStatusEvents (cfg_Events c) then []
  else if String.eqb (ev_change ev) "UP"
       then [call_handleNodeUp (ev_host ev) (ev_port ev)]
       else if String.eqb (ev_change ev) "DOWN"
            then [call_handleNodeDown (ev_host ev) (ev_port ev)]
            else [].

Definition dispatch_for (k : string) (x : effect) : bool :=
  match x with
  | call_handleNodeUp ip _ | call_handleNodeDown ip _ =>
      String.eqb (IP_String ip) k
  | _ => false
  end.

(** The handler calls of a trace that are made for the host [k]. *)
Definition dispatches_for (k : string) (out : list effect) : list effect :=
  filter (dispatch_for k) out.

(** Log lines and the pool-size reads that feed them change nothing;
    the rest of a trace is what was done. *)
Definition is_observation (x : effect) : bool :=
  match x with
  | logger_Printf _ _ | pool_Size => true
  | _ => false
  end.

Definition actions (out : list effect) : list effect :=
  filter (fun x => negb (is_observation x)) out.

(** A status handler that runs says so itself: the first line
    [handleNodeUp] logs, on every path, names the address and the port it
    was called with, and so does the first line of [handleNodeDown]. *)
Definition handleNodeUp_entry (addr : string) (port : Z) : effect :=
  logger_Printf
    "dbg200a: gocql: Session.handleNodeUp: %s:%d, pre pool size:%d\n"
    [ArgString addr; ArgInt port; ArgPoolSize].

Definition handleNodeDown_entry (addr : string) (port : Z) : effect :=
  logger_Printf
    "dbg250a: gocql: Session.handleNodeDown: %s:%d, pre pool size:%d\n"
    [ArgString addr; ArgInt port; ArgPoolSize].

Definition entry_for (k : string) (x : effect) : bool :=
  match x with
  | logger_Printf format [ArgString addr; ArgInt _; ArgPoolSize] =>
      (String.eqb format
         "dbg200a: gocql: Session.handleNodeUp: %s:%d, pre pool size:%d\n"
       || String.eqb format
            "dbg250a: gocql: Session.handleNodeDown: %s:%d, pre pool size:%d\n")
      && String.eqb addr k
  | _ => false
  end.

(** The runs of a status handler on the address [k] that a trace holds,
    each by its own first line. *)
Definition handler_runs_for (k : string) (out : list effect) : list effect :=
  filter (entry_for k) out.

(** The handler runs [handleNodeEvent] starts for one collapsed event. *)
Definition expected_runs (c : ClusterConfig) (ev : nodeEvent)
  : list effect :=
  if DisableNodeStatusEvents (cfg_Events c) then []
  else if String.eqb (ev_change ev) "UP"
       then [handleNodeUp_entry (IP_String (ev_host ev)) (ev_port ev)]
       else if String.eqb (ev_change ev) "DOWN"
            then [handleNodeDown_entry (IP_String (ev_host ev)) (ev_port ev)]
            else [].

Definition is_call_site (x : effect) : bool :=
  match x with
  | call_handleNodeUp _ _ | call_handleNodeDown _ _ => true
  | _ => false
  end.

(** Every call site in [out] is followed at once by the whole trace of the
    handler it names, run on the arguments of the call in a session that has
    the configuration and the ring of [s]. *)
Definition calls_run (s : Session) (out : list effect) : Prop :=
  forall l1 x l2,
    out = l1 ++ x :: l2 ->
    match x with
    | call_handleNodeUp ip port =>
        exists s1, cfg s1 = cfg s /\ ring s1 = ring s
                   /\ (handleNodeUp s1 ip port).2 `prefix_of` l2
    | call_handleNodeDown ip port =>
        exists s1, cfg s1 = cfg s /\ ring s1 = ring s
                   /\ (handleNodeDown s1 ip port).2 `prefix_of` l2
    | _ => True
    end.

End Handlers.

End Events.

(** ** Small concrete networks, to run the definitions on *)

Module Examples.
Import GoInt Session.

(** A pool that always has a connection, on which every execution fails
    with a protocol error. *)
Definition failing_node : Node unit unit :=
  {| Pick := fun w => (Some tt, w);
     conn_executeQuery := fun _ _ w => (Iter_of_err ErrProtocol, w);
     conn_executeBatch := fun _ _ w => (Some ErrProtocol, w) |}.

(** A pool whose connections fail [n] times and work from then on; the
    world counts the executions made. *)
Definition flaky_node (n : nat) : Node nat unit :=
  {| Pick := fun w => (Some tt, w);
     conn_executeQuery := fun _ _ w =>
       (if (w <? n)%nat then Iter_of_err ErrProtocol
        else mkIter None 0 [] [] None, S w);
     conn_executeBatch := fun _ _ w =>
       (if (w <? n)%nat then Some ErrProtocol else None, S w) |}.

Definition query_with_retries (n : Z) : Query :=
  {| stmt := "SELECT now() FROM system.local"; values := [];
     cons := Consistency.Quorum; pageSize := 0; pageState := [];
     rt := {| NumRetries := n |} |}.

Definition batch_of (n : Z) (retries : Z) : Batch :=
  {| Type_ := LoggedBatch;
     Entries := replicate (Z.to_nat n) {| Stmt := "INSERT INTO t (k) VALUES (?)";
                               Args := [1] |};
     Cons := Consistency.Quorum;
     batch_rt := {| NumRetries := retries |} |}.

Definition start {World Conn : Type} (w : World) : Env World Conn :=
  {| world := w; calls := [] |}.

(** A codec that cannot decode an empty cell and otherwise stores the
    cell under the destination address; and a page of two rows of two
    columns whose second row has an empty second cell. *)
Definition toy_Unmarshal (_ : TypeInfo) (cell : bytes) (p : Z)
           (h : list (Z * bytes)) : option error * list (Z * bytes) :=
  match cell with
  | [] => (Some (errors_New "can not unmarshal into destination"), h)
  | _ => (None, (p, cell) :: h)
  end.

Definition toy_columns : list ColumnInfo :=
  [ {| Keyspace := "ks"; Table := "t"; Name := "k"; ColTypeInfo := 1 |};
    {| Keyspace := "ks"; Table := "t"; Name := "v"; ColTypeInfo := 2 |} ].


Definition toy_dest : list Dest := [Some 100; Some 200].

(** [net.IP.String] on the four-byte form of an IPv4 address, dotted
    decimal; other lengths are not needed by the examples. *)
Definition decimal (b : Byte.byte) : string :=
  pretty (Byte.to_N b).

Definition ipv4_String (ip : Events.IP) : string :=
  match ip with
  | [a; b; c; d] =>
      decimal a +:+ "." +:+ decimal b +:+ "." +:+ decimal c +:+ "."
      +:+ decimal d
  | _ => "?"
  end.

Definition host_10_0_0_1 : Events.IP :=
  [Byte.x0a; Byte.x00; Byte.x00; Byte.x01].

Definition no_delay (_ : Events.HostInfo) : Z := 0.

Definition a_host : Events.HostInfo :=
  {| Events.state := Events.NodeUp; Events.hostId := "host-1";
     Events.version := 4 |}.

(** A session whose ring is [r], with or without node status events. *)
Definition session_with (disabled : bool) (filtered : bool)
           (r : gmap string Events.HostRef) : Events.Session :=
  {| Events.cfg :=
       {| Events.cfg_Events :=
            {| Events.DisableNodeStatusEvents := disabled;
               Events.DisableTopologyEvents := false |};
          Events.filterHost := fun _ => filtered |};
     Events.ring := r;
     Events.hosts := fun _ => a_host |}.

Definition down_then_up : list Events.frame :=
  [ Events.statusChangeEventFrame "DOWN" host_10_0_0_1 9042;
    Events.statusChangeEventFrame "UP" host_10_0_0_1 9043 ].

End Examples.

(** ** The rest of session.go: the query API, batches, well-formed pages *)

Module SessionAPI.
Import GoInt Session.

(** [func NewBatch(typ BatchType) *Batch]: every other field is the zero
    value. *)
Definition NewBatch (typ : BatchType) : Batch :=
  {| Type_ := typ; Entries := []; Cons := 0;
     batch_rt := {| NumRetries := 0 |} |}.

(** [func (s *Session) NewBatch(typ BatchType) *Batch], given
    [s.cfg.RetryPolicy]. *)
Definition Session_NewBatch (cfg_RetryPolicy : RetryPolicy) (typ : BatchType)
  : Batch :=
  {| Type_ := typ; Entries := []; Cons := 0; batch_rt := cfg_RetryPolicy |}.

(** [func (b *Batch) Query(stmt string, args ...interface{})] *)
Definition Batch_Query (b : Batch) (stmt : string) (args : list Value)
  : Batch :=
  {| Type_ := Type_ b;
     Entries := Entries b ++ [{| Stmt := stmt; Args := args |}];
     Cons := Cons b; batch_rt := batch_rt b |}.

(** [func (b *Batch) RetryPolicy(r RetryPolicy) *Batch] *)
Definition Batch_RetryPolicy (b : Batch) (r : RetryPolicy) : Batch :=
  {| Type_ := Type_ b; Entries := Entries b; Cons := Cons b; batch_rt := r |}.

(** [b.Query] once per statement of [stmts], in order. *)
Definition Batch_Query_all (b : Batch) (stmts : list (string * list Value))
  : Batch :=
  foldl (fun b sa => Batch_Query b sa.1 sa.2) b stmts.

(** The cursor of a page lies within its rows, here and in every page
    already fetched behind it. *)
Fixpoint wf_Iter (it : Iter) : Prop :=
  match it with
  | mkIter _ p r _ n =>
      0 <= p <= len r /\ len r <= max_int
      /\ match n with
         | Some (mkNextIter _ _ _ (Some it')) => wf_Iter it'
         | _ => True
         end
  end.

Section QueryAPI.
Context {World Conn Heap : Type}.
Variable node : Node World Conn.
Variable Unmarshal : TypeInfo -> bytes -> Z -> Heap -> option error * Heap.

(** The record of calls once [Scan] has passed its prefetch trigger. *)
Definition after_prefetch (iter : Iter) (e : Env World Conn)
  : Env World Conn :=
  match Iter_next iter with
  | Some n => if Iter_pos iter =? nextIter_pos n then spawn_fetch n e else e
  | None => e
  end.

(** [k] callers of [n.fetch()], one after the other on the same handle;
    what each was handed, the handle and the record of calls at the end.  A
    call that does not return ends the run. *)
Fixpoint fetch_calls (fuel : nat) (k : nat) (n : nextIter)
         (e : Env World Conn)
  : list (option Iter) * option (nextIter * Env World Conn) :=
  match k with
  | O => ([], Some (n, e))
  | S k' =>
      match fetch node fuel n e with
      | Returned (r, n1) e1 =>
          let '(rs, st) := fetch_calls fuel k' n1 e1 in (r :: rs, st)
      | _ => ([], None)
      end
  end.

(** [func (q *Query) Iter() *Iter] *)
Definition Query_Iter (fuel : nat) (q : Query) (e : Env World Conn)
  : outcome (option Iter) (Env World Conn) :=
  executeQuery node fuel q e.

(** [func (q *Query) Scan(dest ...interface{}) error]; [iter.err] on a nil
    [iter] panics. *)
Definition Query_Scan (fuel : nat) (q : Query) (dest : list Dest)
           (e : Env World Conn) (h : Heap)
  : outcome (option error) (Env World Conn * Heap) :=
  match Query_Iter fuel q e with
  | Returned None e1 => Panicked (e1, h)
  | Returned (Some iter) e1 =>
      match Iter_err iter with
      | Some er => Returned (Some er) (e1, h)
      | None =>
          if len (Iter_rows iter) =? 0 then Returned (Some ErrNotFound) (e1, h)
          else
            match Scan node Unmarshal fuel iter dest e1 h with
            | Returned _ (iter', e2, h2) => Returned (Close iter') (e2, h2)
            | Panicked (_, e2, h2) => Panicked (e2, h2)
            | OutOfFuel (_, e2, h2) => OutOfFuel (e2, h2)
            end
      end
  | Panicked e1 => Panicked (e1, h)
  | OutOfFuel e1 => OutOfFuel (e1, h)
  end.

End QueryAPI.

End SessionAPI.

(** ** The rest of events.go: routing, schema events, the flusher, the
       connected callback *)

Module EventsAPI.
Import GoInt Events.

(** What [handleSchemaEvent] does to the schema cache, the control
    connection and the policy. *)
Inductive schema_effect : Type :=
| clearSchema (keyspace : string)
| awaitSchemaAgreement
| policy_KeyspaceChanged (Keyspace Change : string).

(** [func (s *Session) handleKeyspaceChange(keyspace, change string)] *)
Definition handleKeyspaceChange (keyspace change : string)
  : list schema_effect :=
  [awaitSchemaAgreement; policy_KeyspaceChanged keyspace change].

(** The body of the loop of [handleSchemaEvent], one frame. *)
Definition handleSchemaFrame (f : frame) : list schema_effect :=
  match f with
  | schemaChangeKeyspace keyspace change =>
      clearSchema keyspace :: handleKeyspaceChange keyspace change
  | schemaChangeTable keyspace => [clearSchema keyspace]
  | schemaChangeAggregate keyspace => [clearSchema keyspace]
  | schemaChangeFunction keyspace => [clearSchema keyspace]
  | schemaChangeType keyspace => [clearSchema keyspace]
  | _ => []
  end.

(** [func (s *Session) handleSchemaEvent(frames []frame)] *)
Definition handleSchemaEvent (frames : list frame) : list schema_effect :=
  concat (handleSchemaFrame <$> frames).

(** The keyspace a schema frame names. *)
Definition schema_keyspace (f : frame) : option string :=
  match f with
  | schemaChangeKeyspace keyspace _ | schemaChangeTable keyspace
  | schemaChangeAggregate keyspace | schemaChangeFunction keyspace
  | schemaChangeType keyspace => Some keyspace
  | _ => None
  end.

Definition keyspace_change (f : frame) : option (string * string) :=
  match f with
  | schemaChangeKeyspace keyspace change => Some (keyspace, change)
  | _ => None
  end.

(** The two debouncers of a session. *)
Record EventSinks : Type := {
  schemaEvents : eventDebouncer;
  nodeEvents : eventDebouncer
}.

(** [func (s *Session) handleEvent(framer *framer)], given what
    [framer.parseFrame()] returned. *)
Definition handleEvent (gocqlDebug : bool) (sinks : EventSinks)
           (parsed : frame + error) : EventSinks * list effect :=
  match parsed with
  | inr err =>
      (sinks,
       [logger_Printf "gocql: unable to parse event frame: %v\n"
                      [ArgString (Error_Error err)]])
  | inl f =>
      let dbg :=
        if gocqlDebug
        then [logger_Printf "gocql: handling frame: %v\n" [ArgFrame f]]
        else [] in
      match f with
      | schemaChangeKeyspace _ _ | schemaChangeFunction _
      | schemaChangeTable _ | schemaChangeAggregate _ | schemaChangeType _ =>
          let '(d, out) := debounce (schemaEvents sinks) f in
          ({| schemaEvents := d; nodeEvents := nodeEvents sinks |}, dbg ++ out)
      | topologyChangeEventFrame _ _ _ | statusChangeEventFrame _ _ _ =>
          let '(d, out) := debounce (nodeEvents sinks) f in
          ({| schemaEvents := schemaEvents sinks; nodeEvents := d |},
           dbg ++ out)
      | otherFrame _ =>
          (sinks,
           dbg ++ [logger_Printf "gocql: invalid event frame (%T): %v\n"
                                 [ArgFrame f; ArgFrame f]])
      end
  end.

(** [handleEvent] once per parsed frame of a stream, neither timer firing
    in between. *)
Fixpoint handleEvents (gocqlDebug : bool) (sinks : EventSinks)
         (stream : list (frame + error)) : EventSinks * list effect :=
  match stream with
  | [] => (sinks, [])
  | x :: stream' =>
      let '(sinks1, out1) := handleEvent gocqlDebug sinks x in
      let '(sinks2, out2) := handleEvents gocqlDebug sinks1 stream' in
      (sinks2, out1 ++ out2)
  end.

(** The frames of a stream that parsed and are schema frames, and those
    that are topology or status frames. *)
Definition schema_frames (stream : list (frame + error)) : list frame :=
  omap (fun x => match x with
                 | inl f =>
                     match schema_keyspace f with
                     | Some _ => Some f
                     | None => None
                     end
                 | inr _ => None
                 end) stream.

Definition node_frames (stream : list (frame + error)) : list frame :=
  omap (fun x => match x with
                 | inl (topologyChangeEventFrame c h p) =>
                     Some (topologyChangeEventFrame c h p)
                 | inl (statusChangeEventFrame c h p) =>
                     Some (statusChangeEventFrame c h p)
                 | _ => None
                 end) stream.

(** The keyspaces cleared and the keyspace changes reported by a list of
    schema effects, in order. *)
Definition cleared (out : list schema_effect) : list string :=
  omap (fun x => match x with clearSchema k => Some k | _ => None end) out.

Definition reported (out : list schema_effect) : list (string * string) :=
  omap (fun x => match x with
                 | policy_KeyspaceChanged k c => Some (k, c)
                 | _ => None
                 end) out.

(** What happens to one debouncer: a frame arrives, or its timer fires and
    the flusher runs. *)
Inductive debouncer_step : Type :=
| Arrive (f : frame)
| Fire.

Fixpoint run_debouncer (e : eventDebouncer) (steps : list debouncer_step)
  : eventDebouncer * list effect :=
  match steps with
  | [] => (e, [])
  | st :: steps' =>
      let '(e1, out1) :=
        match st with
        | Arrive f => debounce e f
        | Fire => timer_fired e
        end in
      let '(e2, out2) := run_debouncer e1 steps' in
      (e2, out1 ++ out2)
  end.

Definition arrivals (steps : list debouncer_step) : list frame :=
  omap (fun st => match st with Arrive f => Some f | Fire => None end) steps.

Definition is_status_frame (f : frame) : bool :=
  match f with statusChangeEventFrame _ _ _ => true | _ => false end.

Definition is_topology_frame (f : frame) : bool :=
  match f with topologyChangeEventFrame _ _ _ => true | _ => false end.

(** The session [s'] is [s] but for hosts whose state was set Down. *)
Definition only_set_down (s s' : Session) : Prop :=
  cfg s' = cfg s /\ ring s' = ring s
  /\ forall r, hosts s' r = hosts s r
               \/ hosts s' r = set_state NodeDown (hosts s r).

Section Connected.
Variable IP_String : IP -> string.
Variable gocqlDebug : bool.
(** [host.ConnectAddress()] and [host.Port()], read for the log lines. *)
Variable ConnectAddress : HostInfo -> IP.
Variable Port : HostInfo -> Z.

(** [func (s *Session) handleNodeConnected(host *HostInfo)]; the deferred
    log line reads the host when the function returns. *)
Definition handleNodeConnected (s : Session) (host : HostRef)
  : Session * list effect :=
  let pre :=
    [pool_Size;
     logger_Printf
       "dbg230a: gocql: Session.handleNodeConnected: %s:%d, pre pool size:%d\n"
       [ArgString (IP_String (ConnectAddress (hosts s host)));
        ArgInt (Port (hosts s host)); ArgPoolSize]]
    ++ debug_Printf gocqlDebug "gocql: Session.handleNodeConnected: %s:%d\n"
         [ArgString (IP_String (ConnectAddress (hosts s host)));
          ArgInt (Port (hosts s host))] in
  let s1 := setState host NodeUp s in
  let deferred :=
    [pool_Size;
     logger_Printf
       "dbg230a: gocql: Session.handleNodeConnected: %s:%d, post pool size:%d\n"
       [ArgString (IP_String (ConnectAddress (hosts s1 host)));
        ArgInt (Port (hosts s1 host)); ArgPoolSize]] in
  if negb (filterHost (cfg s1) (hosts s1 host))
  then (s1, pre ++ [policy_HostUp host] ++ deferred)
  else (s1, pre ++ deferred).

End Connected.

End EventsAPI.

(** ** More concrete networks and pages *)

Module MoreExamples.
Import GoInt Session SessionAPI Examples.

(** A pool that has a connection for the first [n] picks only; every
    execution fails.  The world counts the executions made. *)
Definition drained_node (n : nat) : Node nat unit :=
  {| Pick := fun w => (if (w <? n)%nat then Some tt else None, w);
     conn_executeQuery := fun _ _ w => (Iter_of_err ErrProtocol, S w);
     conn_executeBatch := fun _ _ w => (Some ErrProtocol, S w) |}.

(** A pool whose connections answer every query with the page [it]. *)
Definition page_node (it : Iter) : Node unit unit :=
  {| Pick := fun w => (Some tt, w);
     conn_executeQuery := fun _ _ w => (it, w);
     conn_executeBatch := fun _ _ w => (None, w) |}.

Definition one_row : list (list bytes) := [ [ [Byte.x01]; [Byte.x02] ] ].

Definition second_page : Iter := mkIter None 0 one_row toy_columns None.

Definition first_page : Iter :=
  mkIter None 0 one_row toy_columns
         (Some (mkNextIter (query_with_retries 0) 0 false None)).

End MoreExamples.

(** * Properties *)

(** ** Go integers *)

Section GoIntFacts.
Import GoInt.

Lemma wrap_in_range (z : Z) : in_range (wrap z).
Proof.
  unfold in_range, wrap, min_int, max_int, int_bits.
  pose proof (Z.mod_pos_bound (z + 2 ^ (64 - 1)) (2 ^ 64) ltac:(lia)). lia.
Qed.

Lemma wrap_id (z : Z) : in_range z -> wrap z = z.
Proof.
  unfold in_range, wrap, min_int, max_int, int_bits. intros Hz.
  rewrite Z.mod_small; lia.
Qed.

Lemma incr_below_max (z : Z) : min_int <= z < max_int -> incr z = z + 1.
Proof.
  intros Hz. apply wrap_id. unfold in_range. lia.
Qed.

Lemma incr_at_max : incr max_int = min_int.
Proof. reflexivity. Qed.

Lemma index_Some {A} (l : list A) (i : Z) (x : A) :
  index l i = Some x <-> 0 <= i /\ l !! Z.to_nat i = Some x.
Proof.
  unfold index, len. split.
  - destruct (0 <=? i) eqn:H0; [|discriminate].
    destruct (i <? Z.of_nat (length l)) eqn:H1; [|discriminate].
    simpl. intros H. split; [lia | exact H].
  - intros [H0 H]. pose proof (lookup_lt_Some _ _ _ H) as Hlt.
    rewrite (proj2 (Z.leb_le 0 i) H0).
    rewrite (proj2 (Z.ltb_lt i (Z.of_nat (length l)))) by lia.
    exact H.
Qed.

Lemma index_of_nat {A} (l : list A) (n : nat) :
  index l (Z.of_nat n) = l !! n.
Proof.
  unfold index, len.
  destruct (l !! n) as [x|] eqn:H.
  - pose proof (lookup_lt_Some _ _ _ H).
    rewrite (proj2 (Z.leb_le 0 (Z.of_nat n))) by lia.
    rewrite (proj2 (Z.ltb_lt (Z.of_nat n) (Z.of_nat (length l)))) by lia.
    simpl. rewrite Nat2Z.id. exact H.
  - pose proof (lookup_ge_None_1 _ _ H).
    rewrite (proj2 (Z.ltb_ge (Z.of_nat n) (Z.of_nat (length l)))) by lia.
    rewrite andb_false_r. reflexivity.
Qed.

End GoIntFacts.

(** ** Consistency names *)

Section ConsistencyFacts.
Import Consistency.

(** The index of a name is the value of its level, and nothing else is
    indexable. *)
Lemma String_defined (c : Consistency) :
  is_Some (String c) <-> 0 <= c <= LocalSerial.
Proof.
  unfold String. split.
  - intros [x Hx]. apply index_Some in Hx as [H0 Hx].
    apply lookup_lt_Some in Hx.
    change (length consinstencyNames) with 11%nat in Hx.
    change LocalSerial with 10. lia.
  - change LocalSerial with 10. intros Hc.
    assert (Hn : (Z.to_nat c < 11)%nat) by lia.
    destruct (lookup_lt_is_Some_2 consinstencyNames (Z.to_nat c) Hn)
      as [x Hx].
    exists x. apply index_Some. split; [lia | exact Hx].
Qed.

(** C4, as the code has it: for [Any] through [LocalSerial], in that
    order, [Consistency.String] returns any, one, two, three, quorum, all,
    localquorum, eachquorum, serial, localserial (no underscores), and the
    value 0 gives "default". *)
Theorem String_code_names :
  String <$> defined_levels = Some <$> code_names
  /\ String 0 = Some "default".
Proof. split; reflexivity. Qed.

(** C4 as the specification words it fails at [LocalQuorum]: the name is
    "localquorum", not "local_quorum". *)
Lemma String_LocalQuorum_not_spec_name :
  String LocalQuorum = Some "localquorum"
  /\ String <$> defined_levels <> Some <$> spec_names.
Proof. split; [reflexivity | discriminate]. Qed.

End ConsistencyFacts.

(** ** The debouncer *)

Section DebouncerFacts.
Import GoInt Events.

Lemma debounce_room (e : eventDebouncer) (f : frame) :
  (length (events e) < 1000)%nat ->
  debounce e f =
    ({| name := name e; timer_armed := true; events := events e ++ [f] |},
     [timer_Reset eventDebounceTime]).
Proof.
  intros H. unfold debounce, len, eventBufferSize.
  rewrite (proj2 (Z.ltb_lt _ _)) by lia. reflexivity.
Qed.

Lemma debounce_full (e : eventDebouncer) (f : frame) :
  (1000 <= length (events e))%nat ->
  debounce e f =
    ({| name := name e; timer_armed := true; events := events e |},
     [timer_Reset eventDebounceTime; drop_log (name e) f]).
Proof.
  intros H. unfold debounce, len, eventBufferSize.
  rewrite (proj2 (Z.ltb_ge _ _)) by lia. reflexivity.
Qed.

(** What a window of arrivals leaves in the buffer and in the log, from
    any buffer within the bound. *)
Lemma debounce_all_spec (fs : list frame) :
  forall e : eventDebouncer,
    (length (events e) <= 1000)%nat ->
    events (debounce_all e fs).1 = take 1000 (events e ++ fs)
    /\ name (debounce_all e fs).1 = name e
    /\ filter is_drop_log (debounce_all e fs).2
       = drop_log (name e) <$> drop (1000 - length (events e)) fs.
Proof.
  induction fs as [|f fs IH]; intros e He.
  - simpl. rewrite app_nil_r, take_ge by lia. rewrite drop_nil. done.
  - simpl. destruct (decide (length (events e) < 1000)%nat) as [Hlt|Hge].
    + rewrite (debounce_room e f Hlt).
      set (e1 := {| name := name e; timer_armed := true;
                    events := events e ++ [f] |}).
      assert (He1 : (length (events e1) <= 1000)%nat).
      { subst e1. simpl. rewrite length_app. simpl. lia. }
      destruct (IH e1 He1) as (IHev & IHnm & IHlog).
      destruct (debounce_all e1 fs) as [e2 out2]. simpl in *.
      rewrite IHev, IHnm, <- app_assoc. simpl.
      split; [reflexivity | split; [reflexivity |]].
      rewrite filter_cons_False by (simpl; tauto).
      rewrite IHlog, length_app. simpl.
      replace (1000 - length (events e))%nat
        with (S (1000 - (length (events e) + 1)))%nat by lia.
      reflexivity.
    + assert (Hfull : length (events e) = 1000%nat) by lia.
      rewrite (debounce_full e f) by lia.
      set (e1 := {| name := name e; timer_armed := true;
                    events := events e |}).
      destruct (IH e1 He) as (IHev & IHnm & IHlog).
      destruct (debounce_all e1 fs) as [e2 out2]. simpl in *.
      rewrite IHev, IHnm.
      split; [| split; [reflexivity |]].
      * rewrite !take_app_le by lia. reflexivity.
      * rewrite filter_cons_False by (simpl; tauto).
        rewrite filter_cons_True by (simpl; tauto).
        rewrite IHlog, Hfull.
        replace (1000 - 1000)%nat with 0%nat by lia. reflexivity.
Qed.

Lemma delivered_app (a b : list effect) :
  delivered (a ++ b) = delivered a ++ delivered b.
Proof. unfold delivered. apply omap_app. Qed.

(** [debounce] never calls the callback itself. *)
Lemma debounce_all_calls_nothing (fs : list frame) :
  forall e : eventDebouncer, delivered (debounce_all e fs).2 = [].
Proof.
  induction fs as [|f fs IH]; intros e; [reflexivity|].
  simpl. destruct (debounce e f) as [e1 o1] eqn:Hd.
  specialize (IH e1). destruct (debounce_all e1 fs) as [e2 o2].
  simpl in *. rewrite delivered_app, IH, app_nil_r.
  unfold debounce in Hd. destruct (_ <? _); inversion Hd; reflexivity.
Qed.

(** C6: in one quiet window the buffer of a debouncer holds the first
    1000 arrivals, in order, and never more; every later arrival leaves the
    buffer as it is and writes one log line; the flush that follows hands
    the callback those at most 1000 frames in one batch.  With 1001
    arrivals that is 1000 frames delivered and one drop logged. *)
Theorem debounce_window_capped (nm : string) (fs : list frame) :
  let e := (debounce_all (newEventDebouncer nm) fs).1 in
  let out := (debounce_all (newEventDebouncer nm) fs).2 in
  events e = take 1000 fs
  /\ (length (events e) = min 1000 (length fs))%nat
  /\ filter is_drop_log out = drop_log nm <$> drop 1000 fs
  /\ (length (filter is_drop_log out) = length fs - 1000)%nat
  /\ delivered out = []
  /\ delivered (flush e).2 = match fs with [] => [] | _ => [take 1000 fs] end
  /\ events (flush e).1 = [].
Proof.
  intros e out.
  destruct (debounce_all_spec fs (newEventDebouncer nm)) as (Hev & Hnm & Hlog).
  { simpl. lia. }
  fold e in Hev, Hnm. fold out in Hlog. simpl in Hev, Hlog.
  replace (1000 - 0)%nat with 1000%nat in Hlog by lia.
  split; [exact Hev |].
  split; [rewrite Hev, length_take; lia |].
  split; [exact Hlog |].
  split; [rewrite Hlog, length_fmap, length_drop; reflexivity |].
  split; [apply debounce_all_calls_nothing |].
  - unfold flush, len. rewrite Hev.
    destruct fs as [|f fs']; [done|].
    simpl. done.
Qed.

(** 1001 arrivals in one window: 1000 frames reach the callback, one
    drop is logged. *)
Example debounce_1001_arrivals :
  let run := debounce_all (newEventDebouncer "node")
               (replicate 1001 (topologyChangeEventFrame "NEW_NODE" [] 9042)) in
  length <$> delivered (flush run.1).2 = [1000%nat]
  /\ length (filter is_drop_log run.2) = 1%nat.
Proof. vm_compute. split; reflexivity. Qed.

End DebouncerFacts.

(** ** The retry dispatcher *)

Section DispatcherFacts.
Import GoInt Session.
Context {World Conn : Type} (node : Node World Conn).

Lemma n_picks_app (l1 l2 : list (call Conn)) :
  n_picks (l1 ++ l2) = (n_picks l1 + n_picks l2)%nat.
Proof. unfold n_picks. rewrite filter_app, length_app. reflexivity. Qed.

Lemma n_executions_app (l1 l2 : list (call Conn)) :
  n_executions (l1 ++ l2) = (n_executions l1 + n_executions l2)%nat.
Proof. unfold n_executions. rewrite filter_app, length_app. reflexivity. Qed.

Lemma made_attempts_S (e e1 e2 : Env World Conn) (n : nat) (w1 w : World) :
  made_attempts e e1 1 w1 ->
  made_attempts e1 e2 n w ->
  made_attempts e e2 (S n) w.
Proof.
  unfold made_attempts. intros (_ & Hp1 & Hx1) (Hw & Hp2 & Hx2).
  split; [exact Hw | split; lia].
Qed.

Local Ltac count_calls :=
  unfold made_attempts; simpl;
  rewrite !n_picks_app, !n_executions_app;
  split; [reflexivity | split; unfold n_picks, n_executions; simpl; lia].

(** One turn of the query loop whose execution fails. *)
Lemma executeQuery_loop_fails (fuel : nat) (q : Query) (itr : option Iter)
      (count : Z) (e : Env World Conn) :
  count <= NumRetries (rt q) ->
  query_kind node q (world e) 0 = Fails ->
  exists it e2,
    executeQuery_loop node (S fuel) q itr count e
    = executeQuery_loop node fuel q (Some it) (incr count) e2
    /\ query_result node q (world e) 0 = Some it
    /\ Iter_err it <> None
    /\ made_attempts e e2 1 (snd (query_attempt node q (world e))).
Proof.
  intros Hc Hk. unfold query_kind, query_result in *. simpl in *.
  rewrite (proj2 (Z.leb_le _ _) Hc).
  unfold query_attempt, do_Pick, do_executeQuery in *.
  destruct (Pick node (world e)) as [[c|] w1]; simpl in *; [|discriminate].
  destruct (conn_executeQuery node c q w1) as [it w2]; simpl in *.
  destruct (Iter_err it) as [er|] eqn:Her; [|discriminate].
  eexists it, _. split; [reflexivity|].
  split; [reflexivity|]. split; [congruence|]. count_calls.
Qed.

(** One turn of the query loop whose execution succeeds. *)
Lemma executeQuery_loop_succeeds (fuel : nat) (q : Query)
      (itr : option Iter) (count : Z) (e : Env World Conn) :
  count <= NumRetries (rt q) ->
  query_kind node q (world e) 0 = Succeeds ->
  exists it e2,
    executeQuery_loop node (S fuel) q itr count e = Returned (Some it) e2
    /\ query_result node q (world e) 0 = Some it
    /\ Iter_err it = None
    /\ made_attempts e e2 1 (snd (query_attempt node q (world e))).
Proof.
  intros Hc Hk. unfold query_kind, query_result in *. simpl in *.
  rewrite (proj2 (Z.leb_le _ _) Hc).
  unfold query_attempt, do_Pick, do_executeQuery in *.
  destruct (Pick node (world e)) as [[c|] w1]; simpl in *; [|discriminate].
  destruct (conn_executeQuery node c q w1) as [it w2]; simpl in *.
  destruct (Iter_err it) as [er|] eqn:Her; [discriminate|].
  eexists it, _. rewrite Her. split; [reflexivity|].
  split; [reflexivity|]. split; [reflexivity|]. count_calls.
Qed.

(** The query loop: [j] failures and then a success. *)
Lemma executeQuery_loop_success_after (q : Query) (j : nat) :
  forall (fuel : nat) (itr : option Iter) (count : Z) (e : Env World Conn),
    min_int <= count ->
    count + Z.of_nat j <= NumRetries (rt q) ->
    NumRetries (rt q) <= max_int ->
    (forall i, (i < j)%nat -> query_kind node q (world e) i = Fails) ->
    query_kind node q (world e) j = Succeeds ->
    (j < fuel)%nat ->
    exists it e',
      executeQuery_loop node fuel q itr count e = Returned (Some it) e'
      /\ query_result node q (world e) j = Some it
      /\ Iter_err it = None
      /\ made_attempts e e' (S j)
           (world_after (query_attempt node q) (S j) (world e)).
Proof.
  induction j as [|j IH]; intros fuel itr count e Hmin Hc Hmax Hf Hs Hfuel;
    (destruct fuel as [|fuel]; [lia|]).
  - destruct (executeQuery_loop_succeeds fuel q itr count e)
      as (it & e2 & Hrun & Hres & Herr & Hm); [lia | exact Hs |].
    exists it, e2. auto.
  - destruct (executeQuery_loop_fails fuel q itr count e)
      as (it1 & e1 & Hrun & _ & _ & Hm1); [lia | apply Hf; lia |].
    pose proof Hm1 as (Hw1 & _).
    rewrite incr_below_max in Hrun by lia.
    destruct (IH fuel (Some it1) (count + 1) e1)
      as (it & e' & Hrun' & Hres & Herr & Hm); try lia.
    + intros i Hi. rewrite Hw1. apply (Hf (S i)). lia.
    + rewrite Hw1. exact Hs.
    + exists it, e'. rewrite Hrun, Hrun'. split; [reflexivity|].
      split; [| split; [exact Herr |]].
      * rewrite Hw1 in Hres. exact Hres.
      * rewrite Hw1 in Hm. exact (made_attempts_S _ _ _ _ _ _ Hm1 Hm).
Qed.

(** The query loop: [n] failures use up the retries. *)
Lemma executeQuery_loop_exhausted (q : Query) (n : nat) :
  forall (fuel : nat) (itr : option Iter) (count : Z) (e : Env World Conn),
    min_int <= count ->
    count + Z.of_nat n = NumRetries (rt q) + 1 ->
    NumRetries (rt q) < max_int ->
    (forall i, (i < n)%nat -> query_kind node q (world e) i = Fails) ->
    (n <= fuel)%nat ->
    exists e',
      executeQuery_loop node fuel q itr count e
      = Returned (match n with
                  | O => itr
                  | S i => query_result node q (world e) i
                  end) e'
      /\ made_attempts e e' n (world_after (query_attempt node q) n (world e)).
Proof.
  induction n as [|n IH]; intros fuel itr count e Hmin Hc Hmax Hf Hfuel.
  - exists e. split.
    + destruct fuel; simpl; rewrite (proj2 (Z.leb_gt _ _)) by lia;
        reflexivity.
    + unfold made_attempts. simpl. split; [reflexivity | split; lia].
  - destruct fuel as [|fuel]; [lia|].
    destruct (executeQuery_loop_fails fuel q itr count e)
      as (it1 & e1 & Hrun & Hres1 & _ & Hm1); [lia | apply Hf; lia |].
    pose proof Hm1 as (Hw1 & _).
    rewrite incr_below_max in Hrun by lia.
    destruct (IH fuel (Some it1) (count + 1) e1) as (e' & Hrun' & Hm);
      try lia.
    + intros i Hi. rewrite Hw1. apply (Hf (S i)). lia.
    + exists e'. rewrite Hrun, Hrun'. split.
      * destruct n as [|i]; [rewrite Hres1; reflexivity |].
        rewrite Hw1. reflexivity.
      * rewrite Hw1 in Hm. exact (made_attempts_S _ _ _ _ _ _ Hm1 Hm).
Qed.

(** The same three facts for the batch loop. *)
Lemma ExecuteBatch_loop_fails (fuel : nat) (b : Batch) (err : option error)
      (count : Z) (e : Env World Conn) :
  count <= NumRetries (batch_rt b) ->
  batch_kind node b (world e) 0 = Fails ->
  exists er e2,
    ExecuteBatch_loop node (S fuel) b err count e
    = ExecuteBatch_loop node fuel b (Some er) (incr count) e2
    /\ batch_result node b (world e) 0 = Some (Some er)
    /\ made_attempts e e2 1 (snd (batch_attempt node b (world e))).
Proof.
  intros Hc Hk. unfold batch_kind, batch_result in *. simpl in *.
  rewrite (proj2 (Z.leb_le _ _) Hc).
  unfold batch_attempt, do_Pick, do_executeBatch in *.
  destruct (Pick node (world e)) as [[c|] w1]; simpl in *; [|discriminate].
  destruct (conn_executeBatch node c b w1) as [[er|] w2]; simpl in *;
    [|discriminate].
  eexists er, _. split; [reflexivity|]. split; [reflexivity|]. count_calls.
Qed.

Lemma ExecuteBatch_loop_succeeds (fuel : nat) (b : Batch)
      (err : option error) (count : Z) (e : Env World Conn) :
  count <= NumRetries (batch_rt b) ->
  batch_kind node b (world e) 0 = Succeeds ->
  exists e2,
    ExecuteBatch_loop node (S fuel) b err count e = Returned None e2
    /\ batch_result node b (world e) 0 = Some None
    /\ made_attempts e e2 1 (snd (batch_attempt node b (world e))).
Proof.
  intros Hc Hk. unfold batch_kind, batch_result in *. simpl in *.
  rewrite (proj2 (Z.leb_le _ _) Hc).
  unfold batch_attempt, do_Pick, do_executeBatch in *.
  destruct (Pick node (world e)) as [[c|] w1]; simpl in *; [|discriminate].
  destruct (conn_executeBatch node c b w1) as [[er|] w2]; simpl in *;
    [discriminate|].
  eexists. split; [reflexivity|]. split; [reflexivity|]. count_calls.
Qed.

Lemma ExecuteBatch_loop_success_after (b : Batch) (j : nat) :
  forall (fuel : nat) (err : option error) (count : Z) (e : Env World Conn),
    min_int <= count ->
    count + Z.of_nat j <= NumRetries (batch_rt b) ->
    NumRetries (batch_rt b) <= max_int ->
    (forall i, (i < j)%nat -> batch_kind node b (world e) i = Fails) ->
    batch_kind node b (world e) j = Succeeds ->
    (j < fuel)%nat ->
    exists e',
      ExecuteBatch_loop node fuel b err count e = Returned None e'
      /\ batch_result node b (world e) j = Some None
      /\ made_attempts e e' (S j)
           (world_after (batch_attempt node b) (S j) (world e)).
Proof.
  induction j as [|j IH]; intros fuel err count e Hmin Hc Hmax Hf Hs Hfuel;
    (destruct fuel as [|fuel]; [lia|]).
  - destruct (ExecuteBatch_loop_succeeds fuel b err count e)
      as (e2 & Hrun & Hres & Hm); [lia | exact Hs |].
    exists e2. auto.
  - destruct (ExecuteBatch_loop_fails fuel b err count e)
      as (er1 & e1 & Hrun & _ & Hm1); [lia | apply Hf; lia |].
    pose proof Hm1 as (Hw1 & _).
    rewrite incr_below_max in Hrun by lia.
    destruct (IH fuel (Some er1) (count + 1) e1)
      as (e' & Hrun' & Hres & Hm); try lia.
    + intros i Hi. rewrite Hw1. apply (Hf (S i)). lia.
    + rewrite Hw1. exact Hs.
    + exists e'. rewrite Hrun, Hrun'. split; [reflexivity|]. split.
      * rewrite Hw1 in Hres. exact Hres.
      * rewrite Hw1 in Hm. exact (made_attempts_S _ _ _ _ _ _ Hm1 Hm).
Qed.

Lemma ExecuteBatch_loop_exhausted (b : Batch) (n : nat) :
  forall (fuel : nat) (err : option error) (count : Z) (e : Env World Conn),
    min_int <= count ->
    count + Z.of_nat n = NumRetries (batch_rt b) + 1 ->
    NumRetries (batch_rt b) < max_int ->
    (forall i, (i < n)%nat -> batch_kind node b (world e) i = Fails) ->
    (n <= fuel)%nat ->
    exists r e',
      ExecuteBatch_loop node fuel b err count e = Returned r e'
      /\ match n with
         | O => r = err
         | S i => batch_result node b (world e) i = Some r
         end
      /\ made_attempts e e' n (world_after (batch_attempt node b) n (world e)).
Proof.
  induction n as [|n IH]; intros fuel err count e Hmin Hc Hmax Hf Hfuel.
  - exists err, e. split; [| split; [reflexivity |]].
    + destruct fuel; simpl; rewrite (proj2 (Z.leb_gt _ _)) by lia;
        reflexivity.
    + unfold made_attempts. simpl. split; [reflexivity | split; lia].
  - destruct fuel as [|fuel]; [lia|].
    destruct (ExecuteBatch_loop_fails fuel b err count e)
      as (er1 & e1 & Hrun & Hres1 & Hm1); [lia | apply Hf; lia |].
    pose proof Hm1 as (Hw1 & _).
    rewrite incr_below_max in Hrun by lia.
    destruct (IH fuel (Some er1) (count + 1) e1) as (r & e' & Hrun' & Hr & Hm);
      try lia.
    + intros i Hi. rewrite Hw1. apply (Hf (S i)). lia.
    + exists r, e'. rewrite Hrun, Hrun'. split; [reflexivity|]. split.
      * destruct n as [|i]; [subst r; exact Hres1 |].
        rewrite Hw1 in Hr. exact Hr.
      * rewrite Hw1 in Hm. exact (made_attempts_S _ _ _ _ _ _ Hm1 Hm).
Qed.

(** The size check of [ExecuteBatch]. *)
Lemma ExecuteBatch_small (fuel : nat) (b : Batch) (e : Env World Conn) :
  len (Entries b) <= 65536 ->
  ExecuteBatch node fuel b e = ExecuteBatch_loop node fuel b None 0 e.
Proof.
  intros H. unfold ExecuteBatch.
  rewrite Z.gtb_ltb, (proj2 (Z.ltb_ge _ _)) by lia.
  reflexivity.
Qed.

Lemma ExecuteBatch_large (fuel : nat) (b : Batch) (e : Env World Conn) :
  len (Entries b) > 65536 ->
  ExecuteBatch node fuel b e = Returned (Some ErrTooManyStmts) e.
Proof.
  intros H. unfold ExecuteBatch.
  rewrite Z.gtb_ltb, (proj2 (Z.ltb_lt _ _)) by lia.
  reflexivity.
Qed.

(** C1, within the bounds of the code: a batch of at most 65536 entries,
    and for the always-failing case a retry count [N] below the largest
    [int], so that the counter can pass [N].  With connections that fail on
    each of the [N+1] attempts, [executeQuery] and [ExecuteBatch] make
    exactly [N+1] picks and [N+1] executions and return what the last
    execution returned, an error.  With [k-1] failures followed by a
    success, [k <= N+1], they make exactly [k] picks and executions and
    return that success. *)
Theorem dispatcher_attempts (q : Query) (b : Batch) (e : Env World Conn)
        (fuel k : nat) :
  (0 <= NumRetries (rt q) < max_int ->
   (forall i, Z.of_nat i <= NumRetries (rt q) ->
              query_kind node q (world e) i = Fails) ->
   (Z.to_nat (NumRetries (rt q)) < fuel)%nat ->
   exists it e',
     executeQuery node fuel q e = Returned (Some it) e'
     /\ query_result node q (world e) (Z.to_nat (NumRetries (rt q)))
        = Some it
     /\ Iter_err it <> None
     /\ n_picks (calls e')
        = (n_picks (calls e) + Z.to_nat (NumRetries (rt q) + 1))%nat
     /\ n_executions (calls e')
        = (n_executions (calls e) + Z.to_nat (NumRetries (rt q) + 1))%nat)
  /\ (0 <= NumRetries (rt q) <= max_int ->
      (1 <= k)%nat -> Z.of_nat k <= NumRetries (rt q) + 1 ->
      (forall i, (S i < k)%nat -> query_kind node q (world e) i = Fails) ->
      query_kind node q (world e) (k - 1) = Succeeds ->
      (k <= fuel)%nat ->
      exists it e',
        executeQuery node fuel q e = Returned (Some it) e'
        /\ query_result node q (world e) (k - 1) = Some it
        /\ Iter_err it = None
        /\ n_picks (calls e') = (n_picks (calls e) + k)%nat
        /\ n_executions (calls e') = (n_executions (calls e) + k)%nat)
  /\ (len (Entries b) <= 65536 ->
      0 <= NumRetries (batch_rt b) < max_int ->
      (forall i, Z.of_nat i <= NumRetries (batch_rt b) ->
                 batch_kind node b (world e) i = Fails) ->
      (Z.to_nat (NumRetries (batch_rt b)) < fuel)%nat ->
      exists er e',
        ExecuteBatch node fuel b e = Returned (Some er) e'
        /\ batch_result node b (world e) (Z.to_nat (NumRetries (batch_rt b)))
           = Some (Some er)
        /\ n_picks (calls e')
           = (n_picks (calls e) + Z.to_nat (NumRetries (batch_rt b) + 1))%nat
        /\ n_executions (calls e')
           = (n_executions (calls e)
              + Z.to_nat (NumRetries (batch_rt b) + 1))%nat)
  /\ (len (Entries b) <= 65536 ->
      0 <= NumRetries (batch_rt b) <= max_int ->
      (1 <= k)%nat -> Z.of_nat k <= NumRetries (batch_rt b) + 1 ->
      (forall i, (S i < k)%nat -> batch_kind node b (world e) i = Fails) ->
      batch_kind node b (world e) (k - 1) = Succeeds ->
      (k <= fuel)%nat ->
      exists e',
        ExecuteBatch node fuel b e = Returned None e'
        /\ batch_result node b (world e) (k - 1) = Some None
        /\ n_picks (calls e') = (n_picks (calls e) + k)%nat
        /\ n_executions (calls e') = (n_executions (calls e) + k)%nat).
Proof.
  assert (Hmin : min_int <= 0) by (vm_compute; discriminate).
  split; [| split; [| split]].
  - intros HN Hf Hfuel.
    destruct (executeQuery_loop_exhausted q
                (Z.to_nat (NumRetries (rt q) + 1)) fuel None 0 e)
      as (e' & Hrun & _ & Hp & Hx); try lia.
    { intros i Hi. apply Hf. lia. }
    replace (Z.to_nat (NumRetries (rt q) + 1))
      with (S (Z.to_nat (NumRetries (rt q)))) in Hrun by lia.
    specialize (Hf (Z.to_nat (NumRetries (rt q))) ltac:(lia)).
    unfold query_kind in Hf. unfold query_result in *.
    destruct (fst _) as [it|] eqn:Hit in Hf; [|discriminate].
    rewrite Hit in Hrun. exists it, e'.
    split; [exact Hrun|]. split; [exact Hit|].
    split; [destruct (Iter_err it); [discriminate | discriminate] |].
    split; assumption.
  - intros HN Hk1 HkN Hf Hs Hfuel.
    destruct (executeQuery_loop_success_after q (k - 1) fuel None 0 e)
      as (it & e' & Hrun & Hres & Herr & _ & Hp & Hx); try lia; auto.
    { intros i Hi. apply Hf. lia. }
    exists it, e'. replace (S (k - 1)) with k in * by lia. auto.
  - intros Hlen HN Hf Hfuel. rewrite ExecuteBatch_small by exact Hlen.
    destruct (ExecuteBatch_loop_exhausted b
                (Z.to_nat (NumRetries (batch_rt b) + 1)) fuel None 0 e)
      as (r & e' & Hrun & Hr & _ & Hp & Hx); try lia.
    { intros i Hi. apply Hf. lia. }
    replace (Z.to_nat (NumRetries (batch_rt b) + 1))
      with (S (Z.to_nat (NumRetries (batch_rt b)))) in Hr by lia.
    specialize (Hf (Z.to_nat (NumRetries (batch_rt b))) ltac:(lia)).
    unfold batch_kind in Hf. unfold batch_result in *.
    rewrite Hr in Hf. destruct r as [er|]; [|discriminate].
    exists er, e'. auto.
  - intros Hlen HN Hk1 HkN Hf Hs Hfuel.
    rewrite ExecuteBatch_small by exact Hlen.
    destruct (ExecuteBatch_loop_success_after b (k - 1) fuel None 0 e)
      as (e' & Hrun & Hres & _ & Hp & Hx); try lia; auto.
    { intros i Hi. apply Hf. lia. }
    exists e'. replace (S (k - 1)) with k in * by lia. auto.
Qed.

(** The batch loop only ever adds to the record of calls. *)
Lemma ExecuteBatch_loop_picks_mono (b : Batch) (fuel : nat) :
  forall (err : option error) (count : Z) (e : Env World Conn),
    (n_picks (calls e)
     <= n_picks (calls (state_of (ExecuteBatch_loop node fuel b err count e))))%nat.
Proof.
  induction fuel as [|fuel IH]; intros err count e; simpl;
    destruct (count <=? _); simpl; try lia.
  unfold do_Pick, do_executeBatch.
  destruct (Pick node (world e)) as [[c|] w1]; simpl.
  - destruct (conn_executeBatch node c b w1) as [[er|] w2]; simpl.
    + etransitivity; [| apply IH]. simpl. rewrite !n_picks_app. lia.
    + simpl. rewrite !n_picks_app. lia.
  - simpl. rewrite !n_picks_app. lia.
Qed.

(** C2: a batch of more than 65536 entries is turned down with
    [ErrTooManyStmts] before anything is asked of the pool: no pick, no
    execution, the network untouched.  A batch of at most 65536 entries
    passes the check: [ExecuteBatch] goes on to the retry loop, which with a
    non-negative retry count starts by picking a connection. *)
Theorem ExecuteBatch_size_cap (b : Batch) (e : Env World Conn) (fuel : nat) :
  (len (Entries b) > 65536 ->
   ExecuteBatch node fuel b e = Returned (Some ErrTooManyStmts) e)
  /\ (len (Entries b) <= 65536 ->
      ExecuteBatch node fuel b e = ExecuteBatch_loop node fuel b None 0 e
      /\ (0 <= NumRetries (batch_rt b) ->
          (n_picks (calls e)
           < n_picks (calls (state_of (ExecuteBatch node (S fuel) b e))))%nat)).
Proof.
  split; [apply ExecuteBatch_large |].
  intros Hlen. split; [apply ExecuteBatch_small; exact Hlen |].
  intros HN. rewrite ExecuteBatch_small by exact Hlen.
  simpl. rewrite (proj2 (Z.leb_le _ _)) by lia.
  unfold do_Pick, do_executeBatch.
  destruct (Pick node (world e)) as [[c|] w1]; simpl.
  - destruct (conn_executeBatch node c b w1) as [[er|] w2]; simpl.
    + eapply Nat.lt_le_trans; [| apply ExecuteBatch_loop_picks_mono].
      simpl. rewrite !n_picks_app. unfold n_picks. simpl. lia.
    + simpl. rewrite !n_picks_app. unfold n_picks. simpl. lia.
  - simpl. rewrite !n_picks_app. unfold n_picks. simpl. lia.
Qed.

End DispatcherFacts.

(** ** The dispatcher on concrete networks *)

Section DispatcherExamples.
Import GoInt Session Examples.

Lemma failing_node_query_kind (q : Query) (i : nat) (w : unit) :
  query_kind failing_node q w i = Fails.
Proof.
  revert w. induction i as [|i IH]; intros w; [reflexivity |].
  exact (IH (snd (query_attempt failing_node q w))).
Qed.

Lemma failing_node_batch_kind (b : Batch) (i : nat) (w : unit) :
  batch_kind failing_node b w i = Fails.
Proof.
  revert w. induction i as [|i IH]; intros w; [reflexivity |].
  exact (IH (snd (batch_attempt failing_node b w))).
Qed.

(** With the largest retry count the counter wraps to the smallest [int]
    instead of passing the bound: the loop is still running after any
    number of executions. *)
Lemma executeQuery_loop_max_int_runs_on (fuel : nat) :
  forall (itr : option Iter) (count : Z) (e : Env unit unit),
    in_range count ->
    exists e',
      executeQuery_loop failing_node fuel (query_with_retries max_int)
                        itr count e = OutOfFuel e'
      /\ n_executions (calls e') = (n_executions (calls e) + fuel)%nat.
Proof.
  induction fuel as [|fuel IH]; intros itr count e Hc.
  - exists e. simpl. rewrite (proj2 (Z.leb_le _ _)) by apply Hc.
    split; [reflexivity | lia].
  - cbn [executeQuery_loop]. cbn [rt query_with_retries NumRetries].
    rewrite (proj2 (Z.leb_le _ _)) by apply Hc.
    unfold do_Pick, do_executeQuery. cbn [Pick conn_executeQuery failing_node world calls].
    cbn [Iter_err Iter_of_err].
    edestruct IH as (e' & Hrun & Hn); [apply wrap_in_range |].
    exists e'. split; [exact Hrun |].
    rewrite Hn. cbn [calls]. rewrite !n_executions_app.
    unfold n_executions. simpl. lia.
Qed.

(** C1 as stated has two inputs on which it fails.  A query with retry
    count [max_int] on connections that always fail: whatever the number of
    turns granted, the dispatcher has made that many executions and has not
    returned, so it does not stop at [N+1].  And a batch of 65537 entries
    with retry count 0: no execution is made and the error is
    [ErrTooManyStmts], not that of an attempt. *)
Lemma dispatcher_attempts_counterexample :
  0 <= NumRetries (rt (query_with_retries max_int))
  /\ (forall i, query_kind failing_node (query_with_retries max_int) tt i
                = Fails)
  /\ (forall fuel, exists e',
         executeQuery failing_node fuel (query_with_retries max_int)
                      (start tt) = OutOfFuel e'
         /\ n_executions (calls e') = fuel)
  /\ (forall fuel r e',
         executeQuery failing_node fuel (query_with_retries max_int) (start tt)
         <> Returned r e')
  /\ 0 <= NumRetries (batch_rt (batch_of 65537 0))
  /\ (forall i, batch_kind failing_node (batch_of 65537 0) tt i = Fails)
  /\ (forall fuel,
         ExecuteBatch failing_node fuel (batch_of 65537 0) (start tt)
         = Returned (Some ErrTooManyStmts) (start tt)
         /\ n_executions (calls (start (Conn := unit) tt)) = 0%nat).
Proof.
  split; [vm_compute; discriminate |].
  split; [intros i; apply failing_node_query_kind |].
  assert (Hrange : in_range 0) by (split; vm_compute; discriminate).
  split.
  { intros fuel.
    destruct (executeQuery_loop_max_int_runs_on fuel None 0 (start tt) Hrange)
      as (e' & Hrun & Hn).
    exists e'. split; [exact Hrun | exact Hn]. }
  split.
  { intros fuel r e'.
    destruct (executeQuery_loop_max_int_runs_on fuel None 0 (start tt) Hrange)
      as (e'' & Hrun & _).
    unfold executeQuery. rewrite Hrun. discriminate. }
  split; [simpl; lia |].
  split; [intros i; apply failing_node_batch_kind |].
  intros fuel. split; [| reflexivity].
  apply ExecuteBatch_large. vm_compute. reflexivity.
Qed.

(** [dispatcher_attempts] on runs of three attempts: retry count 2, on
    connections that always fail and on connections that fail once. *)
Lemma dispatcher_attempts_witness :
  (exists it e',
      executeQuery failing_node 3 (query_with_retries 2) (start tt)
      = Returned (Some it) e'
      /\ Iter_err it <> None
      /\ n_picks (calls e') = 3%nat /\ n_executions (calls e') = 3%nat)
  /\ (exists it e',
         executeQuery (flaky_node 1) 3 (query_with_retries 2) (start 0%nat)
         = Returned (Some it) e'
         /\ Iter_err it = None
         /\ n_picks (calls e') = 2%nat /\ n_executions (calls e') = 2%nat)
  /\ (exists er e',
         ExecuteBatch failing_node 3 (batch_of 4 2) (start tt)
         = Returned (Some er) e'
         /\ n_picks (calls e') = 3%nat /\ n_executions (calls e') = 3%nat)
  /\ (exists e',
         ExecuteBatch (flaky_node 1) 3 (batch_of 4 2) (start 0%nat)
         = Returned None e'
         /\ n_picks (calls e') = 2%nat /\ n_executions (calls e') = 2%nat).
Proof.
  assert (Hmax : 2 < max_int) by reflexivity.
  assert (Hlen : len (Entries (batch_of 4 2)) <= 65536)
    by (vm_compute; discriminate).
  destruct (dispatcher_attempts failing_node (query_with_retries 2)
              (batch_of 4 2) (start tt) 3 2) as (HQ & _ & HB & _).
  destruct (dispatcher_attempts (flaky_node 1) (query_with_retries 2)
              (batch_of 4 2) (start 0%nat) 3 2) as (_ & HQ' & _ & HB').
  split; [| split; [| split]].
  - destruct HQ as (it & e' & Hrun & _ & Herr & Hp & Hx).
    + simpl. lia.
    + intros i _. apply failing_node_query_kind.
    + simpl. lia.
    + exists it, e'. auto.
  - destruct HQ' as (it & e' & Hrun & _ & Herr & Hp & Hx).
    + simpl. lia.
    + lia.
    + simpl. lia.
    + intros i Hi. destruct i as [|i]; [reflexivity | lia].
    + reflexivity.
    + lia.
    + exists it, e'. auto.
  - destruct HB as (er & e' & Hrun & _ & Hp & Hx).
    + exact Hlen.
    + simpl. lia.
    + intros i _. apply failing_node_batch_kind.
    + simpl. lia.
    + exists er, e'. auto.
  - destruct HB' as (e' & Hrun & _ & Hp & Hx).
    + exact Hlen.
    + simpl. lia.
    + lia.
    + simpl. lia.
    + intros i Hi. destruct i as [|i]; [reflexivity | lia].
    + reflexivity.
    + lia.
    + exists e'. auto.
Defined.

(** [ExecuteBatch_size_cap] on batches of 65537 and of 65536 entries. *)
Lemma ExecuteBatch_size_cap_witness :
  ExecuteBatch failing_node 1 (batch_of 65537 0) (start tt)
  = Returned (Some ErrTooManyStmts) (start tt)
  /\ ExecuteBatch failing_node 1 (batch_of 65536 0) (start tt)
     = ExecuteBatch_loop failing_node 1 (batch_of 65536 0) None 0 (start tt)
  /\ (0 < n_picks (calls (state_of (ExecuteBatch failing_node 2
                                      (batch_of 65536 0) (start tt)))))%nat.
Proof.
  split; [| split].
  - apply (ExecuteBatch_size_cap failing_node (batch_of 65537 0)
             (start tt) 1).
    vm_compute. reflexivity.
  - apply (ExecuteBatch_size_cap failing_node (batch_of 65536 0)
             (start tt) 1).
    vm_compute. discriminate.
  - apply (ExecuteBatch_size_cap failing_node (batch_of 65536 0)
             (start tt) 1).
    + vm_compute. discriminate.
    + simpl. lia.
Defined.

End DispatcherExamples.

(** ** The paging iterator *)

Section IterFacts.
Import GoInt Session.
Context {World Conn Heap : Type} (node : Node World Conn).
Variable Unmarshal : TypeInfo -> bytes -> Z -> Heap -> option error * Heap.

Lemma incr_of_nat (k : nat) :
  Z.of_nat k < max_int -> incr (Z.of_nat k) = Z.of_nat (S k).
Proof.
  intros Hk. rewrite incr_below_max; [lia |].
  assert (min_int <= 0) by (vm_compute; discriminate). lia.
Qed.

(** The column loop on a row all of whose remaining columns decode. *)
Lemma Scan_columns_decodes (iter : Iter) (row : list bytes)
      (dest : list Dest) (n : nat) :
  forall (k : nat) (h : Heap),
    len (Iter_columns iter) <= max_int ->
    index (Iter_rows iter) (Iter_pos iter) = Some row ->
    (k + n = length (Iter_columns iter))%nat ->
    (forall c, (k <= c < length (Iter_columns iter))%nat ->
               column_decodes Unmarshal (Iter_columns iter) row dest c) ->
    exists h', Scan_columns Unmarshal n (Z.of_nat k) iter dest h
               = Returned None h'.
Proof.
  induction n as [|n IH]; intros k h Hmax Hrow Hn Hcols.
  - exists h. simpl. unfold len. rewrite (proj2 (Z.ltb_ge _ _)) by lia.
    reflexivity.
  - simpl. unfold len in *. rewrite (proj2 (Z.ltb_lt _ _)) by lia.
    specialize (Hcols k ltac:(lia)) as Hk. unfold column_decodes in Hk.
    rewrite index_of_nat, incr_of_nat by lia.
    destruct (dest !! k) as [[p|]|]; [| | contradiction].
    + destruct Hk as (col & cell & Hcol & Hcell & Hok).
      rewrite index_of_nat, Hcol, Hrow, index_of_nat, Hcell.
      specialize (Hok h).
      destruct (Unmarshal (ColTypeInfo col) cell p h) as [r h1].
      simpl in Hok. subst r.
      apply IH; try assumption; [lia |]. intros c Hc. apply Hcols. lia.
    + apply IH; try assumption; [lia |]. intros c Hc. apply Hcols. lia.
Qed.

(** The column loop on a row whose column [c0] is the first to fail. *)
Lemma Scan_columns_fails (iter : Iter) (row : list bytes)
      (dest : list Dest) (c0 : nat) (er : error) (n : nat) :
  forall (k : nat) (h : Heap),
    len (Iter_columns iter) <= max_int ->
    index (Iter_rows iter) (Iter_pos iter) = Some row ->
    (k + n = length (Iter_columns iter))%nat ->
    (k <= c0 < length (Iter_columns iter))%nat ->
    column_fails Unmarshal (Iter_columns iter) row dest c0 er ->
    (forall c, (k <= c < c0)%nat ->
               column_decodes Unmarshal (Iter_columns iter) row dest c) ->
    exists h', Scan_columns Unmarshal n (Z.of_nat k) iter dest h
               = Returned (Some er) h'.
Proof.
  induction n as [|n IH]; intros k h Hmax Hrow Hn Hc0 Hfail Hcols; [lia|].
  simpl. unfold len in *. rewrite (proj2 (Z.ltb_lt _ _)) by lia.
  rewrite index_of_nat, incr_of_nat by lia.
  destruct (decide (k = c0)) as [->|Hne].
  - destruct Hfail as (p & col & cell & Hd & Hcol & Hcell & Hbad).
    rewrite Hd, index_of_nat, Hcol, Hrow, index_of_nat, Hcell.
    specialize (Hbad h).
    destruct (Unmarshal (ColTypeInfo col) cell p h) as [r h1].
    simpl in Hbad. subst r. exists h1. reflexivity.
  - specialize (Hcols k ltac:(lia)) as Hk. unfold column_decodes in Hk.
    destruct (dest !! k) as [[p|]|]; [| | contradiction].
    + destruct Hk as (col & cell & Hcol & Hcell & Hok).
      rewrite index_of_nat, Hcol, Hrow, index_of_nat, Hcell.
      specialize (Hok h).
      destruct (Unmarshal (ColTypeInfo col) cell p h) as [r h1].
      simpl in Hok. subst r.
      apply IH; try assumption; [lia | lia |].
      intros c Hc. apply Hcols. lia.
    + apply IH; try assumption; [lia | lia |].
      intros c Hc. apply Hcols. lia.
Qed.

(** [Scan] on an iterator that already holds an error. *)
Lemma Scan_errored (fuel : nat) (iter : Iter) (dest : list Dest)
      (e : Env World Conn) (h : Heap) (er : error) :
  Iter_err iter = Some er ->
  Scan node Unmarshal fuel iter dest e h = Returned false (iter, e, h).
Proof. intros H. destruct fuel; simpl; rewrite H; reflexivity. Qed.

Lemma Scan_calls_errored (fuel : nat) (iter : Iter) (e : Env World Conn)
      (h : Heap) (er : error) (more : list (list Dest)) :
  Iter_err iter = Some er ->
  Scan_calls node Unmarshal fuel more iter e h
  = (replicate (length more) false, Some (iter, e, h)).
Proof.
  intros H. induction more as [|d more IH]; [reflexivity|].
  simpl. rewrite (Scan_errored _ _ _ _ _ _ H), IH. reflexivity.
Qed.

(** With a row left in the buffer and no error, [Scan] is its second
    half. *)
Lemma Scan_active (fuel : nat) (iter : Iter) (dest : list Dest)
      (e : Env World Conn) (h : Heap) :
  Iter_err iter = None ->
  Iter_pos iter < len (Iter_rows iter) ->
  Scan node Unmarshal fuel iter dest e h = Scan_row Unmarshal iter dest e h.
Proof.
  intros Herr Hpos.
  destruct fuel; simpl; rewrite Herr, Z.geb_leb, (proj2 (Z.leb_gt _ _)) by lia;
    reflexivity.
Qed.

(** [Scan] on a buffered row that decodes: the row is delivered and the
    cursor moves on by one. *)
Lemma Scan_row_decodes (fuel : nat) (rows : list (list bytes))
      (cols : list ColumnInfo) (nxt : option nextIter) (j : nat)
      (row : list bytes) (dest : list Dest) (e : Env World Conn) (h : Heap) :
  len rows <= max_int -> len cols <= max_int ->
  rows !! j = Some row ->
  row_decodes Unmarshal cols row dest ->
  exists e1 h1,
    Scan node Unmarshal fuel (mkIter None (Z.of_nat j) rows cols nxt) dest e h
    = Returned true (mkIter None (Z.of_nat (S j)) rows cols nxt, e1, h1).
Proof.
  intros Hrmax Hcmax Hrow [Hlen Hcols].
  pose proof (lookup_lt_Some _ _ _ Hrow) as Hj.
  rewrite Scan_active by first [reflexivity | simpl; unfold len; lia].
  destruct (Scan_columns_decodes (mkIter None (Z.of_nat j) rows cols nxt)
              row dest (length cols) 0 h) as (h1 & Hrun); simpl; auto.
  { rewrite index_of_nat. exact Hrow. }
  { intros c Hc. apply Hcols. lia. }
  unfold Scan_row. unfold len at 1 2. simpl Iter_columns.
  rewrite Hlen, Z.eqb_refl. simpl negb. cbv iota.
  change (Z.of_nat 0) with 0 in Hrun. rewrite Hrun.
  simpl. rewrite incr_of_nat by (unfold len in *; lia).
  eexists _, h1. reflexivity.
Qed.

(** [Scan] on a buffered row with a column that does not decode: [false],
    the error recorded, the cursor where it was. *)
Lemma Scan_row_fails (fuel : nat) (rows : list (list bytes))
      (cols : list ColumnInfo) (nxt : option nextIter) (j : nat)
      (row : list bytes) (dest : list Dest) (er : error)
      (e : Env World Conn) (h : Heap) :
  len rows <= max_int -> len cols <= max_int ->
  rows !! j = Some row ->
  row_fails Unmarshal cols row dest er ->
  exists e1 h1,
    Scan node Unmarshal fuel (mkIter None (Z.of_nat j) rows cols nxt) dest e h
    = Returned false (mkIter (Some er) (Z.of_nat j) rows cols nxt, e1, h1).
Proof.
  intros Hrmax Hcmax Hrow (Hlen & c0 & Hc0 & Hfail & Hcols).
  pose proof (lookup_lt_Some _ _ _ Hrow) as Hj.
  rewrite Scan_active by first [reflexivity | simpl; unfold len; lia].
  destruct (Scan_columns_fails (mkIter None (Z.of_nat j) rows cols nxt)
              row dest c0 er (length cols) 0 h) as (h1 & Hrun); simpl; auto.
  { rewrite index_of_nat. exact Hrow. }
  { lia. }
  { intros c Hc. apply Hcols. lia. }
  unfold Scan_row. unfold len at 1 2. simpl Iter_columns.
  rewrite Hlen, Z.eqb_refl. simpl negb. cbv iota.
  change (Z.of_nat 0) with 0 in Hrun. rewrite Hrun.
  simpl. eexists _, h1. reflexivity.
Qed.

(** Consecutive calls on rows that all decode, from cursor [p] on. *)
Lemma Scan_calls_decode (fuel : nat) (rows : list (list bytes))
      (cols : list ColumnInfo) (nxt : option nextIter)
      (ds : list (list Dest)) :
  forall (p : nat) (e : Env World Conn) (h : Heap),
    len rows <= max_int -> len cols <= max_int ->
    (forall j d, ds !! j = Some d ->
                 exists row, rows !! (p + j)%nat = Some row
                             /\ row_decodes Unmarshal cols row d) ->
    exists e1 h1,
      Scan_calls node Unmarshal fuel ds
                 (mkIter None (Z.of_nat p) rows cols nxt) e h
      = (replicate (length ds) true,
         Some (mkIter None (Z.of_nat (p + length ds)) rows cols nxt, e1, h1)).
Proof.
  induction ds as [|d ds IH]; intros p e h Hrmax Hcmax Hok.
  - exists e, h. simpl. rewrite Nat.add_0_r. reflexivity.
  - destruct (Hok 0%nat d eq_refl) as (row & Hrow & Hdec).
    rewrite Nat.add_0_r in Hrow.
    destruct (Scan_row_decodes fuel rows cols nxt p row d e h)
      as (e1 & h1 & Hrun); auto.
    destruct (IH (S p) e1 h1) as (e2 & h2 & Hrest); auto.
    { intros j d' Hd'. destruct (Hok (S j) d' Hd') as (row' & Hrow' & Hdec').
      exists row'. split; [| exact Hdec'].
      rewrite <- Hrow'. f_equal. lia. }
    exists e2, h2. simpl. rewrite Hrun, Hrest.
    replace (S p + length ds)%nat with (p + S (length ds))%nat by lia.
    reflexivity.
Qed.

(** The latch of a continuation: once [fetch] has returned, the handle
    is marked done and every later [fetch] on it returns the same iterator
    without touching the network. *)
Lemma fetch_latched (fuel : nat) (n n' : nextIter) (r : option Iter)
      (e e' : Env World Conn) :
  fetch node fuel n e = Returned (r, n') e' ->
  nextIter_once n' = true
  /\ forall fuel2 e2, fetch node fuel2 n' e2 = Returned (r, n') e2.
Proof.
  unfold fetch. destruct (nextIter_once n) eqn:Hn.
  - intros [= <- <- <-]. split; [exact Hn |]. intros. rewrite Hn. reflexivity.
  - destruct (executeQuery node fuel (nextIter_qry n) e) as [r1 e1| |];
      try discriminate.
    intros [= <- <- <-]. split; [reflexivity |]. intros. reflexivity.
Qed.










End IterFacts.

Section IterExamples.
Import GoInt Session Examples.


End IterExamples.

(** ** Node events *)

Section NodeEventFacts.
Import GoInt Events.
Variable IP_String : IP -> string.
Variable gocqlDebug : bool.
Variable nodeUpDelay : HostInfo -> Z.
Variable range_order : gmap string nodeEvent -> list (string * nodeEvent).

(** Whatever order the run time walks a map in, it visits each entry
    once. *)
Hypothesis range_order_perm : forall m, range_order m ≡ₚ map_to_list m.

Lemma status_for_cons (k : string) (f : frame) (fs : list frame) :
  status_for IP_String k (f :: fs)
  = match f with
    | statusChangeEventFrame change host port =>
        if String.eqb (IP_String host) k
        then {| ev_change := change; ev_host := host; ev_port := port |}
             :: status_for IP_String k fs
        else status_for IP_String k fs
    | _ => status_for IP_String k fs
    end.
Proof.
  unfold status_for. simpl. destruct f; try reflexivity.
  destruct (String.eqb _ _); reflexivity.
Qed.

(** The first loop, from any map: what it leaves under the key [k]. *)
Lemma collect_lookup_from (fs : list frame) (k : string) :
  forall (t : bool) (m : gmap string nodeEvent),
    (foldl (collect_frame IP_String) (t, m) fs).2 !! k
    = match status_for IP_String k fs with
      | [] => m !! k
      | x :: l =>
          Some (set_change (last_change (ev_change x) l)
                           (default x (m !! k)))
      end.
Proof.
  induction fs as [|f fs IH]; intros t m; [reflexivity|].
  rewrite status_for_cons. cbn [foldl].
  destruct (collect_frame IP_String (t, m) f) as [t' m'] eqn:Hstep.
  rewrite IH.
  destruct f as [| | | | | |c host port|];
    try (injection Hstep as <- <-; reflexivity).
  cbn [collect_frame] in Hstep. injection Hstep as <- <-.
  destruct (String.eqb_spec (IP_String host) k) as [->|Hne].
  - rewrite lookup_insert_eq.
    assert (Hev : match m !! k with
                  | Some event => event
                  | None => {| ev_change := c; ev_host := host;
                               ev_port := port |}
                  end
                  = default {| ev_change := c; ev_host := host;
                               ev_port := port |} (m !! k))
      by (destruct (m !! k); reflexivity).
    rewrite Hev.
    destruct (status_for IP_String k fs) as [|y l]; reflexivity.
  - rewrite lookup_insert_ne by exact Hne. reflexivity.
Qed.

(** The map the first loop builds holds, per host, the first frame's
    address and port and the last frame's change. *)
Lemma collect_lookup (frames : list frame) (k : string) :
  (collect IP_String frames).2 !! k = collapsed IP_String k frames.
Proof.
  unfold collect, collapsed. rewrite collect_lookup_from, lookup_empty.
  destruct (status_for IP_String k frames); reflexivity.
Qed.

Lemma status_for_key (k : string) (fs : list frame) (x : nodeEvent) :
  x ∈ status_for IP_String k fs -> IP_String (ev_host x) = k.
Proof.
  induction fs as [|f fs IH]; [inversion 1|].
  rewrite status_for_cons.
  destruct f as [| | | | | |c host port|]; try exact IH.
  destruct (String.eqb_spec (IP_String host) k) as [He|Hne]; [| exact IH].
  intros [->|Hx]%elem_of_cons; [exact He | exact (IH Hx)].
Qed.

Lemma collapsed_key (frames : list frame) (k : string) (ev : nodeEvent) :
  collapsed IP_String k frames = Some ev -> IP_String (ev_host ev) = k.
Proof.
  unfold collapsed.
  destruct (status_for IP_String k frames) as [|x l] eqn:Hs; [discriminate|].
  intros [= <-]. simpl. apply (status_for_key k frames). rewrite Hs. by left.
Qed.

(** The handlers keep the configuration and make no dispatch of their
    own. *)
Lemma handleNodeUp_frame (s : Session) (ip : IP) (port : Z) (k : string) :
  (handleNodeUp IP_String gocqlDebug nodeUpDelay s ip port).1 = s
  /\ dispatches_for IP_String k
       (handleNodeUp IP_String gocqlDebug nodeUpDelay s ip port).2 = [].
Proof.
  unfold handleNodeUp, debug_Printf, startPoolFill, dispatches_for.
  split; [reflexivity|]. simpl.
  destruct gocqlDebug, (ring s !! IP_String ip) as [r|];
    try destruct (filterHost _ _); try destruct (_ >? 0); reflexivity.
Qed.

Lemma handleNodeDown_frame (s : Session) (ip : IP) (port : Z) (k : string) :
  cfg (handleNodeDown IP_String gocqlDebug s ip port).1 = cfg s
  /\ dispatches_for IP_String k
       (handleNodeDown IP_String gocqlDebug s ip port).2 = [].
Proof.
  unfold handleNodeDown, debug_Printf, dispatches_for.
  destruct gocqlDebug, (ring s !! IP_String ip) as [r|];
    try destruct (filterHost _ _); split; reflexivity.
Qed.

Lemma dispatch_frame (s : Session) (ev : nodeEvent) (k : string) :
  cfg (dispatch IP_String gocqlDebug nodeUpDelay s ev).1 = cfg s
  /\ dispatches_for IP_String k
       (dispatch IP_String gocqlDebug nodeUpDelay s ev).2
     = dispatches_for IP_String k (expected_dispatch (cfg s) ev).
Proof.
  unfold dispatch, expected_dispatch.
  assert (Hdbg : forall fmt args,
             dispatches_for IP_String k (debug_Printf gocqlDebug fmt args)
             = []).
  { intros. unfold debug_Printf. destruct gocqlDebug; reflexivity. }
  pose proof (handleNodeUp_frame s (ev_host ev) (ev_port ev) k) as [Hus Hu].
  pose proof (handleNodeDown_frame s (ev_host ev) (ev_port ev) k) as [Hds Hd].
  destruct (handleNodeUp _ _ _ s _ _) as [su outu].
  destruct (handleNodeDown _ _ s _ _) as [sd outd].
  simpl in Hus, Hu, Hds, Hd. subst su.
  unfold dispatches_for in *.
  destruct (DisableNodeStatusEvents (cfg_Events (cfg s))); simpl negb;
    destruct (String.eqb (ev_change ev) "UP");
    try (destruct (String.eqb (ev_change ev) "DOWN"));
    cbv iota; simpl fst; simpl snd;
    first
      [ split; [reflexivity | apply Hdbg]
      | split; [reflexivity |];
        rewrite filter_app, Hdbg, !filter_cons, Hu; reflexivity
      | split; [exact Hds |];
        rewrite filter_app, Hdbg, !filter_cons, Hd; reflexivity ].
Qed.

(** The second loop: the dispatches made for [k] are those of the entries
    walked, entry by entry. *)
Lemma dispatch_all_frame (evs : list (string * nodeEvent)) (k : string) :
  forall s : Session,
    cfg (dispatch_all IP_String gocqlDebug nodeUpDelay s evs).1 = cfg s
    /\ dispatches_for IP_String k
         (dispatch_all IP_String gocqlDebug nodeUpDelay s evs).2
       = concat ((fun kv => dispatches_for IP_String k
                              (expected_dispatch (cfg s) kv.2)) <$> evs).
Proof.
  induction evs as [|kv evs IH]; intros s; [split; reflexivity|].
  simpl. destruct (dispatch_frame s kv.2 k) as [Hc Ho].
  destruct (dispatch _ _ _ s kv.2) as [s1 out1]. simpl in Hc, Ho.
  destruct (IH s1) as [Hc' Ho'].
  destruct (dispatch_all _ _ _ s1 evs) as [s2 out2]. simpl in *.
  split; [congruence|]. unfold dispatches_for in *.
  rewrite filter_app, Ho, Ho', Hc. reflexivity.
Qed.

Lemma expected_dispatch_for (c : ClusterConfig) (ev : nodeEvent)
      (k : string) :
  dispatches_for IP_String k (expected_dispatch c ev)
  = if String.eqb (IP_String (ev_host ev)) k then expected_dispatch c ev
    else [].
Proof.
  unfold expected_dispatch, dispatches_for.
  destruct (DisableNodeStatusEvents _); [by destruct (String.eqb _ k)|].
  destruct (String.eqb (ev_change ev) "UP");
    [| destruct (String.eqb (ev_change ev) "DOWN")];
    rewrite ?filter_cons; simpl;
    destruct (String.eqb (IP_String (ev_host ev)) k); reflexivity.
Qed.

(** Only the entry under [k], if there is one, is walked for [k]. *)
Lemma range_order_key (m : gmap string nodeEvent) (k : string) :
  filter (fun kv => kv.1 = k) (range_order m)
  = match m !! k with Some ev => [(k, ev)] | None => [] end.
Proof.
  assert (Hnone : forall m' : gmap string nodeEvent,
             m' !! k = None ->
             filter (fun kv => kv.1 = k) (map_to_list m') = []).
  { intros m' Hm'.
    destruct (filter _ (map_to_list m')) as [|[k' x] l] eqn:Hf; [done|].
    assert (Hin : (k', x) ∈ filter (fun kv => kv.1 = k) (map_to_list m'))
      by (rewrite Hf; by left).
    apply list_elem_of_filter in Hin as [Hk Hin]. simpl in Hk. subst k'.
    apply elem_of_map_to_list in Hin. congruence. }
  destruct (m !! k) as [ev|] eqn:Hm.
  - apply Permutation_singleton_r.
    rewrite range_order_perm, <- (map_to_list_delete m k ev Hm).
    rewrite filter_cons_True by reflexivity.
    rewrite Hnone by apply lookup_delete_eq. reflexivity.
  - apply Permutation_nil_r. rewrite range_order_perm, Hnone; done.
Qed.

Lemma dispatches_for_app (k : string) (a b : list effect) :
  dispatches_for IP_String k (a ++ b)
  = dispatches_for IP_String k a ++ dispatches_for IP_String k b.
Proof. unfold dispatches_for. apply filter_app. Qed.

Lemma dispatches_select (c : ClusterConfig) (k : string)
      (evs : list (string * nodeEvent)) :
  (forall kv, kv ∈ evs -> IP_String (ev_host kv.2) = kv.1) ->
  concat ((fun kv => dispatches_for IP_String k (expected_dispatch c kv.2))
            <$> evs)
  = concat ((fun kv => expected_dispatch c kv.2)
              <$> filter (fun kv => kv.1 = k) evs).
Proof.
  induction evs as [|kv evs IH]; intros Hkeys; [reflexivity|].
  rewrite fmap_cons. cbn [concat].
  rewrite expected_dispatch_for, (Hkeys kv) by (by left).
  rewrite IH by (intros; apply Hkeys; by right).
  destruct (String.eqb_spec kv.1 k) as [He|Hne].
  - rewrite filter_cons_True by exact He. reflexivity.
  - rewrite filter_cons_False by exact Hne. reflexivity.
Qed.

(** What [handleNodeEvent] dispatches for a host is decided by the
    collapsed event of that host alone. *)
Lemma handleNodeEvent_dispatches (s : Session) (frames : list frame)
      (k : string) :
  dispatches_for IP_String k
    (handleNodeEvent IP_String gocqlDebug nodeUpDelay range_order s frames).2
  = match collapsed IP_String k frames with
    | Some ev => expected_dispatch (cfg s) ev
    | None => []
    end.
Proof.
  unfold handleNodeEvent.
  pose proof (collect_lookup frames) as Hlook.
  destruct (collect IP_String frames) as [t m]. simpl in Hlook.
  destruct (dispatch_all_frame (range_order m) k s) as [_ Hout].
  destruct (dispatch_all _ _ _ s (range_order m)) as [s1 out].
  simpl in Hout. simpl snd.
  assert (Hrefresh :
    dispatches_for IP_String k
      (if t && negb (DisableTopologyEvents (cfg_Events (cfg s)))
       then [debounceRingRefresh] else []) = [])
    by (destruct (t && _); reflexivity).
  rewrite dispatches_for_app, Hrefresh, Hout.
  rewrite dispatches_select, range_order_key, Hlook.
  - destruct (collapsed IP_String k frames); simpl; [apply app_nil_r | done].
  - intros [k' ev] Hin. rewrite range_order_perm in Hin.
    apply elem_of_map_to_list in Hin. rewrite Hlook in Hin.
    exact (collapsed_key _ _ _ Hin).
Qed.

(** The handlers log their own entry once, and only theirs. *)
Lemma handleNodeUp_runs (s : Session) (ip : IP) (port : Z) (k : string) :
  handler_runs_for k
    (handleNodeUp IP_String gocqlDebug nodeUpDelay s ip port).2
  = if String.eqb (IP_String ip) k
    then [handleNodeUp_entry (IP_String ip) port] else [].
Proof.
  unfold handleNodeUp, debug_Printf, startPoolFill, handler_runs_for,
    handleNodeUp_entry.
  destruct gocqlDebug, (ring s !! IP_String ip) as [r|];
    try destruct (filterHost _ _); try destruct (_ >? 0);
    cbn [app snd]; rewrite ?filter_cons, ?filter_nil; simpl;
    destruct (String.eqb (IP_String ip) k); reflexivity.
Qed.

Lemma handleNodeDown_runs (s : Session) (ip : IP) (port : Z) (k : string) :
  handler_runs_for k (handleNodeDown IP_String gocqlDebug s ip port).2
  = if String.eqb (IP_String ip) k
    then [handleNodeDown_entry (IP_String ip) port] else [].
Proof.
  unfold handleNodeDown, debug_Printf, handler_runs_for,
    handleNodeDown_entry.
  destruct gocqlDebug, (ring s !! IP_String ip) as [r|];
    try destruct (filterHost _ _);
    cbn [app snd]; rewrite ?filter_cons, ?filter_nil; simpl;
    destruct (String.eqb (IP_String ip) k); reflexivity.
Qed.

Lemma handler_runs_for_app (k : string) (a b : list effect) :
  handler_runs_for k (a ++ b)
  = handler_runs_for k a ++ handler_runs_for k b.
Proof. unfold handler_runs_for. apply filter_app. Qed.

Lemma handler_runs_for_debug (k : string) (fmt : string) (ev : nodeEvent) :
  handler_runs_for k (debug_Printf gocqlDebug fmt [ArgNodeEvent ev]) = [].
Proof. unfold debug_Printf. destruct gocqlDebug; reflexivity. Qed.

Lemma dispatch_runs (s : Session) (ev : nodeEvent) (k : string) :
  handler_runs_for k (dispatch IP_String gocqlDebug nodeUpDelay s ev).2
  = if String.eqb (IP_String (ev_host ev)) k
    then expected_runs IP_String (cfg s) ev else [].
Proof.
  unfold dispatch, expected_runs.
  pose proof (handleNodeUp_runs s (ev_host ev) (ev_port ev) k) as Hu.
  pose proof (handleNodeDown_runs s (ev_host ev) (ev_port ev) k) as Hd.
  destruct (handleNodeUp _ _ _ s _ _) as [su outu].
  destruct (handleNodeDown _ _ s _ _) as [sd outd].
  simpl in Hu, Hd.
  destruct (DisableNodeStatusEvents (cfg_Events (cfg s))); simpl negb;
    destruct (String.eqb (ev_change ev) "UP");
    try (destruct (String.eqb (ev_change ev) "DOWN"));
    cbv iota; simpl snd;
    rewrite ?handler_runs_for_app, ?handler_runs_for_debug;
    try (destruct (String.eqb (IP_String (ev_host ev)) k); reflexivity).
  all: unfold handler_runs_for in *; rewrite filter_cons, ?Hu, ?Hd;
    reflexivity.
Qed.

Lemma dispatch_all_runs (evs : list (string * nodeEvent)) (k : string) :
  forall s : Session,
    handler_runs_for k
      (dispatch_all IP_String gocqlDebug nodeUpDelay s evs).2
    = concat ((fun kv => if String.eqb (IP_String (ev_host kv.2)) k
                         then expected_runs IP_String (cfg s) kv.2 else [])
                <$> evs).
Proof.
  induction evs as [|kv evs IH]; intros s; [reflexivity|].
  simpl. pose proof (dispatch_runs s kv.2 k) as Ho.
  destruct (dispatch_frame s kv.2 k) as [Hc _].
  destruct (dispatch _ _ _ s kv.2) as [s1 out1]. simpl in Hc, Ho.
  pose proof (IH s1) as Ho'.
  destruct (dispatch_all _ _ _ s1 evs) as [s2 out2]. simpl in *.
  rewrite handler_runs_for_app, Ho, Ho', Hc. reflexivity.
Qed.

Lemma runs_select (c : ClusterConfig) (k : string)
      (evs : list (string * nodeEvent)) :
  (forall kv, kv ∈ evs -> IP_String (ev_host kv.2) = kv.1) ->
  concat ((fun kv => if String.eqb (IP_String (ev_host kv.2)) k
                     then expected_runs IP_String c kv.2 else [])
            <$> evs)
  = concat ((fun kv => expected_runs IP_String c kv.2)
              <$> filter (fun kv => kv.1 = k) evs).
Proof.
  induction evs as [|kv evs IH]; intros Hkeys; [reflexivity|].
  rewrite fmap_cons. cbn [concat].
  rewrite (Hkeys kv) by (by left).
  rewrite IH by (intros; apply Hkeys; by right).
  destruct (String.eqb_spec kv.1 k) as [He|Hne].
  - rewrite filter_cons_True by exact He. reflexivity.
  - rewrite filter_cons_False by exact Hne. reflexivity.
Qed.

(** Which handler runs [handleNodeEvent] starts for a host, and with what
    port, is decided by the collapsed event of that host alone. *)
Lemma handleNodeEvent_runs (s : Session) (frames : list frame) (k : string) :
  handler_runs_for k
    (handleNodeEvent IP_String gocqlDebug nodeUpDelay range_order s frames).2
  = match collapsed IP_String k frames with
    | Some ev => expected_runs IP_String (cfg s) ev
    | None => []
    end.
Proof.
  unfold handleNodeEvent.
  pose proof (collect_lookup frames) as Hlook.
  destruct (collect IP_String frames) as [t m]. simpl in Hlook.
  pose proof (dispatch_all_runs (range_order m) k s) as Hout.
  destruct (dispatch_all _ _ _ s (range_order m)) as [s1 out].
  simpl in Hout. simpl snd.
  assert (Hrefresh :
    handler_runs_for k
      (if t && negb (DisableTopologyEvents (cfg_Events (cfg s)))
       then [debounceRingRefresh] else []) = [])
    by (destruct (t && _); reflexivity).
  rewrite handler_runs_for_app, Hrefresh, Hout.
  rewrite runs_select, range_order_key, Hlook.
  - destruct (collapsed IP_String k frames); simpl; [apply app_nil_r | done].
  - intros [k' ev] Hin. rewrite range_order_perm in Hin.
    apply elem_of_map_to_list in Hin. rewrite Hlook in Hin.
    exact (collapsed_key _ _ _ Hin).
Qed.

(** Call sites and the handler traces behind them. *)
Lemma calls_run_app (s : Session) (a b : list effect) :
  calls_run IP_String gocqlDebug nodeUpDelay s a ->
  calls_run IP_String gocqlDebug nodeUpDelay s b ->
  calls_run IP_String gocqlDebug nodeUpDelay s (a ++ b).
Proof.
  intros Ha Hb l1 x l2 Heq.
  apply app_eq_inv in Heq as [(l & Hl1 & Hl2) | (l & Hl1 & Hl2)].
  - destruct l as [|y l].
    + simpl in Hl2. exact (Hb [] x l2 (eq_sym Hl2)).
    + injection Hl2 as Hy Hl2. subst y l2.
      specialize (Ha l1 x l Hl1).
      destruct x; try exact I;
        destruct Ha as (s1 & Hc & Hr & Hpre);
        exists s1; (split; [exact Hc | split; [exact Hr |]]);
        apply prefix_app_r; exact Hpre.
  - exact (Hb l x l2 Hl2).
Qed.

Lemma calls_run_quiet (s : Session) (a : list effect) :
  filter is_call_site a = [] ->
  calls_run IP_String gocqlDebug nodeUpDelay s a.
Proof.
  intros Hq l1 x l2 ->.
  assert (Hx : is_call_site x = false).
  { destruct (is_call_site x) eqn:Hx; [| reflexivity].
    assert (Hin : x ∈ filter is_call_site (l1 ++ x :: l2)).
    { apply list_elem_of_filter. split; [rewrite Hx; exact I |].
      apply elem_of_app. right. by left. }
    rewrite Hq in Hin. inversion Hin. }
  destruct x; try exact I; discriminate.
Qed.

Lemma calls_run_call (s : Session) (x : effect) (tail : list effect) :
  filter is_call_site tail = [] ->
  match x with
  | call_handleNodeUp ip port =>
      exists s1, cfg s1 = cfg s /\ ring s1 = ring s
                 /\ tail = (handleNodeUp IP_String gocqlDebug nodeUpDelay
                              s1 ip port).2
  | call_handleNodeDown ip port =>
      exists s1, cfg s1 = cfg s /\ ring s1 = ring s
                 /\ tail = (handleNodeDown IP_String gocqlDebug s1 ip port).2
  | _ => True
  end ->
  calls_run IP_String gocqlDebug nodeUpDelay s (x :: tail).
Proof.
  intros Hq Hx l1 y l2 Heq.
  destruct l1 as [|z l1].
  - injection Heq as <- <-.
    destruct x; try exact I;
      destruct Hx as (s1 & Hc & Hr & ->);
      exists s1; (split; [exact Hc | split; [exact Hr | reflexivity]]).
  - injection Heq as _ Htail.
    exact (calls_run_quiet s tail Hq l1 y l2 Htail).
Qed.

Lemma handleNodeUp_quiet (s : Session) (ip : IP) (port : Z) :
  filter is_call_site
    (handleNodeUp IP_String gocqlDebug nodeUpDelay s ip port).2 = [].
Proof.
  unfold handleNodeUp, debug_Printf, startPoolFill. simpl.
  destruct gocqlDebug, (ring s !! IP_String ip) as [r|];
    try destruct (filterHost _ _); try destruct (_ >? 0); reflexivity.
Qed.

Lemma handleNodeDown_quiet (s : Session) (ip : IP) (port : Z) :
  cfg (handleNodeDown IP_String gocqlDebug s ip port).1 = cfg s
  /\ ring (handleNodeDown IP_String gocqlDebug s ip port).1 = ring s
  /\ filter is_call_site
       (handleNodeDown IP_String gocqlDebug s ip port).2 = [].
Proof.
  unfold handleNodeDown, debug_Printf.
  destruct gocqlDebug, (ring s !! IP_String ip) as [r|];
    try destruct (filterHost _ _); repeat split; reflexivity.
Qed.

Lemma dispatch_calls_run (s0 s : Session) (ev : nodeEvent) :
  cfg s = cfg s0 -> ring s = ring s0 ->
  cfg (dispatch IP_String gocqlDebug nodeUpDelay s ev).1 = cfg s0
  /\ ring (dispatch IP_String gocqlDebug nodeUpDelay s ev).1 = ring s0
  /\ calls_run IP_String gocqlDebug nodeUpDelay s0
       (dispatch IP_String gocqlDebug nodeUpDelay s ev).2.
Proof.
  intros Hc Hr. unfold dispatch.
  assert (Hdbg : forall fmt args,
             filter is_call_site (debug_Printf gocqlDebug fmt args) = []).
  { intros. unfold debug_Printf. destruct gocqlDebug; reflexivity. }
  pose proof (handleNodeUp_quiet s (ev_host ev) (ev_port ev)) as Hu.
  pose proof (handleNodeDown_quiet s (ev_host ev) (ev_port ev))
    as (Hdc & Hdr & Hd).
  assert (Hus : (handleNodeUp IP_String gocqlDebug nodeUpDelay s
                   (ev_host ev) (ev_port ev)).1 = s) by reflexivity.
  destruct (handleNodeUp _ _ _ s _ _) as [su outu] eqn:Hup.
  destruct (handleNodeDown _ _ s _ _) as [sd outd] eqn:Hdown.
  simpl in Hu, Hdc, Hdr, Hd, Hus. subst su.
  destruct (DisableNodeStatusEvents (cfg_Events (cfg s))); simpl negb;
    destruct (String.eqb (ev_change ev) "UP");
    try (destruct (String.eqb (ev_change ev) "DOWN"));
    cbv iota; simpl fst; simpl snd;
    try (split; [exact Hc | split; [exact Hr |]];
         apply calls_run_quiet, Hdbg).
  all: split; [congruence | split; [congruence |]];
    (apply calls_run_app; [apply calls_run_quiet, Hdbg |]);
    (apply calls_run_call; [first [exact Hu | exact Hd] |]);
    exists s; rewrite ?Hup, ?Hdown;
    (split; [exact Hc | split; [exact Hr | reflexivity]]).
Qed.

Lemma dispatch_all_calls_run (s0 : Session)
      (evs : list (string * nodeEvent)) :
  forall s : Session,
    cfg s = cfg s0 -> ring s = ring s0 ->
    calls_run IP_String gocqlDebug nodeUpDelay s0
      (dispatch_all IP_String gocqlDebug nodeUpDelay s evs).2.
Proof.
  induction evs as [|kv evs IH]; intros s Hc Hr.
  - apply calls_run_quiet. reflexivity.
  - simpl. destruct (dispatch_calls_run s0 s kv.2 Hc Hr) as (Hc1 & Hr1 & H1).
    destruct (dispatch _ _ _ s kv.2) as [s1 out1]. simpl in Hc1, Hr1, H1.
    pose proof (IH s1 Hc1 Hr1) as H2.
    destruct (dispatch_all _ _ _ s1 evs) as [s2 out2]. simpl in *.
    apply calls_run_app; assumption.
Qed.

(** In the trace of [handleNodeEvent] every call site of a status handler
    is followed by the trace of that handler run on the arguments of the
    call. *)
Lemma handleNodeEvent_calls_run (s : Session) (frames : list frame) :
  calls_run IP_String gocqlDebug nodeUpDelay s
    (handleNodeEvent IP_String gocqlDebug nodeUpDelay range_order s frames).2.
Proof.
  unfold handleNodeEvent.
  destruct (collect IP_String frames) as [t m].
  pose proof (dispatch_all_calls_run s (range_order m) s eq_refl eq_refl)
    as Hout.
  destruct (dispatch_all _ _ _ s (range_order m)) as [s1 out].
  simpl in Hout. simpl snd.
  apply calls_run_app; [| exact Hout].
  apply calls_run_quiet. destruct (t && _); reflexivity.
Qed.

(** C7, as the code has it: per batch and per host address
    [handleNodeEvent] runs a status handler at most once.  With node status
    events enabled the status frames of one host collapse to exactly one
    run, of [handleNodeUp] if the last of them says "UP" and of
    [handleNodeDown] if it says "DOWN"; with node status events disabled no
    handler runs.  This is read off twice: at the call sites, and in what the
    handlers themselves log on entry, address and port included; and every
    call site in the trace is followed at once by the trace of the handler
    called, run on the arguments of the call. *)
Theorem handleNodeEvent_last_status_wins (s : Session) (frames : list frame)
        (k : string) :
  let out :=
    (handleNodeEvent IP_String gocqlDebug nodeUpDelay range_order s frames).2
  in
  (length (dispatches_for IP_String k out) <= 1)%nat
  /\ dispatches_for IP_String k out
     = match status_for IP_String k frames with
       | [] => []
       | x :: l =>
           if DisableNodeStatusEvents (cfg_Events (cfg s)) then []
           else if String.eqb (last_change (ev_change x) l) "UP"
                then [call_handleNodeUp (ev_host x) (ev_port x)]
                else if String.eqb (last_change (ev_change x) l) "DOWN"
                     then [call_handleNodeDown (ev_host x) (ev_port x)]
                     else []
       end
  /\ (length (handler_runs_for k out) <= 1)%nat
  /\ handler_runs_for k out
     = match status_for IP_String k frames with
       | [] => []
       | x :: l =>
           if DisableNodeStatusEvents (cfg_Events (cfg s)) then []
           else if String.eqb (last_change (ev_change x) l) "UP"
                then [handleNodeUp_entry k (ev_port x)]
                else if String.eqb (last_change (ev_change x) l) "DOWN"
                     then [handleNodeDown_entry k (ev_port x)]
                     else []
       end
  /\ calls_run IP_String gocqlDebug nodeUpDelay s out.
Proof.
  intros out. subst out.
  rewrite handleNodeEvent_dispatches, handleNodeEvent_runs.
  split; [| split; [| split; [| split]]];
    try apply handleNodeEvent_calls_run;
    pose proof (collapsed_key frames k) as Hkey;
    unfold collapsed, expected_dispatch, expected_runs in *;
    destruct (status_for IP_String k frames) as [|x l]; simpl;
    try (lia || done);
    specialize (Hkey _ eq_refl); simpl in Hkey; rewrite ?Hkey;
    destruct (DisableNodeStatusEvents _); try (simpl; lia || done);
    destruct (String.eqb _ "UP"); try (simpl; lia || done);
    destruct (String.eqb _ "DOWN"); simpl; (lia || done).
Qed.

(** C10: when a batch holds two or more status frames for one host
    address, the entry kept for it carries the address object and the port
    of the first of them and the change of the last; every call of a status
    handler made for that address is made with the first frame's address
    object and port; the handler that runs for that address logs, as the
    port it was called with, the first frame's port; and every call site in
    the trace is followed at once by the trace of the handler called, run on
    the arguments of the call. *)
Theorem handleNodeEvent_first_port (s : Session) (frames : list frame)
        (k : string) (x y : nodeEvent) (l : list nodeEvent) :
  status_for IP_String k frames = x :: y :: l ->
  let out :=
    (handleNodeEvent IP_String gocqlDebug nodeUpDelay range_order s frames).2
  in
  let kept := {| ev_change := last_change (ev_change y) l;
                 ev_host := ev_host x; ev_port := ev_port x |} in
  (collect IP_String frames).2 !! k = Some kept
  /\ dispatches_for IP_String k out = expected_dispatch (cfg s) kept
  /\ (forall d, d ∈ dispatches_for IP_String k out ->
                d = call_handleNodeUp (ev_host x) (ev_port x)
                \/ d = call_handleNodeDown (ev_host x) (ev_port x))
  /\ IP_String (ev_host x) = k
  /\ handler_runs_for k out = expected_runs IP_String (cfg s) kept
  /\ (forall r, r ∈ handler_runs_for k out ->
                r = handleNodeUp_entry k (ev_port x)
                \/ r = handleNodeDown_entry k (ev_port x))
  /\ calls_run IP_String gocqlDebug nodeUpDelay s out.
Proof.
  intros Hs out kept. subst out.
  assert (Hc : collapsed IP_String k frames = Some kept)
    by (unfold collapsed; rewrite Hs; reflexivity).
  pose proof (collapsed_key _ _ _ Hc) as Hkey. simpl in Hkey.
  rewrite collect_lookup, handleNodeEvent_dispatches, handleNodeEvent_runs, Hc.
  split; [reflexivity | split; [reflexivity |]].
  split; [| split; [exact Hkey | split; [reflexivity | split]]].
  - intros d. unfold expected_dispatch. simpl.
    destruct (DisableNodeStatusEvents _); [inversion 1|].
    destruct (String.eqb _ "UP");
      [intros ->%list_elem_of_singleton; by left |].
    destruct (String.eqb _ "DOWN");
      [intros ->%list_elem_of_singleton; by right | inversion 1].
  - intros r. unfold expected_runs. simpl. rewrite Hkey.
    destruct (DisableNodeStatusEvents _); [inversion 1|].
    destruct (String.eqb _ "UP");
      [intros ->%list_elem_of_singleton; by left |].
    destruct (String.eqb _ "DOWN");
      [intros ->%list_elem_of_singleton; by right | inversion 1].
  - apply handleNodeEvent_calls_run.
Qed.

End NodeEventFacts.

Section HandlerFacts.
Import GoInt Events.
Variable IP_String : IP -> string.
Variable gocqlDebug : bool.
Variable nodeUpDelay : HostInfo -> Z.

(** C8: an UP event for an address the ring does not know makes
    [handleNodeUp] ask for a ring refresh and return.  Apart from its log
    lines that is all it does: the session is unchanged, no host is handed
    to the pool or to the policy, and the event is not put back anywhere. *)
Theorem handleNodeUp_unknown_host (s : Session) (eventIp : IP)
        (eventPort : Z) :
  ring s !! IP_String eventIp = None ->
  let r := handleNodeUp IP_String gocqlDebug nodeUpDelay s eventIp eventPort
  in
  r.1 = s
  /\ actions r.2 = [debounceRingRefresh]
  /\ r.2
     = [pool_Size;
        logger_Printf
          "dbg200a: gocql: Session.handleNodeUp: %s:%d, pre pool size:%d\n"
          [ArgString (IP_String eventIp); ArgInt eventPort; ArgPoolSize]]
       ++ debug_Printf gocqlDebug "gocql: Session.handleNodeUp: %s:%d\n"
            [ArgString (IP_String eventIp); ArgInt eventPort]
       ++ [debounceRingRefresh; pool_Size;
           logger_Printf
             "dbg200a: gocql: Session.handleNodeUp: %s:%d, post pool size:%d\n"
             [ArgString (IP_String eventIp); ArgInt eventPort; ArgPoolSize]].
Proof.
  intros Hring r. subst r. unfold handleNodeUp. rewrite Hring. simpl.
  split; [reflexivity |]. split; [| reflexivity].
  unfold debug_Printf. destruct gocqlDebug; reflexivity.
Qed.

(** C9: for a DOWN event whose address the ring knows, [handleNodeDown]
    sets the state of that host to Down and only then asks the host filter,
    on the host as it now is; a filtered host gets nothing more, any other
    host is reported down to the policy and removed from the pool by its
    host id.  For an address the ring does not know, nothing is done. *)
Theorem handleNodeDown_effect (s : Session) (ip : IP) (port : Z) :
  let r := handleNodeDown IP_String gocqlDebug s ip port in
  match ring s !! IP_String ip with
  | Some host =>
      r.1 = setState host NodeDown s
      /\ state (hosts r.1 host) = NodeDown
      /\ actions r.2
         = if filterHost (cfg s) (set_state NodeDown (hosts s host))
           then []
           else [policy_HostDown host;
                 pool_removeHost (hostId (hosts s host))]
  | None => r.1 = s /\ actions r.2 = []
  end.
Proof.
  intros r. subst r. unfold handleNodeDown.
  destruct (ring s !! IP_String ip) as [host|].
  - simpl. rewrite Z.eqb_refl.
    destruct (filterHost (cfg s) (set_state NodeDown (hosts s host)));
      simpl; rewrite ?Z.eqb_refl;
      (split; [reflexivity | split; [reflexivity |]]);
      unfold debug_Printf; destruct gocqlDebug; reflexivity.
  - simpl. split; [reflexivity |].
    unfold debug_Printf; destruct gocqlDebug; reflexivity.
Qed.

End HandlerFacts.

Section NodeEventExamples.
Import GoInt Events Examples.

(** C7 as stated fails when node status events are disabled: DOWN then
    UP for one host, and no handler is called. *)
Lemma handleNodeEvent_disabled_counterexample :
  status_for ipv4_String "10.0.0.1" down_then_up
  = [ {| ev_change := "DOWN"; ev_host := host_10_0_0_1; ev_port := 9042 |};
      {| ev_change := "UP"; ev_host := host_10_0_0_1; ev_port := 9043 |} ]
  /\ dispatches_for ipv4_String "10.0.0.1"
       (handleNodeEvent ipv4_String false no_delay map_to_list
          (session_with true false ∅) down_then_up).2 = []
  /\ (handleNodeEvent ipv4_String false no_delay map_to_list
        (session_with true false ∅) down_then_up).2 = [].
Proof. vm_compute. auto. Qed.

(** [handleNodeEvent_last_status_wins] on DOWN then UP for 10.0.0.1, with
    node status events enabled: one call, of [handleNodeUp], and the one run
    of [handleNodeUp] that logs this address. *)
Lemma handleNodeEvent_last_status_wins_witness :
  let out :=
    (handleNodeEvent ipv4_String false no_delay map_to_list
       (session_with false false ∅) down_then_up).2 in
  (forall m : gmap string nodeEvent, map_to_list m ≡ₚ map_to_list m)
  /\ dispatches_for ipv4_String "10.0.0.1" out
     = [call_handleNodeUp host_10_0_0_1 9042]
  /\ handler_runs_for "10.0.0.1" out
     = [handleNodeUp_entry "10.0.0.1" 9042]
  /\ calls_run ipv4_String false no_delay (session_with false false ∅) out.
Proof.
  intros out. split; [reflexivity |].
  destruct (handleNodeEvent_last_status_wins ipv4_String false no_delay
              map_to_list (fun m => reflexivity (map_to_list m))
              (session_with false false ∅) down_then_up "10.0.0.1")
    as (_ & Hcalls & _ & Hruns & Htied).
  split; [exact Hcalls | split; [exact Hruns | exact Htied]].
Defined.

(** [handleNodeEvent_first_port] on the same batch: the port is 9042, the
    first frame's, at the call site and in what the handler logs, and the
    change is the last frame's. *)
Lemma handleNodeEvent_first_port_witness :
  let out :=
    (handleNodeEvent ipv4_String false no_delay map_to_list
       (session_with false false ∅) down_then_up).2 in
  (collect ipv4_String down_then_up).2 !! "10.0.0.1"
  = Some {| ev_change := "UP"; ev_host := host_10_0_0_1; ev_port := 9042 |}
  /\ dispatches_for ipv4_String "10.0.0.1" out
     = [call_handleNodeUp host_10_0_0_1 9042]
  /\ handler_runs_for "10.0.0.1" out
     = [handleNodeUp_entry "10.0.0.1" 9042].
Proof.
  intros out.
  destruct (handleNodeEvent_first_port ipv4_String false no_delay
              map_to_list (fun m => reflexivity (map_to_list m))
              (session_with false false ∅) down_then_up "10.0.0.1"
              {| ev_change := "DOWN"; ev_host := host_10_0_0_1;
                 ev_port := 9042 |}
              {| ev_change := "UP"; ev_host := host_10_0_0_1;
                 ev_port := 9043 |} [] eq_refl)
    as (Hkept & Hout & _ & _ & Hruns & _).
  split; [exact Hkept | split; [exact Hout | exact Hruns]].
Defined.

(** [handleNodeUp_unknown_host] on an empty ring. *)
Lemma handleNodeUp_unknown_host_witness :
  ring (session_with false false ∅) !! ipv4_String host_10_0_0_1 = None
  /\ actions (handleNodeUp ipv4_String false no_delay
                (session_with false false ∅) host_10_0_0_1 9042).2
     = [debounceRingRefresh].
Proof.
  split; [reflexivity |].
  apply (handleNodeUp_unknown_host ipv4_String false no_delay
           (session_with false false ∅) host_10_0_0_1 9042).
  reflexivity.
Defined.

(** A topology frame and an UP frame for a host the ring does not know,
    in one batch: the ring refresh of the first pass, then the one call of
    [handleNodeUp], which asks for a refresh again and does nothing else. *)
Example new_node_then_up_for_unknown_host :
  actions
    (handleNodeEvent ipv4_String false no_delay map_to_list
       (session_with false false ∅)
       [ topologyChangeEventFrame "NEW_NODE" host_10_0_0_1 9042;
         statusChangeEventFrame "UP" host_10_0_0_1 9042 ]).2
  = [ debounceRingRefresh;
      call_handleNodeUp host_10_0_0_1 9042;
      debounceRingRefresh ].
Proof. vm_compute. reflexivity. Qed.

End NodeEventExamples.

(** ** More on the retry dispatcher: any network, no connection, no retries *)

Section DispatcherMore.
Import GoInt Session.
Context {World Conn : Type} (node : Node World Conn).

Local Ltac calls_step :=
  simpl; rewrite ?n_picks_app, ?n_executions_app;
  unfold n_picks, n_executions; simpl.

(** The query loop with [n] turns left, on any network whatever: it
    returns, having made at most [n] picks, one per execution plus at most
    one that found no connection. *)
Lemma executeQuery_loop_any_network (q : Query) (n : nat) :
  forall (fuel : nat) (itr : option Iter) (count : Z) (e : Env World Conn),
    min_int <= count ->
    count + Z.of_nat n = NumRetries (rt q) + 1 ->
    NumRetries (rt q) < max_int ->
    (n <= fuel)%nat ->
    exists r e' p x,
      executeQuery_loop node fuel q itr count e = Returned r e'
      /\ n_picks (calls e') = (n_picks (calls e) + p)%nat
      /\ n_executions (calls e') = (n_executions (calls e) + x)%nat
      /\ (p <= n)%nat /\ (x <= p <= x + 1)%nat
      /\ match n with
         | O => r = itr /\ e' = e
         | S _ =>
             (1 <= p)%nat
             /\ exists it,
                 r = Some it
                 /\ ((exists c, last (calls e') = Some (call_executeQuery c q it))
                     \/ (it = Iter_of_err ErrUnavailable
                         /\ last (calls e') = Some (call_Pick None)))
         end.
Proof.
  induction n as [|n IH]; intros fuel itr count e Hmin Hc Hmax Hfuel.
  - exists itr, e, 0%nat, 0%nat.
    split; [destruct fuel; simpl; rewrite (proj2 (Z.leb_gt _ _)) by lia;
            reflexivity |].
    repeat split; lia.
  - destruct fuel as [|fuel]; [lia|].
    simpl. rewrite (proj2 (Z.leb_le _ _)) by lia.
    unfold do_Pick, do_executeQuery.
    destruct (Pick node (world e)) as [[c|] w1]; simpl.
    + destruct (conn_executeQuery node c q w1) as [it w2]; simpl.
      destruct (Iter_err it) as [er|] eqn:Her.
      * rewrite incr_below_max by lia.
        edestruct (IH fuel (Some it) (count + 1)) as
          (r & e' & p & x & Hrun & Hp & Hx & Hpn & Hpx & Hres);
          [lia | lia | exact Hmax | lia |].
        rewrite Hrun. exists r, e', (S p), (S x).
        split; [reflexivity |].
        revert Hp Hx. calls_step. intros Hp Hx.
        split; [lia |]. split; [lia |]. split; [lia |]. split; [lia |].
        split; [lia |].
        destruct n as [|n'].
        -- destruct Hres as [-> ->]. exists it. split; [reflexivity |].
           left. exists c. simpl. apply last_snoc.
        -- destruct Hres as (_ & it' & Hr & Hlast). exists it'. auto.
      * eexists (Some it), _, 1%nat, 1%nat. split; [reflexivity |].
        calls_step. split; [lia |]. split; [lia |]. split; [lia |].
        split; [lia |]. split; [lia |].
        exists it. split; [reflexivity |]. left. exists c. apply last_snoc.
    + eexists _, _, 1%nat, 0%nat. split; [reflexivity |].
      calls_step. split; [lia |]. split; [lia |]. split; [lia |].
      split; [lia |]. split; [lia |].
      eexists. split; [reflexivity |]. right. split; [reflexivity |].
      apply last_snoc.
Qed.

(** X1: whatever the pool and the connections do, [executeQuery] with a
    retry count [0 <= N < max_int] returns an iterator (never nil) after at
    least one and at most [N+1] picks; every execution has its own pick, and
    only a last pick that found no connection goes without one.  What it
    returns is what the last execution returned, or the unavailable error
    after a pick that found no connection. *)
Theorem executeQuery_any_network (q : Query) (e : Env World Conn)
        (fuel : nat) :
  0 <= NumRetries (rt q) < max_int ->
  (Z.to_nat (NumRetries (rt q)) < fuel)%nat ->
  exists it e' p x,
    executeQuery node fuel q e = Returned (Some it) e'
    /\ n_picks (calls e') = (n_picks (calls e) + p)%nat
    /\ n_executions (calls e') = (n_executions (calls e) + x)%nat
    /\ (1 <= p)%nat /\ Z.of_nat p <= NumRetries (rt q) + 1
    /\ (x <= p <= x + 1)%nat
    /\ ((exists c, last (calls e') = Some (call_executeQuery c q it))
        \/ (it = Iter_of_err ErrUnavailable
            /\ last (calls e') = Some (call_Pick None))).
Proof.
  intros HN Hfuel.
  assert (Hmin : min_int <= 0) by (vm_compute; discriminate).
  destruct (executeQuery_loop_any_network q
              (S (Z.to_nat (NumRetries (rt q)))) fuel None 0 e)
    as (r & e' & p & x & Hrun & Hp & Hx & Hpn & Hpx & Hp1 & it & -> & Hlast);
    try lia.
  exists it, e', p, x. unfold executeQuery. rewrite Hrun.
  repeat split; try assumption; try lia.
Qed.

(** The batch loop on any network. *)
Lemma ExecuteBatch_loop_any_network (b : Batch) (n : nat) :
  forall (fuel : nat) (err : option error) (count : Z) (e : Env World Conn),
    min_int <= count ->
    count + Z.of_nat n = NumRetries (batch_rt b) + 1 ->
    NumRetries (batch_rt b) < max_int ->
    (n <= fuel)%nat ->
    exists r e' p x,
      ExecuteBatch_loop node fuel b err count e = Returned r e'
      /\ n_picks (calls e') = (n_picks (calls e) + p)%nat
      /\ n_executions (calls e') = (n_executions (calls e) + x)%nat
      /\ (p <= n)%nat /\ (x <= p <= x + 1)%nat
      /\ match n with
         | O => r = err /\ e' = e
         | S _ =>
             (1 <= p)%nat
             /\ ((exists c, last (calls e') = Some (call_executeBatch c b r))
                 \/ (r = Some ErrUnavailable
                     /\ last (calls e') = Some (call_Pick None)))
         end.
Proof.
  induction n as [|n IH]; intros fuel err count e Hmin Hc Hmax Hfuel.
  - exists err, e, 0%nat, 0%nat.
    split; [destruct fuel; simpl; rewrite (proj2 (Z.leb_gt _ _)) by lia;
            reflexivity |].
    repeat split; lia.
  - destruct fuel as [|fuel]; [lia|].
    simpl. rewrite (proj2 (Z.leb_le _ _)) by lia.
    unfold do_Pick, do_executeBatch.
    destruct (Pick node (world e)) as [[c|] w1]; simpl.
    + destruct (conn_executeBatch node c b w1) as [[er|] w2]; simpl.
      * rewrite incr_below_max by lia.
        edestruct (IH fuel (Some er) (count + 1)) as
          (r & e' & p & x & Hrun & Hp & Hx & Hpn & Hpx & Hres);
          [lia | lia | exact Hmax | lia |].
        rewrite Hrun. exists r, e', (S p), (S x).
        split; [reflexivity |].
        revert Hp Hx. calls_step. intros Hp Hx.
        split; [lia |]. split; [lia |]. split; [lia |]. split; [lia |].
        split; [lia |].
        destruct n as [|n'].
        -- destruct Hres as [-> ->]. left. exists c. simpl. apply last_snoc.
        -- destruct Hres as (_ & Hlast). exact Hlast.
      * eexists None, _, 1%nat, 1%nat. split; [reflexivity |].
        calls_step. split; [lia |]. split; [lia |]. split; [lia |].
        split; [lia |]. split; [lia |].
        left. exists c. apply last_snoc.
    + eexists _, _, 1%nat, 0%nat. split; [reflexivity |].
      calls_step. split; [lia |]. split; [lia |]. split; [lia |].
      split; [lia |]. split; [lia |].
      right. split; [reflexivity |]. apply last_snoc.
Qed.

(** X2: the same for [ExecuteBatch] on a batch that passes the size check:
    it returns after one to [N+1] picks, and the error it returns (nil for
    success) is what the last execution returned, or the unavailable error
    after a pick that found no connection. *)
Theorem ExecuteBatch_any_network (b : Batch) (e : Env World Conn)
        (fuel : nat) :
  len (Entries b) <= 65536 ->
  0 <= NumRetries (batch_rt b) < max_int ->
  (Z.to_nat (NumRetries (batch_rt b)) < fuel)%nat ->
  exists r e' p x,
    ExecuteBatch node fuel b e = Returned r e'
    /\ n_picks (calls e') = (n_picks (calls e) + p)%nat
    /\ n_executions (calls e') = (n_executions (calls e) + x)%nat
    /\ (1 <= p)%nat /\ Z.of_nat p <= NumRetries (batch_rt b) + 1
    /\ (x <= p <= x + 1)%nat
    /\ ((exists c, last (calls e') = Some (call_executeBatch c b r))
        \/ (r = Some ErrUnavailable
            /\ last (calls e') = Some (call_Pick None))).
Proof.
  intros Hlen HN Hfuel.
  assert (Hmin : min_int <= 0) by (vm_compute; discriminate).
  destruct (ExecuteBatch_loop_any_network b
              (S (Z.to_nat (NumRetries (batch_rt b)))) fuel None 0 e)
    as (r & e' & p & x & Hrun & Hp & Hx & Hpn & Hpx & Hp1 & Hlast);
    try lia.
  exists r, e', p, x. rewrite ExecuteBatch_small by exact Hlen. rewrite Hrun.
  repeat split; try assumption; try lia.
Qed.

(** The query loop: [j] failures, then a pick that finds no connection. *)
Lemma executeQuery_loop_unavailable_after (q : Query) (j : nat) :
  forall (fuel : nat) (itr : option Iter) (count : Z) (e : Env World Conn),
    min_int <= count ->
    count + Z.of_nat j <= NumRetries (rt q) ->
    NumRetries (rt q) <= max_int ->
    (forall i, (i < j)%nat -> query_kind node q (world e) i = Fails) ->
    query_kind node q (world e) j = NoConnection ->
    (j < fuel)%nat ->
    exists e',
      executeQuery_loop node fuel q itr count e
      = Returned (Some (Iter_of_err ErrUnavailable)) e'
      /\ n_picks (calls e') = (n_picks (calls e) + S j)%nat
      /\ n_executions (calls e') = (n_executions (calls e) + j)%nat.
Proof.
  induction j as [|j IH]; intros fuel itr count e Hmin Hc Hmax Hf Hs Hfuel;
    (destruct fuel as [|fuel]; [lia|]).
  - simpl. rewrite (proj2 (Z.leb_le _ _)) by lia.
    unfold query_kind, query_attempt in Hs. simpl in Hs.
    unfold do_Pick, do_executeQuery.
    destruct (Pick node (world e)) as [[c|] w1]; simpl in *.
    + destruct (conn_executeQuery node c q w1) as [it w2]; simpl in *.
      destruct (Iter_err it); discriminate.
    + eexists. split; [reflexivity |]. calls_step. lia.
  - destruct (executeQuery_loop_fails node fuel q itr count e)
      as (it1 & e1 & Hrun & _ & _ & Hw1 & Hp1 & Hx1); [lia | apply Hf; lia |].
    rewrite incr_below_max in Hrun by lia.
    destruct (IH fuel (Some it1) (count + 1) e1) as (e' & Hrun' & Hp & Hx);
      try lia.
    + intros i Hi. rewrite Hw1. apply (Hf (S i)). lia.
    + rewrite Hw1. exact Hs.
    + exists e'. rewrite Hrun, Hrun'. split; [reflexivity |]. lia.
Qed.

Lemma ExecuteBatch_loop_unavailable_after (b : Batch) (j : nat) :
  forall (fuel : nat) (err : option error) (count : Z) (e : Env World Conn),
    min_int <= count ->
    count + Z.of_nat j <= NumRetries (batch_rt b) ->
    NumRetries (batch_rt b) <= max_int ->
    (forall i, (i < j)%nat -> batch_kind node b (world e) i = Fails) ->
    batch_kind node b (world e) j = NoConnection ->
    (j < fuel)%nat ->
    exists e',
      ExecuteBatch_loop node fuel b err count e
      = Returned (Some ErrUnavailable) e'
      /\ n_picks (calls e') = (n_picks (calls e) + S j)%nat
      /\ n_executions (calls e') = (n_executions (calls e) + j)%nat.
Proof.
  induction j as [|j IH]; intros fuel err count e Hmin Hc Hmax Hf Hs Hfuel;
    (destruct fuel as [|fuel]; [lia|]).
  - simpl. rewrite (proj2 (Z.leb_le _ _)) by lia.
    unfold batch_kind, batch_attempt in Hs. simpl in Hs.
    unfold do_Pick, do_executeBatch.
    destruct (Pick node (world e)) as [[c|] w1]; simpl in *.
    + destruct (conn_executeBatch node c b w1) as [[er|] w2]; discriminate.
    + eexists. split; [reflexivity |]. calls_step. lia.
  - destruct (ExecuteBatch_loop_fails node fuel b err count e)
      as (er1 & e1 & Hrun & _ & Hw1 & Hp1 & Hx1); [lia | apply Hf; lia |].
    rewrite incr_below_max in Hrun by lia.
    destruct (IH fuel (Some er1) (count + 1) e1) as (e' & Hrun' & Hp & Hx);
      try lia.
    + intros i Hi. rewrite Hw1. apply (Hf (S i)). lia.
    + rewrite Hw1. exact Hs.
    + exists e'. rewrite Hrun, Hrun'. split; [reflexivity |]. lia.
Qed.

(** X3: a pick that finds no connection ends the run at once, retries left
    or not.  After [j] failed attempts, [j <= N], a pick with no connection
    makes [executeQuery] return an iterator holding [ErrUnavailable], and
    [ExecuteBatch] return [ErrUnavailable], with [j+1] picks and [j]
    executions made in all. *)
Theorem no_connection_ends_the_run (q : Query) (b : Batch)
        (e : Env World Conn) (fuel j : nat) :
  (Z.of_nat j <= NumRetries (rt q) <= max_int ->
   (forall i, (i < j)%nat -> query_kind node q (world e) i = Fails) ->
   query_kind node q (world e) j = NoConnection ->
   (j < fuel)%nat ->
   exists e',
     executeQuery node fuel q e
     = Returned (Some (Iter_of_err ErrUnavailable)) e'
     /\ n_picks (calls e') = (n_picks (calls e) + S j)%nat
     /\ n_executions (calls e') = (n_executions (calls e) + j)%nat)
  /\ (len (Entries b) <= 65536 ->
      Z.of_nat j <= NumRetries (batch_rt b) <= max_int ->
      (forall i, (i < j)%nat -> batch_kind node b (world e) i = Fails) ->
      batch_kind node b (world e) j = NoConnection ->
      (j < fuel)%nat ->
      exists e',
        ExecuteBatch node fuel b e = Returned (Some ErrUnavailable) e'
        /\ n_picks (calls e') = (n_picks (calls e) + S j)%nat
        /\ n_executions (calls e') = (n_executions (calls e) + j)%nat).
Proof.
  assert (Hmin : min_int <= 0) by (vm_compute; discriminate).
  split.
  - intros HN Hf Hs Hfuel.
    apply executeQuery_loop_unavailable_after; try assumption; lia.
  - intros Hlen HN Hf Hs Hfuel. rewrite ExecuteBatch_small by exact Hlen.
    apply ExecuteBatch_loop_unavailable_after; try assumption; lia.
Qed.

(** X4: a negative retry count means no attempt at all.  [executeQuery]
    returns the nil iterator it started with, so [Query.Exec] panics on
    [iter.err]; [ExecuteBatch] returns the nil error it started with, so a
    batch within the size limit is reported as executed although nothing
    was picked or sent. *)
Theorem negative_retry_count_sends_nothing (q : Query) (b : Batch)
        (e : Env World Conn) (fuel : nat) :
  (NumRetries (rt q) < 0 ->
   executeQuery node fuel q e = Returned None e
   /\ Query_Exec node fuel q e = Panicked e)
  /\ (NumRetries (batch_rt b) < 0 -> len (Entries b) <= 65536 ->
      ExecuteBatch node fuel b e = Returned None e).
Proof.
  split.
  - intros HN. unfold Query_Exec, executeQuery.
    assert (Hrun : executeQuery_loop node fuel q None 0 e = Returned None e)
      by (destruct fuel; simpl; rewrite (proj2 (Z.leb_gt _ _)) by lia;
          reflexivity).
    rewrite Hrun. split; reflexivity.
  - intros HN Hlen. rewrite ExecuteBatch_small by exact Hlen.
    destruct fuel; simpl; rewrite (proj2 (Z.leb_gt _ _)) by lia; reflexivity.
Qed.

End DispatcherMore.

(** ** More on the paging iterator *)

Section IterMore.
Import GoInt Session SessionAPI.
Context {World Conn Heap : Type} (node : Node World Conn).
Variable Unmarshal : TypeInfo -> bytes -> Z -> Heap -> option error * Heap.

Lemma after_prefetch_world (iter : Iter) (e : Env World Conn) :
  world (after_prefetch iter e) = world e
  /\ n_picks (calls (after_prefetch iter e)) = n_picks (calls e)
  /\ n_executions (calls (after_prefetch iter e)) = n_executions (calls e).
Proof.
  unfold after_prefetch.
  destruct (Iter_next iter) as [n|]; [| done].
  destruct (_ =? _); [| done].
  simpl. rewrite n_picks_app, n_executions_app.
  unfold n_picks, n_executions. simpl. split; [reflexivity | split; lia].
Qed.

(** The second half of [Scan] leaves the record of calls as the prefetch
    trigger left it, however it ends. *)
Lemma Scan_row_env (iter : Iter) (dest : list Dest) (e : Env World Conn)
      (h : Heap) :
  (state_of (Scan_row Unmarshal iter dest e h)).1.2 = after_prefetch iter e.
Proof.
  unfold Scan_row. fold (after_prefetch iter e).
  destruct (negb _); [reflexivity |].
  destruct (Scan_columns _ _ _ _ _ _) as [[er|] h'|h'|h']; reflexivity.
Qed.

(** X5: the end of the results.  On an iterator without error whose rows
    are used up and which has no continuation, every [Scan] returns [false]
    and changes nothing, however often it is called and whatever the
    destinations; [Close] returns nil. *)
Theorem Scan_at_end_of_results (fuel : nat) (iter : Iter)
        (e : Env World Conn) (h : Heap) (ds : list (list Dest)) :
  Iter_err iter = None ->
  Iter_pos iter >= len (Iter_rows iter) ->
  Iter_next iter = None ->
  Scan_calls node Unmarshal fuel ds iter e h
  = (replicate (length ds) false, Some (iter, e, h))
  /\ Close iter = None.
Proof.
  intros Herr Hpos Hnext. split; [| exact Herr].
  induction ds as [|d ds IH]; [reflexivity |].
  simpl.
  assert (Hs : Scan node Unmarshal fuel iter d e h = Returned false (iter, e, h)).
  { destruct fuel; simpl;
      rewrite Herr, Z.geb_leb, (proj2 (Z.leb_le _ _)), Hnext by lia;
      reflexivity. }
  rewrite Hs, IH. reflexivity.
Qed.

(** X6: a wrong number of destinations.  With a row left and no error, a
    [Scan] whose destinations are not as many as the columns returns
    [false], records the count-mismatch error, and neither moves the cursor
    nor touches a destination; from then on the iterator is stuck: every
    later [Scan], also one with the right number of destinations, returns
    [false] and changes nothing, and [Close] returns the count-mismatch
    error. *)
Theorem Scan_count_mismatch (fuel : nat) (iter : Iter) (dest : list Dest)
        (e : Env World Conn) (h : Heap) (more : list (list Dest)) :
  Iter_err iter = None ->
  Iter_pos iter < len (Iter_rows iter) ->
  length dest <> length (Iter_columns iter) ->
  let stuck := set_err iter (Some (errors_New "count mismatch")) in
  Scan node Unmarshal fuel iter dest e h
  = Returned false (stuck, after_prefetch iter e, h)
  /\ Iter_pos stuck = Iter_pos iter
  /\ Iter_rows stuck = Iter_rows iter
  /\ Close stuck = Some (errors_New "count mismatch")
  /\ Scan_calls node Unmarshal fuel more stuck (after_prefetch iter e) h
     = (replicate (length more) false,
        Some (stuck, after_prefetch iter e, h)).
Proof.
  intros Herr Hpos Hlen stuck.
  split.
  - rewrite (Scan_active node Unmarshal) by assumption.
    unfold Scan_row. fold (after_prefetch iter e).
    unfold len. rewrite (proj2 (Z.eqb_neq _ _)) by lia. reflexivity.
  - subst stuck. destruct iter as [er p r c n]. simpl.
    split; [reflexivity |]. split; [reflexivity |]. split; [reflexivity |].
    apply (Scan_calls_errored node Unmarshal fuel _ _ _
             (errors_New "count mismatch")).
    reflexivity.
Qed.

(** The column loop with nothing but nil destinations: no cell is read, no
    destination written. *)
Lemma Scan_columns_all_nil (iter : Iter) (h : Heap) (n : nat) :
  forall k : nat,
    len (Iter_columns iter) <= max_int ->
    (k + n = length (Iter_columns iter))%nat ->
    Scan_columns Unmarshal n (Z.of_nat k) iter
                 (replicate (length (Iter_columns iter)) None) h
    = Returned None h.
Proof.
  induction n as [|n IH]; intros k Hmax Hn.
  - simpl. unfold len. rewrite (proj2 (Z.ltb_ge _ _)) by lia. reflexivity.
  - simpl. unfold len in *. rewrite (proj2 (Z.ltb_lt _ _)) by lia.
    rewrite index_of_nat, lookup_replicate_2 by lia.
    rewrite (incr_of_nat k) by lia. apply IH; [exact Hmax | lia].
Qed.

(** X7: nil destinations skip their columns.  A [Scan] with one nil
    destination per column consumes the row whatever the row holds, even a
    row with fewer cells than there are columns: it returns [true], moves the
    cursor on by one, and neither reads a cell nor writes a destination. *)
Theorem Scan_nil_destinations (fuel : nat) (iter : Iter)
        (e : Env World Conn) (h : Heap) :
  Iter_err iter = None ->
  0 <= Iter_pos iter < len (Iter_rows iter) ->
  len (Iter_rows iter) <= max_int ->
  len (Iter_columns iter) <= max_int ->
  Scan node Unmarshal fuel iter
       (replicate (length (Iter_columns iter)) None) e h
  = Returned true
      (set_pos iter (Iter_pos iter + 1), after_prefetch iter e, h).
Proof.
  intros Herr Hpos Hrmax Hcmax.
  rewrite (Scan_active node Unmarshal) by (assumption || lia).
  unfold Scan_row. fold (after_prefetch iter e).
  unfold len at 1 2. rewrite length_replicate, Z.eqb_refl. simpl negb.
  cbv iota.
  pose proof (Scan_columns_all_nil iter h (length (Iter_columns iter)) 0
                Hcmax eq_refl) as Hcols.
  change (Z.of_nat 0) with 0 in Hcols. rewrite Hcols.
  rewrite incr_below_max; [reflexivity |].
  assert (min_int <= 0) by (vm_compute; discriminate). lia.
Qed.

(** X8: the continuation is fetched once.  If the first [fetch] on a handle
    returns, then [k+1] callers in a row are all handed the same iterator
    (the same nil, too), the handle ends marked as done, and the record of
    calls and the network are as the first caller left them: the callers
    after the first ask nothing of the pool. *)
Theorem fetch_runs_the_query_once (fuel k : nat) (n n1 : nextIter)
        (r : option Iter) (e e1 : Env World Conn) :
  fetch node fuel n e = Returned (r, n1) e1 ->
  fetch_calls node fuel (S k) n e = (replicate (S k) r, Some (n1, e1))
  /\ nextIter_once n1 = true
  /\ nextIter_next n1 = r
  /\ (nextIter_once n = false ->
      executeQuery node fuel (nextIter_qry n) e = Returned r e1)
  /\ (nextIter_once n = true -> e1 = e).
Proof.
  intros Hfetch.
  assert (Hlatch : forall e2, fetch node fuel n1 e2 = Returned (r, n1) e2
                              /\ nextIter_once n1 = true
                              /\ nextIter_next n1 = r).
  { intros e2. revert Hfetch. unfold fetch.
    destruct (nextIter_once n) eqn:Hn.
    - intros [= <- <- <-]. rewrite Hn. done.
    - destruct (executeQuery node fuel (nextIter_qry n) e) as [r1 e1'| |];
        try discriminate.
      intros [= <- <- <-]. done. }
  split; [| split; [apply (Hlatch e) | split; [apply (Hlatch e) |]]].
  - simpl. rewrite Hfetch.
    assert (Hrest : forall j, fetch_calls node fuel j n1 e1
                              = (replicate j r, Some (n1, e1))).
    { induction j as [|j IHj]; [reflexivity |].
      simpl. rewrite (proj1 (Hlatch e1)), IHj. reflexivity. }
    rewrite Hrest. reflexivity.
  - revert Hfetch. unfold fetch. split; intros Hn; rewrite Hn in Hfetch.
    + destruct (executeQuery node fuel (nextIter_qry n) e) as [r1 e1'| |];
        try discriminate.
      injection Hfetch as <- _ <-. reflexivity.
    + injection Hfetch as _ _ <-. reflexivity.
Qed.

Lemma wf_Iter_set_err (iter : Iter) (er : option error) :
  wf_Iter iter -> wf_Iter (set_err iter er).
Proof. destruct iter. simpl. tauto. Qed.

Lemma wf_Iter_advance (iter : Iter) :
  wf_Iter iter -> Iter_pos iter < len (Iter_rows iter) ->
  wf_Iter (set_pos iter (incr (Iter_pos iter))).
Proof.
  destruct iter as [er p r c n]. simpl. intros (Hp & Hmax & Hn) Hlt.
  rewrite incr_below_max.
  - split; [lia | split; [exact Hmax | exact Hn]].
  - assert (min_int <= 0) by (vm_compute; discriminate). lia.
Qed.

Lemma Scan_row_wf (iter : Iter) (dest : list Dest) (e : Env World Conn)
      (h : Heap) :
  wf_Iter iter -> Iter_pos iter < len (Iter_rows iter) ->
  wf_Iter (state_of (Scan_row Unmarshal iter dest e h)).1.1.
Proof.
  intros Hwf Hlt. unfold Scan_row.
  destruct (negb _); [apply wf_Iter_set_err; exact Hwf |].
  destruct (Scan_columns _ _ _ _ _ _) as [[er|] h'|h'|h']; simpl;
    auto using wf_Iter_set_err, wf_Iter_advance.
Qed.

Section WellFormedPages.
(** The connections hand back pages whose cursor lies within their rows. *)
Hypothesis connections_wf :
  forall c q w, wf_Iter (conn_executeQuery node c q w).1.

Lemma executeQuery_loop_wf (q : Query) (fuel : nat) :
  forall (itr : option Iter) (count : Z) (e : Env World Conn)
         (it : Iter) (e' : Env World Conn),
    (forall it0, itr = Some it0 -> wf_Iter it0) ->
    executeQuery_loop node fuel q itr count e = Returned (Some it) e' ->
    wf_Iter it.
Proof.
  induction fuel as [|fuel IH]; intros itr count e it e' Hitr; simpl;
    destruct (count <=? _); try discriminate;
    try (intros [= -> _]; apply Hitr; reflexivity).
  unfold do_Pick, do_executeQuery.
  destruct (Pick node (world e)) as [[c|] w1]; simpl.
  - pose proof (connections_wf c q w1) as Hc.
    destruct (conn_executeQuery node c q w1) as [it1 w2]; simpl in *.
    destruct (Iter_err it1).
    + apply IH. intros it0 [= <-]. exact Hc.
    + intros [= <- _]. exact Hc.
  - intros [= <- _]. simpl. unfold len. simpl.
    assert (0 <= max_int) by (vm_compute; discriminate). lia.
Qed.

(** X9: the cursor never leaves the rows.  If the cursor of an iterator
    lies within its rows, it still does after a [Scan], however the call
    ends and through any number of page changes, provided the pages the
    connections hand back are such themselves. *)
Theorem Scan_keeps_cursor_within_rows (fuel : nat) :
  forall (iter : Iter) (dest : list Dest) (e : Env World Conn) (h : Heap),
    wf_Iter iter ->
    wf_Iter (state_of (Scan node Unmarshal fuel iter dest e h)).1.1.
Proof.
  induction fuel as [|fuel IH]; intros iter dest e h Hwf; simpl;
    destruct (Iter_err iter); try exact Hwf;
    destruct (Iter_pos iter >=? len (Iter_rows iter)) eqn:Hge;
    try (apply Scan_row_wf; [exact Hwf | rewrite Z.geb_leb in Hge;
                                            apply Z.leb_gt in Hge; exact Hge]);
    destruct (Iter_next iter) as [n|] eqn:Hn; try exact Hwf.
  unfold fetch. destruct (nextIter_once n) eqn:Honce.
  - destruct (nextIter_next n) as [it'|] eqn:Hit'; [| exact Hwf].
    apply IH. destruct iter as [er p r c nx]. simpl in Hn. subst nx.
    destruct n as [q p2 o nn]. simpl in Hit'. subst nn.
    simpl in Hwf. tauto.
  - destruct (executeQuery node fuel (nextIter_qry n) e) as [[it'|] e1|e1|e1]
      eqn:Hq; try exact Hwf.
    apply IH. unfold executeQuery in Hq.
    eapply executeQuery_loop_wf; [| exact Hq]. discriminate.
Qed.

End WellFormedPages.

(** [Scan] calls one after the other. *)
Lemma Scan_calls_app (fuel : nat) (ds1 ds2 : list (list Dest)) :
  forall (iter : Iter) (e : Env World Conn) (h : Heap),
    Scan_calls node Unmarshal fuel (ds1 ++ ds2) iter e h
    = match Scan_calls node Unmarshal fuel ds1 iter e h with
      | (bs1, Some (iter1, e1, h1)) =>
          let '(bs2, st) := Scan_calls node Unmarshal fuel ds2 iter1 e1 h1 in
          (bs1 ++ bs2, st)
      | (bs1, None) => (bs1, None)
      end.
Proof.
  induction ds1 as [|d ds1 IH]; intros iter e h; simpl.
  - destruct (Scan_calls _ _ _ ds2 _ _ _). reflexivity.
  - destruct (Scan node Unmarshal fuel iter d e h) as [b [[it1 e1] h1]| |];
      try reflexivity.
    rewrite IH.
    destruct (Scan_calls _ _ _ ds1 _ _ _) as [bs1 [[[it2 e2] h2]|]];
      [| reflexivity].
    destruct (Scan_calls _ _ _ ds2 _ _ _). reflexivity.
Qed.

(** Calls on rows that decode ask nothing of the pool. *)
Lemma Scan_calls_decode_quiet (fuel : nat) (rows : list (list bytes))
      (cols : list ColumnInfo) (nxt : option nextIter)
      (ds : list (list Dest)) :
  forall (p : nat) (e : Env World Conn) (h : Heap),
    len rows <= max_int -> len cols <= max_int ->
    (forall j d, ds !! j = Some d ->
                 exists row, rows !! (p + j)%nat = Some row
                             /\ row_decodes Unmarshal cols row d) ->
    exists e1 h1,
      Scan_calls node Unmarshal fuel ds
                 (mkIter None (Z.of_nat p) rows cols nxt) e h
      = (replicate (length ds) true,
         Some (mkIter None (Z.of_nat (p + length ds)) rows cols nxt, e1, h1))
      /\ world e1 = world e
      /\ n_picks (calls e1) = n_picks (calls e)
      /\ n_executions (calls e1) = n_executions (calls e).
Proof.
  induction ds as [|d ds IH]; intros p e h Hrmax Hcmax Hok.
  - exists e, h. simpl. rewrite Nat.add_0_r. done.
  - destruct (Hok 0%nat d eq_refl) as (row & Hrow & Hdec).
    rewrite Nat.add_0_r in Hrow.
    destruct (Scan_row_decodes node Unmarshal fuel rows cols nxt p row d e h)
      as (e1 & h1 & Hrun); auto.
    assert (He1 : e1 = after_prefetch (mkIter None (Z.of_nat p) rows cols nxt) e).
    { pose proof (Scan_row_env (mkIter None (Z.of_nat p) rows cols nxt) d e h)
        as Henv.
      rewrite <- (Scan_active node Unmarshal fuel) in Henv.
      - rewrite Hrun in Henv. exact Henv.
      - reflexivity.
      - simpl. apply lookup_lt_Some in Hrow. unfold len. lia. }
    destruct (after_prefetch_world (mkIter None (Z.of_nat p) rows cols nxt) e)
      as (Hw & Hp & Hx).
    rewrite <- He1 in Hw, Hp, Hx.
    destruct (IH (S p) e1 h1) as (e2 & h2 & Hrest & Hw2 & Hp2 & Hx2); auto.
    { intros j d' Hd'. destruct (Hok (S j) d' Hd') as (row' & Hrow' & Hdec').
      exists row'. split; [| exact Hdec'].
      rewrite <- Hrow'. f_equal. lia. }
    exists e2, h2. simpl. rewrite Hrun, Hrest.
    replace (S p + length ds)%nat with (p + S (length ds))%nat by lia.
    split; [reflexivity |]. split; [congruence | split; congruence].
Qed.

(** [Scan] at the end of a page whose continuation has not been fetched
    and whose query succeeds at the first attempt: the next page takes the
    place of the iterator and the call goes on there. *)
Lemma Scan_turns_the_page (fuel : nat) (iter page2 : Iter) (n : nextIter)
      (dest : list Dest) (e : Env World Conn) (h : Heap) :
  Iter_err iter = None ->
  Iter_pos iter >= len (Iter_rows iter) ->
  Iter_next iter = Some n -> nextIter_once n = false ->
  0 <= NumRetries (rt (nextIter_qry n)) ->
  query_result node (nextIter_qry n) (world e) 0 = Some page2 ->
  Iter_err page2 = None ->
  exists e2,
    Scan node Unmarshal (S (S fuel)) iter dest e h
    = Scan node Unmarshal (S fuel) page2 dest e2 h
    /\ world e2 = snd (query_attempt node (nextIter_qry n) (world e))
    /\ n_picks (calls e2) = (n_picks (calls e) + 1)%nat
    /\ n_executions (calls e2) = (n_executions (calls e) + 1)%nat.
Proof.
  intros Herr Hpos Hnext Honce HN Hres Hok.
  destruct (executeQuery_loop_succeeds node fuel (nextIter_qry n) None 0 e)
    as (it & e2 & Hrun & Hres' & _ & Hw & Hp & Hx); [lia | |].
  { unfold query_kind. unfold query_result in Hres. rewrite Hres, Hok.
    reflexivity. }
  rewrite Hres in Hres'. injection Hres' as <-.
  exists e2. split; [| auto].
  cbn [Scan]. rewrite Herr, Z.geb_leb, (proj2 (Z.leb_le _ _)), Hnext by lia.
  unfold fetch, executeQuery. rewrite Honce, Hrun. reflexivity.
Qed.

(** X10: two pages in a row.  Let a first page and the page its
    continuation fetches (at the first attempt) hold rows that all decode.
    Then as many [Scan] calls as there are rows in both pages return [true],
    first-page rows before second-page rows, the call after them returns
    [false] with no error to report, and the pool was asked for a connection
    exactly once, for the one execution that fetched the second page. *)
Theorem Scan_walks_two_pages (fuel : nat) (rows1 rows2 : list (list bytes))
        (cols1 cols2 : list ColumnInfo) (q2 : Query) (p2 : Z)
        (ds1 ds2 : list (list Dest)) (d : list Dest)
        (e : Env World Conn) (h : Heap) :
  let page1 :=
    mkIter None 0 rows1 cols1 (Some (mkNextIter q2 p2 false None)) in
  let page2 := mkIter None 0 rows2 cols2 None in
  len rows1 <= max_int -> len cols1 <= max_int ->
  len rows2 <= max_int -> len cols2 <= max_int ->
  length ds1 = length rows1 -> length ds2 = length rows2 ->
  (forall j dj, ds1 !! j = Some dj ->
                exists rowj, rows1 !! j = Some rowj
                             /\ row_decodes Unmarshal cols1 rowj dj) ->
  (forall j dj, ds2 !! j = Some dj ->
                exists rowj, rows2 !! j = Some rowj
                             /\ row_decodes Unmarshal cols2 rowj dj) ->
  0 <= NumRetries (rt q2) ->
  query_result node q2 (world e) 0 = Some page2 ->
  exists e' h',
    Scan_calls node Unmarshal (S (S fuel)) (ds1 ++ ds2 ++ [d]) page1 e h
    = (replicate (length rows1 + length rows2) true ++ [false],
       Some (mkIter None (Z.of_nat (length rows2)) rows2 cols2 None, e', h'))
    /\ Close (mkIter None (Z.of_nat (length rows2)) rows2 cols2 None) = None
    /\ n_picks (calls e') = (n_picks (calls e) + 1)%nat
    /\ n_executions (calls e') = (n_executions (calls e) + 1)%nat.
Proof.
  intros page1 page2 Hr1 Hc1 Hr2 Hc2 Hl1 Hl2 Hok1 Hok2 HN Hres.
  destruct (Scan_calls_decode_quiet (S (S fuel)) rows1 cols1
              (Some (mkNextIter q2 p2 false None)) ds1 0 e h)
    as (e1 & h1 & Hfirst & Hw1 & Hp1 & Hx1); auto.
  change (Z.of_nat 0) with 0 in Hfirst. rewrite Nat.add_0_l, Hl1 in Hfirst.
  fold page1 in Hfirst.
  rewrite Scan_calls_app, Hfirst.
  set (end1 := mkIter None (Z.of_nat (length rows1)) rows1 cols1
                      (Some (mkNextIter q2 p2 false None))).
  assert (Hturn : forall dest,
             exists e2,
               Scan node Unmarshal (S (S fuel)) end1 dest e1 h1
               = Scan node Unmarshal (S fuel) page2 dest e2 h1
               /\ n_picks (calls e2) = (n_picks (calls e) + 1)%nat
               /\ n_executions (calls e2) = (n_executions (calls e) + 1)%nat).
  { intros dest.
    destruct (Scan_turns_the_page fuel end1 page2
                (mkNextIter q2 p2 false None) dest e1 h1)
      as (e2 & Hscan & _ & Hp2 & Hx2); try reflexivity.
    - simpl. unfold len. lia.
    - exact HN.
    - simpl. rewrite Hw1. exact Hres.
    - exists e2. split; [exact Hscan | split; congruence]. }
  assert (Hend : forall fuel' e2 h2,
             Scan node Unmarshal fuel'
                  (mkIter None (Z.of_nat (length rows2)) rows2 cols2 None)
                  d e2 h2
             = Returned false
                 (mkIter None (Z.of_nat (length rows2)) rows2 cols2 None,
                  e2, h2)).
  { intros fuel' e2 h2.
    destruct fuel'; simpl; unfold len;
      rewrite Z.geb_leb, (proj2 (Z.leb_le _ _)) by lia; reflexivity. }
  destruct ds2 as [|d2 ds2].
  - simpl in Hl2. destruct rows2; [| discriminate].
    cbn [app Scan_calls].
    destruct (Hturn d) as (e2 & Hscan & Hp2 & Hx2).
    rewrite Hscan.
    change (Scan node Unmarshal (S fuel) page2 d e2 h1)
      with (Scan node Unmarshal (S fuel)
                 (mkIter None (Z.of_nat (@length (list bytes) [])) [] cols2 None)
                 d e2 h1).
    rewrite Hend. exists e2, h1. cbn [length]. rewrite Nat.add_0_r. done.
  - destruct (Hok2 0%nat d2 eq_refl) as (row0 & Hrow0 & Hdec0).
    destruct (Hturn d2) as (e2 & Hscan & Hp2 & Hx2).
    destruct (Scan_row_decodes node Unmarshal (S fuel) rows2 cols2 None 0
                row0 d2 e2 h1) as (e3 & h3 & Hrun3); auto.
    change (Z.of_nat 0) with 0 in Hrun3. fold page2 in Hrun3.
    assert (He3 : e3 = after_prefetch page2 e2).
    { pose proof (Scan_row_env page2 d2 e2 h1) as Henv.
      rewrite <- (Scan_active node Unmarshal (S fuel)) in Henv.
      - rewrite Hrun3 in Henv. exact Henv.
      - reflexivity.
      - simpl. apply lookup_lt_Some in Hrow0. unfold len. lia. }
    destruct (after_prefetch_world page2 e2) as (_ & Hp3 & Hx3).
    rewrite <- He3 in Hp3, Hx3.
    destruct (Scan_calls_decode_quiet (S (S fuel)) rows2 cols2 None ds2 1
                e3 h3) as (e4 & h4 & Hrest & _ & Hp4 & Hx4); auto.
    simpl in Hl2.
    replace (1 + length ds2)%nat with (length rows2) in Hrest by lia.
    cbn [app Scan_calls]. rewrite Hscan, Hrun3.
    change (Z.of_nat 1) with (Z.of_nat 1) in Hrest.
    rewrite Scan_calls_app, Hrest. cbn [Scan_calls]. rewrite Hend.
    exists e4, h4. split.
    + rewrite <- Hl2. simpl.
      rewrite replicate_add. simpl. rewrite <- app_assoc. reflexivity.
    + split; [reflexivity | split; congruence].
Qed.

(** X11: [Query.Scan].  Whatever iterator the dispatcher comes back with:
    if it holds an error, that error is returned; if it holds no row,
    [ErrNotFound] is returned, also when a continuation is pending; in both
    cases no destination is written and nothing more is asked of the pool.
    If its first row decodes into the destinations, the result is nil. *)
Theorem Query_Scan_outcomes (fuel : nat) (q : Query) (dest : list Dest)
        (e e1 : Env World Conn) (h : Heap) (iter : Iter) :
  executeQuery node fuel q e = Returned (Some iter) e1 ->
  (forall er, Iter_err iter = Some er ->
     Query_Scan node Unmarshal fuel q dest e h = Returned (Some er) (e1, h))
  /\ (Iter_err iter = None -> Iter_rows iter = [] ->
      Query_Scan node Unmarshal fuel q dest e h
      = Returned (Some ErrNotFound) (e1, h))
  /\ (forall row rows cols nxt,
        iter = mkIter None 0 (row :: rows) cols nxt ->
        len (row :: rows) <= max_int -> len cols <= max_int ->
        row_decodes Unmarshal cols row dest ->
        exists h',
          Query_Scan node Unmarshal fuel q dest e h
          = Returned None (after_prefetch iter e1, h')).
Proof.
  intros Hq. unfold Query_Scan, Query_Iter. rewrite Hq.
  split; [| split].
  - intros er Her. rewrite Her. reflexivity.
  - intros Herr Hrows. rewrite Herr, Hrows. reflexivity.
  - intros row rows cols nxt -> Hrmax Hcmax Hdec.
    destruct (Scan_row_decodes node Unmarshal fuel (row :: rows) cols nxt 0
                row dest e1 h) as (e2 & h2 & Hrun); auto.
    change (Z.of_nat 0) with 0 in Hrun.
    assert (He2 : e2 = after_prefetch (mkIter None 0 (row :: rows) cols nxt) e1).
    { pose proof (Scan_row_env (mkIter None 0 (row :: rows) cols nxt) dest e1 h)
        as Henv.
      rewrite <- (Scan_active node Unmarshal fuel) in Henv.
      - rewrite Hrun in Henv. exact Henv.
      - reflexivity.
      - simpl. unfold len. simpl. lia. }
    cbn [Iter_err Iter_rows]. unfold len at 1. cbn [length].
    rewrite (proj2 (Z.eqb_neq _ _)) by lia.
    rewrite Hrun. subst e2. exists h2. reflexivity.
Qed.

End IterMore.

(** ** Consistency names, once more *)

Section ConsistencyMore.
Import GoInt Consistency.

Lemma consinstencyNames_NoDup : NoDup consinstencyNames.
Proof.
  apply (@bool_decide_unpack _ (NoDup_dec consinstencyNames)).
  vm_compute. exact I.
Qed.

(** X12: [Consistency.String] panics with an index out of range exactly on
    the values below 0 and above [LocalSerial], and on the values it serves
    no two levels share a name, so a name determines its level. *)
Theorem String_names_are_distinct :
  (forall c, String c = None <-> c < 0 \/ c > LocalSerial)
  /\ (forall c1 c2 nm, String c1 = Some nm -> String c2 = Some nm -> c1 = c2).
Proof.
  split.
  - intros c. pose proof (String_defined c) as Hdef.
    destruct (String c) as [nm|] eqn:Hs.
    + split; [discriminate |]. intros Hout.
      assert (His : is_Some (Some nm)) by eauto.
      apply Hdef in His. lia.
    + split; [| reflexivity]. intros _.
      destruct (decide (0 <= c <= LocalSerial)) as [Hin|Hout]; [| lia].
      apply Hdef in Hin. destruct Hin as [x Hx]. discriminate.
  - intros c1 c2 nm H1 H2. unfold String in *.
    apply index_Some in H1 as [Hc1 H1]. apply index_Some in H2 as [Hc2 H2].
    pose proof (NoDup_lookup _ _ _ _ consinstencyNames_NoDup H1 H2). lia.
Qed.

(** The names of [Quorum] and of a value past the table. *)
Lemma String_names_are_distinct_witness :
  (String 11 = None <-> 11 < 0 \/ 11 > LocalSerial)
  /\ Quorum = 5.
Proof.
  destruct String_names_are_distinct as [Hrange Hinj].
  split; [apply Hrange |].
  apply (Hinj Quorum 5 "quorum"); reflexivity.
Defined.

End ConsistencyMore.

(** ** Batches *)

Section BatchMore.
Import GoInt Session SessionAPI.
Context {World Conn : Type} (node : Node World Conn).

Lemma Batch_Query_all_fields (stmts : list (string * list Value)) :
  forall b : Batch,
    Entries (Batch_Query_all b stmts)
    = Entries b ++ ((fun sa => {| Stmt := sa.1; Args := sa.2 |}) <$> stmts)
    /\ Type_ (Batch_Query_all b stmts) = Type_ b
    /\ Cons (Batch_Query_all b stmts) = Cons b
    /\ batch_rt (Batch_Query_all b stmts) = batch_rt b.
Proof.
  induction stmts as [|sa stmts IH]; intros b.
  - simpl. rewrite app_nil_r. done.
  - unfold Batch_Query_all in *. simpl foldl.
    destruct (IH (Batch_Query b sa.1 sa.2)) as (He & Ht & Hc & Hr).
    rewrite He, Ht, Hc, Hr. simpl. rewrite <- app_assoc. done.
Qed.

(** X13: building a batch.  After any number of [Query] calls on a new
    batch its entries are the statements given, in call order, and type and
    retry policy are as at creation; [ExecuteBatch] turns the batch down,
    asking nothing of the pool, exactly when more than 65536 statements were
    added. *)
Theorem Batch_Query_collects_in_order (typ : BatchType) (r : RetryPolicy)
        (stmts : list (string * list Value)) (e : Env World Conn)
        (fuel : nat) :
  let b := Batch_Query_all (Session_NewBatch r typ) stmts in
  Entries b = (fun sa => {| Stmt := sa.1; Args := sa.2 |}) <$> stmts
  /\ Type_ b = typ /\ batch_rt b = r
  /\ ExecuteBatch node fuel b e
     = if 65536 <? Z.of_nat (length stmts)
       then Returned (Some ErrTooManyStmts) e
       else ExecuteBatch_loop node fuel b None 0 e.
Proof.
  intros b. subst b.
  destruct (Batch_Query_all_fields stmts (Session_NewBatch r typ))
    as (He & Ht & _ & Hr).
  simpl in He, Ht, Hr. split; [exact He |]. split; [exact Ht |].
  split; [exact Hr |].
  destruct (65536 <? Z.of_nat (length stmts)) eqn:Hn.
  - apply Z.ltb_lt in Hn. apply ExecuteBatch_large.
    unfold len. rewrite He, length_fmap. lia.
  - apply Z.ltb_ge in Hn. apply ExecuteBatch_small.
    unfold len. rewrite He, length_fmap. lia.
Qed.

(** X14: a batch from the package-level [NewBatch] is tried once.  Its
    retry policy is the zero value, so whatever is added to it (within the
    size limit) [ExecuteBatch] makes one pick and returns what the one
    attempt gave: its error or success, or [ErrUnavailable] if there was no
    connection. *)
Theorem NewBatch_is_tried_once (typ : BatchType)
        (stmts : list (string * list Value)) (e : Env World Conn)
        (fuel : nat) :
  Z.of_nat (length stmts) <= 65536 ->
  let b := Batch_Query_all (NewBatch typ) stmts in
  exists e',
    ExecuteBatch node (S fuel) b e
    = Returned match batch_result node b (world e) 0 with
               | Some r => r
               | None => Some ErrUnavailable
               end e'
    /\ world e' = snd (batch_attempt node b (world e))
    /\ n_picks (calls e') = (n_picks (calls e) + 1)%nat
    /\ (n_executions (calls e') <= n_executions (calls e) + 1)%nat.
Proof.
  intros Hlen b.
  destruct (Batch_Query_all_fields stmts (NewBatch typ)) as (He & _ & _ & Hr).
  fold b in He, Hr. simpl in He, Hr.
  rewrite ExecuteBatch_small by (unfold len; rewrite He, length_fmap; lia).
  unfold batch_result, batch_attempt. cbn [ExecuteBatch_loop world_after].
  rewrite Hr. cbn [NumRetries]. simpl (0 <=? 0). cbv iota.
  unfold do_Pick, do_executeBatch.
  destruct (Pick node (world e)) as [[c|] w1]; simpl.
  - destruct (conn_executeBatch node c b w1) as [[er|] w2]; simpl.
    + eexists. split.
      * destruct fuel; simpl; rewrite Hr; reflexivity.
      * simpl. rewrite !n_picks_app, !n_executions_app.
        unfold n_picks, n_executions. simpl. split; [reflexivity | lia].
    + eexists. split; [reflexivity |].
      simpl. rewrite !n_picks_app, !n_executions_app.
      unfold n_picks, n_executions. simpl. split; [reflexivity | lia].
  - eexists. split; [reflexivity |].
    simpl. rewrite !n_picks_app, !n_executions_app.
    unfold n_picks, n_executions. simpl. split; [reflexivity | lia].
Qed.

End BatchMore.

(** ** The debouncer over many windows, and the routing of frames *)

Section DebouncerMore.
Import GoInt Events EventsAPI.

Lemma timer_fired_cases (e : eventDebouncer) :
  (events e = [] /\ events (timer_fired e).1 = [] /\ (timer_fired e).2 = [])
  \/ (events e <> [] /\ events (timer_fired e).1 = []
      /\ (timer_fired e).2 = [go_callback (events e)]).
Proof.
  unfold timer_fired, flush, len. simpl.
  destruct (events e) as [|f fs]; [left; done |].
  right. simpl. done.
Qed.

Lemma debounce_cases (e : eventDebouncer) (f : frame) :
  (length (events e) <= 1000)%nat ->
  ((length (events e) < 1000)%nat
   /\ events (debounce e f).1 = events e ++ [f]
   /\ delivered (debounce e f).2 = []
   /\ filter is_drop_log (debounce e f).2 = [])
  \/ (length (events e) = 1000%nat
      /\ events (debounce e f).1 = events e
      /\ delivered (debounce e f).2 = []
      /\ filter is_drop_log (debounce e f).2 = [drop_log (name e) f]).
Proof.
  intros He. destruct (decide (length (events e) < 1000)%nat) as [Hlt|Hge].
  - left. rewrite (debounce_room e f Hlt). done.
  - right. rewrite (debounce_full e f) by lia. split; [lia | done].
Qed.

(** Over any run of arrivals and timer firings, from a buffer within the
    bound. *)
Lemma run_debouncer_accounts (steps : list debouncer_step) :
  forall e : eventDebouncer,
    (length (events e) <= 1000)%nat ->
    let r := run_debouncer e steps in
    Forall (fun batch => (1 <= length batch <= 1000)%nat) (delivered r.2)
    /\ (length (events r.1) <= 1000)%nat
    /\ (length (concat (delivered r.2)) + length (events r.1)
        + length (filter is_drop_log r.2)
        = length (events e) + length (arrivals steps))%nat
    /\ concat (delivered r.2) ++ events r.1
       `sublist_of` events e ++ arrivals steps
    /\ (filter is_drop_log r.2 = [] ->
        concat (delivered r.2) ++ events r.1 = events e ++ arrivals steps).
Proof.
  induction steps as [|st steps IH]; intros e He.
  - simpl. rewrite app_nil_r. split; [constructor |].
    split; [exact He |]. split; [lia |]. done.
  - cbn [run_debouncer]. destruct st as [f|].
    + pose proof (debounce_cases e f He) as Hd.
      destruct (debounce e f) as [e1 out1]. simpl in Hd.
      assert (He1 : (length (events e1) <= 1000)%nat).
      { destruct Hd as [(Hlt & Hev & _)|(Hfull & Hev & _)]; rewrite Hev;
          [rewrite length_app; simpl; lia | lia]. }
      specialize (IH e1 He1).
      destruct (run_debouncer e1 steps) as [e2 out2]. simpl in IH |- *.
      destruct IH as (Hall & Hlen & Hsum & Hsub & Heq).
      rewrite delivered_app, filter_app, length_app.
      replace (arrivals (Arrive f :: steps)) with (f :: arrivals steps)
        by reflexivity.
      destruct Hd as [(Hlt & Hev & Hdel & Hdrop)|(Hfull & Hev & Hdel & Hdrop)];
        rewrite Hdel, Hdrop; rewrite Hev in Hsum, Hsub, Heq; simpl.
      * rewrite length_app in Hsum. simpl in Hsum.
        rewrite <- app_assoc in Hsub, Heq. simpl in Hsub, Heq.
        repeat split; auto; lia.
      * split; [exact Hall |]. split; [exact Hlen |]. split; [lia |].
        split; [| discriminate].
        etransitivity; [exact Hsub |].
        apply sublist_app; [reflexivity | apply sublist_cons; reflexivity].
    + pose proof (timer_fired_cases e) as Hf.
      destruct (timer_fired e) as [e1 out1]. simpl in Hf.
      assert (Hev1 : events e1 = []) by (destruct Hf as [H|H]; apply H).
      assert (He1 : (length (events e1) <= 1000)%nat)
        by (rewrite Hev1; simpl; lia).
      specialize (IH e1 He1).
      destruct (run_debouncer e1 steps) as [e2 out2]. simpl in IH |- *.
      destruct IH as (Hall & Hlen & Hsum & Hsub & Heq).
      rewrite Hev1 in Hsum, Hsub, Heq. simpl in Hsum, Hsub, Heq.
      rewrite delivered_app, filter_app, length_app.
      replace (arrivals (Fire :: steps)) with (arrivals steps) by reflexivity.
      destruct Hf as [(He0 & _ & ->)|(Hne & _ & ->)]; simpl.
      * rewrite He0. simpl. repeat split; auto.
      * split.
        { constructor; [| exact Hall].
          revert He Hne. destruct (events e); intros He Hne;
            [contradiction | simpl in *; lia]. }
        split; [exact Hlen |].
        rewrite length_app, <- app_assoc.
        split; [lia |]. split.
        -- apply sublist_app; [reflexivity | exact Hsub].
        -- intros Hnone. rewrite (Heq Hnone). reflexivity.
Qed.

(** X15: nothing is delivered twice, nothing out of order.  Over any run
    of arrivals and timer firings of a new debouncer, every batch handed to
    the callback holds between 1 and 1000 frames (an idle timer calls
    nothing); each frame that arrived was delivered, or is still buffered, or
    was dropped with a log line, and only one of the three; the frames
    delivered and buffered are in arrival order; and if no drop was logged
    they are all the frames that arrived. *)
Theorem debouncer_delivers_each_frame_once (nm : string)
        (steps : list debouncer_step) :
  let r := run_debouncer (newEventDebouncer nm) steps in
  Forall (fun batch => (1 <= length batch <= 1000)%nat) (delivered r.2)
  /\ (length (concat (delivered r.2)) + length (events r.1)
      + length (filter is_drop_log r.2)
      = length (arrivals steps))%nat
  /\ concat (delivered r.2) ++ events r.1 `sublist_of` arrivals steps
  /\ (filter is_drop_log r.2 = [] ->
      concat (delivered r.2) ++ events r.1 = arrivals steps).
Proof.
  intros r.
  destruct (run_debouncer_accounts steps (newEventDebouncer nm))
    as (Hall & _ & Hsum & Hsub & Heq); [simpl; lia |].
  fold r in Hall, Hsum, Hsub, Heq. simpl in Hsum, Hsub, Heq. auto.
Qed.

(** [handleEvent] on one parsed frame. *)
Lemma handleEvent_routes (dbg : bool) (sinks : EventSinks)
      (x : frame + error) :
  (length (events (schemaEvents sinks)) <= 1000)%nat ->
  (length (events (nodeEvents sinks)) <= 1000)%nat ->
  events (schemaEvents (handleEvent dbg sinks x).1)
  = take 1000 (events (schemaEvents sinks) ++ schema_frames [x])
  /\ events (nodeEvents (handleEvent dbg sinks x).1)
     = take 1000 (events (nodeEvents sinks) ++ node_frames [x])
  /\ delivered (handleEvent dbg sinks x).2 = [].
Proof.
  intros Hs Hn.
  assert (Hdeb : forall e f, (length (events e) <= 1000)%nat ->
            events (debounce e f).1 = take 1000 (events e ++ [f])
            /\ delivered (debounce e f).2 = []).
  { intros e f He. destruct (debounce_cases e f He)
      as [(Hlt & -> & Hd & _)|(Hfull & -> & Hd & _)].
    - rewrite take_ge by (rewrite length_app; simpl; lia). done.
    - rewrite take_app_le, take_ge by lia. done. }
  assert (Hid : forall l : list frame, (length l <= 1000)%nat ->
                                       take 1000 (l ++ []) = l)
    by (intros l Hl; rewrite app_nil_r, take_ge by lia; reflexivity).
  destruct x as [f|err]; [| simpl; rewrite !Hid by assumption; done].
  unfold handleEvent, schema_frames, node_frames.
  destruct f as [ks ch|ks|ks|ks|ks|c hst prt|c hst prt|tag];
    cbn [omap schema_keyspace].
  1-5: match goal with
       | |- context [debounce ?e ?f] =>
           destruct (Hdeb e f Hs) as [Hev Hd];
           destruct (debounce e f) as [d out]
       end;
       simpl in Hev, Hd |- *;
       (split; [exact Hev | split; [symmetry; apply Hid; assumption |]]);
       rewrite delivered_app, Hd; destruct dbg; reflexivity.
  1-2: match goal with
       | |- context [debounce ?e ?f] =>
           destruct (Hdeb e f Hn) as [Hev Hd];
           destruct (debounce e f) as [d out]
       end;
       simpl in Hev, Hd |- *;
       (split; [symmetry; apply Hid; assumption | split; [exact Hev |]]);
       rewrite delivered_app, Hd; destruct dbg; reflexivity.
  simpl. rewrite !Hid by assumption. destruct dbg; done.
Qed.

(** X16: routing.  Of a stream of parsed frames handed to [handleEvent],
    starting with empty buffers, the schema debouncer ends up holding the
    first 1000 schema frames in order and the node debouncer the first 1000
    topology and status frames in order; frames of the one kind never reach
    the buffer of the other, frames that did not parse and frames of any
    other kind reach neither, and [handleEvent] itself never calls a
    callback. *)
Theorem handleEvent_routes_by_kind (dbg : bool) (nm1 nm2 : string)
        (stream : list (frame + error)) :
  let r := handleEvents dbg
             {| schemaEvents := newEventDebouncer nm1;
                nodeEvents := newEventDebouncer nm2 |} stream in
  events (schemaEvents r.1) = take 1000 (schema_frames stream)
  /\ events (nodeEvents r.1) = take 1000 (node_frames stream)
  /\ delivered r.2 = [].
Proof.
  assert (Hgen : forall stream sinks,
    (length (events (schemaEvents sinks)) <= 1000)%nat ->
    (length (events (nodeEvents sinks)) <= 1000)%nat ->
    events (schemaEvents (handleEvents dbg sinks stream).1)
    = take 1000 (events (schemaEvents sinks) ++ schema_frames stream)
    /\ events (nodeEvents (handleEvents dbg sinks stream).1)
       = take 1000 (events (nodeEvents sinks) ++ node_frames stream)
    /\ delivered (handleEvents dbg sinks stream).2 = []).
  { clear stream. induction stream as [|x stream IH]; intros sinks Hs Hn.
    - simpl. rewrite !app_nil_r, !take_ge by lia. done.
    - cbn [handleEvents].
      destruct (handleEvent_routes dbg sinks x Hs Hn) as (Hs1 & Hn1 & Hd1).
      destruct (handleEvent dbg sinks x) as [sinks1 out1].
      simpl in Hs1, Hn1, Hd1.
      assert (Hs1' : (length (events (schemaEvents sinks1)) <= 1000)%nat)
        by (rewrite Hs1, length_take; lia).
      assert (Hn1' : (length (events (nodeEvents sinks1)) <= 1000)%nat)
        by (rewrite Hn1, length_take; lia).
      destruct (IH sinks1 Hs1' Hn1') as (Hs2 & Hn2 & Hd2).
      destruct (handleEvents dbg sinks1 stream) as [sinks2 out2].
      simpl in Hs2, Hn2, Hd2. cbn [fst snd].
      rewrite delivered_app, Hd1, Hd2, Hs2, Hn2, Hs1, Hn1.
      assert (Htake : forall (a b c : list frame),
                 (length a <= 1000)%nat ->
                 take 1000 (take 1000 (a ++ b) ++ c)
                 = take 1000 (a ++ (b ++ c))).
      { intros a b c Ha. rewrite app_assoc.
        destruct (decide (length (a ++ b) <= 1000)%nat) as [Hle|Hgt].
        - rewrite (take_ge (a ++ b)) by lia. reflexivity.
        - rewrite (take_app_le (a ++ b) c) by lia.
          rewrite take_app_le by (rewrite length_take; lia).
          rewrite take_take. f_equal; lia. }
      rewrite !Htake by assumption.
      assert (Hsf : schema_frames (x :: stream)
                    = schema_frames [x] ++ schema_frames stream)
        by (unfold schema_frames; apply (omap_app _ [x] stream)).
      assert (Hnf : node_frames (x :: stream)
                    = node_frames [x] ++ node_frames stream)
        by (unfold node_frames; apply (omap_app _ [x] stream)).
      rewrite Hsf, Hnf. done. }
  intros r. subst r.
  destruct (Hgen stream {| schemaEvents := newEventDebouncer nm1;
                           nodeEvents := newEventDebouncer nm2 |})
    as (H1 & H2 & H3); [simpl; lia | simpl; lia |].
  simpl in H1, H2. auto.
Qed.

End DebouncerMore.

(** ** Schema events *)

Section SchemaEventFacts.
Import Events EventsAPI.

Lemma handleSchemaEvent_cons (f : frame) (fs : list frame) :
  handleSchemaEvent (f :: fs) = handleSchemaFrame f ++ handleSchemaEvent fs.
Proof. reflexivity. Qed.

(** X17: schema events.  For a batch of frames [handleSchemaEvent] clears
    the cached schema once per schema frame, in batch order and without
    merging repeats, and reports to the policy exactly the keyspace-level
    changes, in batch order; each such report comes directly after the wait
    for schema agreement, which comes directly after the clearing of that
    keyspace. *)
Theorem handleSchemaEvent_effects (frames : list frame) :
  cleared (handleSchemaEvent frames) = omap schema_keyspace frames
  /\ reported (handleSchemaEvent frames) = omap keyspace_change frames
  /\ forall l1 l2 ks ch,
       handleSchemaEvent frames = l1 ++ policy_KeyspaceChanged ks ch :: l2 ->
       exists l0, l1 = l0 ++ [clearSchema ks; awaitSchemaAgreement].
Proof.
  split; [| split].
  - induction frames as [|f fs IH]; [reflexivity |].
    rewrite handleSchemaEvent_cons. unfold cleared in *.
    rewrite omap_app, IH. destruct f; reflexivity.
  - induction frames as [|f fs IH]; [reflexivity |].
    rewrite handleSchemaEvent_cons. unfold reported in *.
    rewrite omap_app, IH. destruct f; reflexivity.
  - induction frames as [|f fs IH]; intros l1 l2 ks ch Heq.
    + destruct l1; discriminate.
    + rewrite handleSchemaEvent_cons in Heq.
      assert (Hone : forall k l1,
                 clearSchema k :: handleSchemaEvent fs
                 = l1 ++ policy_KeyspaceChanged ks ch :: l2 ->
                 exists l0, l1 = l0 ++ [clearSchema ks; awaitSchemaAgreement]).
      { intros k l1' H. destruct l1' as [|a l1']; [discriminate |].
        injection H as <- H. destruct (IH _ _ _ _ H) as [l0 ->].
        exists (clearSchema k :: l0). reflexivity. }
      destruct f as [k c|k|k|k|k| | |]; simpl in Heq;
        try (apply (Hone k); exact Heq);
        try (apply IH with l2 ch; exact Heq).
      destruct l1 as [|a [|b [|c0 l1]]]; try discriminate.
      * inversion Heq; subst. exists []. reflexivity.
      * inversion Heq as [[Ha Hb Hc Htl]]; subst.
        destruct (IH _ _ _ _ Htl) as [l0 ->].
        exists (clearSchema k :: awaitSchemaAgreement
                  :: policy_KeyspaceChanged k c :: l0). reflexivity.
Qed.

(** Two changes of one keyspace and a table change, in one batch. *)
Lemma handleSchemaEvent_effects_witness :
  exists l0,
    [clearSchema "ks"; awaitSchemaAgreement; policy_KeyspaceChanged "ks" "CREATED";
     clearSchema "ks"; clearSchema "ks"; awaitSchemaAgreement]
    = l0 ++ [clearSchema "ks"; awaitSchemaAgreement].
Proof.
  destruct (handleSchemaEvent_effects
              [schemaChangeKeyspace "ks" "CREATED"; schemaChangeTable "ks";
               schemaChangeKeyspace "ks" "UPDATED"]) as (_ & _ & Hbefore).
  apply (Hbefore _ [] "ks" "UPDATED"). reflexivity.
Defined.

End SchemaEventFacts.

(** ** More on node events *)

Section NodeEventsMore.
Import GoInt Events EventsAPI.
Variable IP_String : IP -> string.
Variable gocqlDebug : bool.
Variable nodeUpDelay : HostInfo -> Z.
Variable range_order : gmap string nodeEvent -> list (string * nodeEvent).

Lemma only_set_down_refl (s : Session) : only_set_down s s.
Proof. unfold only_set_down. auto. Qed.

Lemma only_set_down_trans (s s1 s2 : Session) :
  only_set_down s s1 -> only_set_down s1 s2 -> only_set_down s s2.
Proof.
  intros (Hc1 & Hr1 & Hh1) (Hc2 & Hr2 & Hh2).
  split; [congruence |]. split; [congruence |].
  intros r. destruct (Hh2 r) as [->| ->]; destruct (Hh1 r) as [->| ->]; auto.
Qed.

Lemma handleNodeDown_only_sets_down (s : Session) (ip : IP) (port : Z) :
  only_set_down s (handleNodeDown IP_String gocqlDebug s ip port).1.
Proof.
  unfold handleNodeDown.
  destruct (ring s !! IP_String ip) as [host|]; [| apply only_set_down_refl].
  assert (Hset : only_set_down s (setState host NodeDown s)).
  { split; [reflexivity |]. split; [reflexivity |].
    intros r. simpl. destruct (r =? host) eqn:Hr; [| by left].
    apply Z.eqb_eq in Hr. subst r. by right. }
  destruct (filterHost _ _); exact Hset.
Qed.

Lemma dispatch_only_sets_down (s : Session) (ev : nodeEvent) :
  only_set_down s (dispatch IP_String gocqlDebug nodeUpDelay s ev).1
  /\ (DisableNodeStatusEvents (cfg_Events (cfg s)) = true ->
      (dispatch IP_String gocqlDebug nodeUpDelay s ev).1 = s).
Proof.
  unfold dispatch.
  pose proof (handleNodeDown_only_sets_down s (ev_host ev) (ev_port ev)) as Hd.
  destruct (handleNodeDown _ _ s _ _) as [sd outd].
  destruct (String.eqb (ev_change ev) "UP");
    [| destruct (String.eqb (ev_change ev) "DOWN")];
    destruct (DisableNodeStatusEvents _); simpl;
    split; try discriminate; try reflexivity;
    try apply only_set_down_refl; exact Hd.
Qed.

Lemma dispatch_all_only_sets_down (evs : list (string * nodeEvent)) :
  forall s : Session,
    only_set_down s (dispatch_all IP_String gocqlDebug nodeUpDelay s evs).1
    /\ (DisableNodeStatusEvents (cfg_Events (cfg s)) = true ->
        (dispatch_all IP_String gocqlDebug nodeUpDelay s evs).1 = s).
Proof.
  induction evs as [|kv evs IH]; intros s.
  - split; [apply only_set_down_refl | reflexivity].
  - simpl. destruct (dispatch_only_sets_down s kv.2) as [H1 H1'].
    destruct (dispatch _ _ _ s kv.2) as [s1 out1]. simpl in H1, H1'.
    destruct (IH s1) as [H2 H2'].
    destruct (dispatch_all _ _ _ s1 evs) as [s2 out2]. simpl in *.
    split; [eapply only_set_down_trans; eassumption |].
    intros Hdis. specialize (H1' Hdis). subst s1. exact (H2' Hdis).
Qed.

(** X18: what a batch of node events can do to the session.  Whatever the
    frames and whatever the order in which the map is walked,
    [handleNodeEvent] leaves the configuration and the ring as they are and
    every host either as it is or with its state set to Down: it never sets
    a host Up and never touches id or version; and the session is left
    exactly as it was when node status events are disabled. *)
Theorem handleNodeEvent_only_sets_hosts_down (s : Session)
        (frames : list frame) :
  let s' :=
    (handleNodeEvent IP_String gocqlDebug nodeUpDelay range_order s frames).1
  in
  cfg s' = cfg s /\ ring s' = ring s
  /\ (forall r, hosts s' r = hosts s r
                \/ hosts s' r = set_state NodeDown (hosts s r))
  /\ (if DisableNodeStatusEvents (cfg_Events (cfg s)) then s' = s else True).
Proof.
  intros s'. subst s'. unfold handleNodeEvent.
  destruct (collect IP_String frames) as [t m].
  destruct (dispatch_all_only_sets_down (range_order m) s)
    as [(Hc & Hr & Hh) Hdis].
  destruct (dispatch_all _ _ _ s (range_order m)) as [s1 out]. simpl in *.
  split; [exact Hc |]. split; [exact Hr |]. split; [exact Hh |].
  destruct (DisableNodeStatusEvents _); [apply Hdis; reflexivity | exact I].
Qed.

Lemma collect_without_status (fs : list frame) :
  forall (t : bool) (m : gmap string nodeEvent),
    existsb is_status_frame fs = false ->
    foldl (collect_frame IP_String) (t, m) fs
    = (t || existsb is_topology_frame fs, m).
Proof.
  induction fs as [|f fs IH]; intros t m Hno.
  - simpl. rewrite orb_false_r. reflexivity.
  - simpl in Hno. apply orb_false_elim in Hno as [Hf Hfs].
    cbn [foldl existsb].
    destruct f; try discriminate; cbn [collect_frame is_topology_frame];
      rewrite IH by exact Hfs; try reflexivity.
    rewrite orb_true_r. reflexivity.
Qed.

Lemma collect_topology_flag (fs : list frame) :
  forall (t : bool) (m : gmap string nodeEvent),
    (foldl (collect_frame IP_String) (t, m) fs).1
    = t || existsb is_topology_frame fs.
Proof.
  induction fs as [|f fs IH]; intros t m.
  - simpl. rewrite orb_false_r. reflexivity.
  - cbn [foldl existsb].
    destruct f; cbn [collect_frame is_topology_frame]; rewrite IH;
      try reflexivity.
    rewrite orb_true_r. reflexivity.
Qed.

Section WalkOrder.
Hypothesis range_order_perm : forall m, range_order m ≡ₚ map_to_list m.

(** X19: topology events.  A batch without status frames does one thing
    at most: if it holds a topology frame, however many, and topology events
    are not disabled, [handleNodeEvent] asks for one ring refresh, and
    otherwise it does nothing; the session is unchanged.  In any batch with a
    topology frame (topology events not disabled) that ring refresh is the
    first effect, ahead of every status handler. *)
Theorem handleNodeEvent_topology_refresh (s : Session) (frames : list frame) :
  let r :=
    handleNodeEvent IP_String gocqlDebug nodeUpDelay range_order s frames in
  (existsb is_status_frame frames = false ->
   r = (s, if existsb is_topology_frame frames
              && negb (DisableTopologyEvents (cfg_Events (cfg s)))
           then [debounceRingRefresh] else []))
  /\ (existsb is_topology_frame frames = true ->
      DisableTopologyEvents (cfg_Events (cfg s)) = false ->
      exists rest, r.2 = debounceRingRefresh :: rest
                   /\ rest = (dispatch_all IP_String gocqlDebug nodeUpDelay s
                                (range_order (collect IP_String frames).2)).2).
Proof.
  intros r. subst r. unfold handleNodeEvent. split.
  - intros Hno. unfold collect.
    rewrite (collect_without_status frames false ∅ Hno). simpl.
    assert (Hnil : range_order ∅ = []).
    { apply Permutation_nil_r. rewrite range_order_perm.
      rewrite map_to_list_empty. reflexivity. }
    rewrite Hnil. simpl. rewrite app_nil_r. reflexivity.
  - intros Htop Hen.
    pose proof (collect_topology_flag frames false ∅) as Hflag.
    fold (collect IP_String frames) in Hflag.
    destruct (collect IP_String frames) as [t m]. simpl in Hflag.
    rewrite Hflag, Htop, Hen. simpl.
    destruct (dispatch_all _ _ _ s (range_order m)) as [s1 out]. simpl.
    exists out. done.
Qed.

End WalkOrder.

End NodeEventsMore.

(** ** A host coming up, connecting and going down *)

Section HostLifeCycle.
Import GoInt Events EventsAPI.
Variable IP_String : IP -> string.
Variable gocqlDebug : bool.
Variable nodeUpDelay : HostInfo -> Z.
Variable ConnectAddress : HostInfo -> IP.
Variable Port : HostInfo -> Z.

Lemma actions_app (a b : list effect) :
  actions (a ++ b) = actions a ++ actions b.
Proof. unfold actions. apply filter_app. Qed.

Lemma actions_debug (fmt : string) (args : list LogArg) :
  actions (debug_Printf gocqlDebug fmt args) = [].
Proof. unfold debug_Printf. destruct gocqlDebug; reflexivity. Qed.

(** X20: an UP event for a known host, and the connection that follows.
    [handleNodeUp] leaves the session as it is, the state of the host
    included: for a host the filter lets through it waits if the host's
    version asks for a delay, then hands the host to the pool and after that
    to the policy; for a filtered host it does nothing.  It is
    [handleNodeConnected] that sets the state to Up, for every host, and then
    tells the policy unless the filter excludes the host as it now is. *)
Theorem up_event_then_connected (s : Session) (eventIp : IP) (eventPort : Z)
        (host : HostRef) :
  ring s !! IP_String eventIp = Some host ->
  let up := handleNodeUp IP_String gocqlDebug nodeUpDelay s eventIp eventPort in
  let connected :=
    handleNodeConnected IP_String gocqlDebug ConnectAddress Port up.1 host in
  up.1 = s
  /\ actions up.2
     = (if filterHost (cfg s) (hosts s host) then []
        else (if nodeUpDelay (hosts s host) >? 0
              then [time_Sleep (nodeUpDelay (hosts s host))] else [])
             ++ [pool_addHost host; policy_AddHost host])
  /\ connected.1 = setState host NodeUp s
  /\ state (hosts connected.1 host) = NodeUp
  /\ actions connected.2
     = (if filterHost (cfg s) (set_state NodeUp (hosts s host)) then []
        else [policy_HostUp host]).
Proof.
  intros Hring up connected. subst connected up.
  unfold handleNodeUp. rewrite Hring. cbn [fst snd].
  split; [reflexivity |]. split.
  - rewrite !actions_app, actions_debug. unfold startPoolFill.
    destruct (filterHost (cfg s) (hosts s host)); [reflexivity |].
    destruct (nodeUpDelay (hosts s host) >? 0); reflexivity.
  - unfold handleNodeConnected.
    assert (Hh : hosts (setState host NodeUp s) host
                 = set_state NodeUp (hosts s host))
      by (simpl; rewrite Z.eqb_refl; reflexivity).
    change (cfg (setState host NodeUp s)) with (cfg s).
    rewrite !Hh.
    destruct (filterHost (cfg s) (set_state NodeUp (hosts s host)));
      cbn [negb fst snd];
      (split; [reflexivity | split; [rewrite Hh; reflexivity |]]);
      rewrite !actions_app, actions_debug; reflexivity.
Qed.

(** X21: Down and Up override each other.  For a host the ring knows, a
    DOWN event followed by the connected callback leaves the host Up, and the
    connected callback followed by a DOWN event leaves it Down; in both
    orders id and version of the host, every other host, the ring and the
    configuration are as before. *)
Theorem down_and_connected_last_one_wins (s : Session) (ip : IP) (port : Z)
        (host : HostRef) :
  ring s !! IP_String ip = Some host ->
  let down_up :=
    (handleNodeConnected IP_String gocqlDebug ConnectAddress Port
       (handleNodeDown IP_String gocqlDebug s ip port).1 host).1 in
  let up_down :=
    (handleNodeDown IP_String gocqlDebug
       (handleNodeConnected IP_String gocqlDebug ConnectAddress Port s host).1
       ip port).1 in
  (cfg down_up = cfg s /\ ring down_up = ring s
   /\ forall r, hosts down_up r
                = if r =? host then set_state NodeUp (hosts s host)
                  else hosts s r)
  /\ (cfg up_down = cfg s /\ ring up_down = ring s
      /\ forall r, hosts up_down r
                   = if r =? host then set_state NodeDown (hosts s host)
                     else hosts s r).
Proof.
  intros Hring down_up up_down. subst down_up up_down. split.
  - unfold handleNodeDown. rewrite Hring.
    assert (Hfst : forall (b : bool) (x : Session) (o1 o2 : list effect),
               (if b then (x, o1) else (x, o2)).1 = x)
      by (intros []; reflexivity).
    rewrite Hfst. unfold handleNodeConnected. rewrite Hfst. simpl.
    split; [reflexivity |]. split; [reflexivity |].
    intros r. destruct (r =? host); [| reflexivity].
    rewrite Z.eqb_refl. reflexivity.
  - assert (Hfst : forall (b : bool) (x : Session) (o1 o2 : list effect),
               (if b then (x, o1) else (x, o2)).1 = x)
      by (intros []; reflexivity).
    unfold handleNodeConnected. rewrite Hfst.
    unfold handleNodeDown. cbn [ring setState]. rewrite Hring, Hfst. simpl.
    split; [reflexivity |]. split; [reflexivity |].
    intros r. destruct (r =? host); [| reflexivity].
    rewrite Z.eqb_refl. reflexivity.
Qed.

End HostLifeCycle.

(** ** The further properties on concrete inputs *)

Section MoreWitnesses.
Import GoInt Session SessionAPI Events EventsAPI Examples MoreExamples.

Local Ltac toy_row_decodes :=
  split; [reflexivity |];
  let c := fresh "c" in
  let Hc := fresh "Hc" in
  intros c Hc; destruct c as [|[|c]]; [| | simpl in Hc; lia];
  simpl; (eexists _, _); (split; [reflexivity |]);
  (split; [reflexivity |]); intros ?; reflexivity.

(** Retry count 2 on connections that fail once. *)
Lemma executeQuery_any_network_witness :
  exists it e',
    executeQuery (flaky_node 1) 3 (query_with_retries 2) (start 0%nat)
    = Returned (Some it) e'
    /\ (1 <= n_picks (calls e') <= 3)%nat.
Proof.
  destruct (executeQuery_any_network (flaky_node 1) (query_with_retries 2)
              (start 0%nat) 3)
    as (it & e' & p & x & Hrun & Hp & _ & Hp1 & HpN & _).
  - split; [simpl; lia | reflexivity].
  - simpl. lia.
  - exists it, e'. split; [exact Hrun |]. rewrite Hp. simpl in *. lia.
Defined.

Lemma ExecuteBatch_any_network_witness :
  exists r e',
    ExecuteBatch (flaky_node 1) 3 (batch_of 4 2) (start 0%nat) = Returned r e'
    /\ (1 <= n_picks (calls e') <= 3)%nat.
Proof.
  destruct (ExecuteBatch_any_network (flaky_node 1) (batch_of 4 2)
              (start 0%nat) 3)
    as (r & e' & p & x & Hrun & Hp & _ & Hp1 & HpN & _).
  - vm_compute. discriminate.
  - split; [simpl; lia | reflexivity].
  - simpl. lia.
  - exists r, e'. split; [exact Hrun |]. rewrite Hp. simpl in *. lia.
Defined.

(** One failure, then no connection, with retries left. *)
Lemma no_connection_ends_the_run_witness :
  (exists e',
      executeQuery (drained_node 1) 3 (query_with_retries 2) (start 0%nat)
      = Returned (Some (Iter_of_err ErrUnavailable)) e'
      /\ n_picks (calls e') = 2%nat /\ n_executions (calls e') = 1%nat)
  /\ (exists e',
         ExecuteBatch (drained_node 1) 3 (batch_of 4 2) (start 0%nat)
         = Returned (Some ErrUnavailable) e'
         /\ n_picks (calls e') = 2%nat /\ n_executions (calls e') = 1%nat).
Proof.
  destruct (no_connection_ends_the_run (drained_node 1) (query_with_retries 2)
              (batch_of 4 2) (start 0%nat) 3 1) as [HQ HB].
  split.
  - apply HQ.
    + split; [simpl; lia | vm_compute; discriminate].
    + intros i Hi. destruct i as [|i]; [reflexivity | lia].
    + reflexivity.
    + lia.
  - apply HB.
    + vm_compute. discriminate.
    + split; [simpl; lia | vm_compute; discriminate].
    + intros i Hi. destruct i as [|i]; [reflexivity | lia].
    + reflexivity.
    + lia.
Defined.

Lemma negative_retry_count_sends_nothing_witness :
  Query_Exec failing_node 3 (query_with_retries (-1)) (start tt)
  = Panicked (start tt)
  /\ ExecuteBatch failing_node 3 (batch_of 4 (-1)) (start tt)
     = Returned None (start tt).
Proof.
  destruct (negative_retry_count_sends_nothing failing_node
              (query_with_retries (-1)) (batch_of 4 (-1)) (start tt) 3)
    as [HQ HB].
  split.
  - apply HQ. simpl. lia.
  - apply HB; [simpl; lia | vm_compute; discriminate].
Defined.

Lemma Scan_at_end_of_results_witness :
  Scan_calls failing_node toy_Unmarshal 0 [toy_dest; toy_dest]
             (mkIter None 0 [] toy_columns None) (start tt) []
  = ([false; false], Some (mkIter None 0 [] toy_columns None, start tt, [])).
Proof.
  apply (Scan_at_end_of_results failing_node toy_Unmarshal 0
           (mkIter None 0 [] toy_columns None) (start tt) []
           [toy_dest; toy_dest]).
  - reflexivity.
  - vm_compute. discriminate.
  - reflexivity.
Defined.

Lemma Scan_count_mismatch_witness :
  Scan failing_node toy_Unmarshal 0 second_page [Some 100] (start tt) []
  = Returned false
      (set_err second_page (Some (errors_New "count mismatch")), start tt, []).
Proof.
  apply (Scan_count_mismatch failing_node toy_Unmarshal 0 second_page
           [Some 100] (start tt) [] []).
  - reflexivity.
  - reflexivity.
  - simpl. lia.
Defined.

Lemma Scan_nil_destinations_witness :
  Scan failing_node toy_Unmarshal 0 second_page [None; None] (start tt) []
  = Returned true (set_pos second_page 1, start tt, []).
Proof.
  apply (Scan_nil_destinations failing_node toy_Unmarshal 0 second_page
           (start tt) []).
  - reflexivity.
  - split; [simpl; lia | reflexivity].
  - vm_compute. discriminate.
  - vm_compute. discriminate.
Defined.

Lemma fetch_runs_the_query_once_witness :
  exists n1 e1,
    fetch_calls (page_node second_page) 1 3
                (mkNextIter (query_with_retries 0) 0 false None) (start tt)
    = (replicate 3 (Some second_page), Some (n1, e1))
    /\ n_executions (calls e1) = 1%nat.
Proof.
  eexists _, _. split.
  - apply (fetch_runs_the_query_once (page_node second_page) 1 2
             (mkNextIter (query_with_retries 0) 0 false None)).
    reflexivity.
  - reflexivity.
Defined.

Lemma Scan_keeps_cursor_within_rows_witness :
  wf_Iter (state_of (Scan (page_node second_page) toy_Unmarshal 3 first_page
                          toy_dest (start tt) [])).1.1.
Proof.
  apply (Scan_keeps_cursor_within_rows (page_node second_page) toy_Unmarshal).
  - intros c q w. simpl. unfold len. simpl.
    repeat split; try lia. vm_compute. discriminate.
  - simpl. unfold len. simpl.
    repeat split; try lia. vm_compute. discriminate.
Defined.

Lemma Scan_walks_two_pages_witness :
  (Scan_calls (page_node second_page) toy_Unmarshal 2
              [toy_dest; toy_dest; toy_dest] first_page (start tt) []).1
  = [true; true; false].
Proof.
  destruct (Scan_walks_two_pages (page_node second_page) toy_Unmarshal 0
              one_row one_row toy_columns toy_columns (query_with_retries 0)
              0 [toy_dest] [toy_dest] toy_dest (start tt) [])
    as (e' & h' & Hrun & _).
  - vm_compute. discriminate.
  - vm_compute. discriminate.
  - vm_compute. discriminate.
  - vm_compute. discriminate.
  - reflexivity.
  - reflexivity.
  - intros j dj Hj. destruct j as [|j]; [| discriminate].
    injection Hj as <-. exists [[Byte.x01]; [Byte.x02]].
    split; [reflexivity |]. toy_row_decodes.
  - intros j dj Hj. destruct j as [|j]; [| discriminate].
    injection Hj as <-. exists [[Byte.x01]; [Byte.x02]].
    split; [reflexivity |]. toy_row_decodes.
  - simpl. lia.
  - reflexivity.
  - change ([toy_dest; toy_dest; toy_dest])
      with ([toy_dest] ++ [toy_dest] ++ [toy_dest]).
    unfold first_page. rewrite Hrun. reflexivity.
Defined.

Lemma Query_Scan_outcomes_witness :
  (exists e1,
      Query_Scan failing_node toy_Unmarshal 1 (query_with_retries 0) toy_dest
                 (start tt) [] = Returned (Some ErrProtocol) (e1, []))
  /\ (exists e1,
         Query_Scan (page_node (mkIter None 0 [] toy_columns None))
                    toy_Unmarshal 1 (query_with_retries 0) toy_dest
                    (start tt) [] = Returned (Some ErrNotFound) (e1, []))
  /\ (exists e1 h',
         Query_Scan (page_node second_page) toy_Unmarshal 1
                    (query_with_retries 0) toy_dest (start tt) []
         = Returned None (e1, h')).
Proof.
  split; [| split].
  - eexists.
    eapply (Query_Scan_outcomes failing_node toy_Unmarshal 1
              (query_with_retries 0) toy_dest (start tt));
      reflexivity.
  - eexists.
    eapply (Query_Scan_outcomes
              (page_node (mkIter None 0 [] toy_columns None)) toy_Unmarshal 1
              (query_with_retries 0) toy_dest (start tt));
      reflexivity.
  - destruct (Query_Scan_outcomes (page_node second_page) toy_Unmarshal 1
                (query_with_retries 0) toy_dest (start tt) _ []
                second_page eq_refl) as (_ & _ & Hrow).
    destruct (Hrow [[Byte.x01]; [Byte.x02]] [] toy_columns None eq_refl)
      as (h' & Hrun).
    + vm_compute. discriminate.
    + vm_compute. discriminate.
    + toy_row_decodes.
    + eexists _, h'. exact Hrun.
Defined.

Lemma NewBatch_is_tried_once_witness :
  exists e',
    ExecuteBatch failing_node 1
      (Batch_Query_all (NewBatch LoggedBatch) [("INSERT INTO t (k) VALUES (?)", [1])])
      (start tt) = Returned (Some ErrProtocol) e'
    /\ n_picks (calls e') = 1%nat.
Proof.
  destruct (NewBatch_is_tried_once failing_node LoggedBatch
              [("INSERT INTO t (k) VALUES (?)", [1])] (start tt) 0)
    as (e' & Hrun & _ & Hp & _).
  - simpl. lia.
  - exists e'. split; [exact Hrun | exact Hp].
Defined.

Lemma debouncer_delivers_each_frame_once_witness :
  let f := topologyChangeEventFrame "NEW_NODE" [] 9042 in
  let r := run_debouncer (newEventDebouncer "node")
             [Arrive f; Arrive f; Fire; Fire; Arrive f] in
  concat (delivered r.2) ++ events r.1 = [f; f; f].
Proof.
  intros f r.
  apply (debouncer_delivers_each_frame_once "node"
           [Arrive f; Arrive f; Fire; Fire; Arrive f]).
  reflexivity.
Defined.

Lemma handleNodeEvent_topology_refresh_witness :
  handleNodeEvent ipv4_String false no_delay map_to_list
    (session_with false false ∅)
    [ topologyChangeEventFrame "NEW_NODE" host_10_0_0_1 9042;
      topologyChangeEventFrame "REMOVED_NODE" host_10_0_0_1 9042 ]
  = (session_with false false ∅, [debounceRingRefresh]).
Proof.
  apply (handleNodeEvent_topology_refresh ipv4_String false no_delay
           map_to_list (fun m => reflexivity (map_to_list m))
           (session_with false false ∅)
           [ topologyChangeEventFrame "NEW_NODE" host_10_0_0_1 9042;
             topologyChangeEventFrame "REMOVED_NODE" host_10_0_0_1 9042 ]).
  reflexivity.
Defined.

Lemma up_event_then_connected_witness :
  actions (handleNodeUp ipv4_String false no_delay
             (session_with false false {["10.0.0.1" := 7]})
             host_10_0_0_1 9042).2
  = [pool_addHost 7; policy_AddHost 7].
Proof.
  apply (up_event_then_connected ipv4_String false no_delay
           (fun _ => host_10_0_0_1) (fun _ => 9042)
           (session_with false false {["10.0.0.1" := 7]})
           host_10_0_0_1 9042 7).
  vm_compute. reflexivity.
Defined.

Lemma down_and_connected_last_one_wins_witness :
  state
    (hosts
       (handleNodeConnected ipv4_String false (fun _ => host_10_0_0_1)
          (fun _ => 9042)
          (handleNodeDown ipv4_String false
             (session_with false false {["10.0.0.1" := 7]})
             host_10_0_0_1 9042).1 7).1 7)
  = NodeUp.
Proof.
  destruct (down_and_connected_last_one_wins ipv4_String false
              (fun _ => host_10_0_0_1) (fun _ => 9042)
              (session_with false false {["10.0.0.1" := 7]})
              host_10_0_0_1 9042 7) as [(_ & _ & Hh) _].
  - vm_compute. reflexivity.
  - rewrite Hh. reflexivity.
Defined.

End MoreWitnesses.
